(** * python-gsmmodem: the GsmModem command channel, notification handlers
      and IncomingCall, embedded from gsmmodem/modem.py.

    Python [str] values are [string]; the regular expressions of the class
    are terms of a small backtracking matcher that follows the semantics of
    Python's [re.match] on the constructs the source uses.  Stateful code is
    written in a state-and-exception monad over a [World] that holds the
    modem object's attributes, the heap of [IncomingCall] objects, the
    scripted answers of the serial transport and the trace of observable
    events (transport writes, log records, callback invocations).  The
    debugging [print] statements of the source write to stdout only and are
    not part of the trace. *)

From Stdlib Require Import ZArith Ascii String List Bool Lia.
From stdpp Require Import base option list gmap strings.

Local Open Scope Z_scope.

(** ** Python strings *)

Abbreviation chars := list_ascii_of_string.
Abbreviation str := string_of_list_ascii.

(** The double-quote character, code 34. *)
Definition dquote : ascii := Ascii false true false false false true false false.

(** [quoted s] is [s] between double quotes. *)
Definition quoted (s : string) : string :=
  String dquote (s +:+ String dquote EmptyString).

(** Carriage return, the default write terminator, and Ctrl-Z, [chr(26)]. *)
Definition CR : string := String (Ascii true false true true false false false false) EmptyString.
Definition CTRL_Z : string := String (Ascii false true false true true false false false) EmptyString.
Definition LF : ascii := Ascii false true false true false false false false.

Fixpoint strip_prefix (p s : list ascii) : option (list ascii) :=
  match p, s with
  | [], _ => Some s
  | a :: p', b :: s' => if Ascii.eqb a b then strip_prefix p' s' else None
  | _ :: _, [] => None
  end.

(** [s.startswith(p)] *)
Definition startswith (s p : string) : bool :=
  bool_decide (is_Some (strip_prefix (chars p) (chars s))).

Fixpoint find_sub (needle hay : list ascii) : bool :=
  match strip_prefix needle hay with
  | Some _ => true
  | None => match hay with [] => false | _ :: hay' => find_sub needle hay' end
  end.

(** [needle in hay] for two strings *)
Definition str_in (needle hay : string) : bool := find_sub (chars needle) (chars hay).

(** [sep.join(parts)] *)
Fixpoint join (sep : string) (parts : list string) : string :=
  match parts with
  | [] => EmptyString
  | [p] => p
  | p :: ps => p +:+ sep +:+ join sep ps
  end.

(** [s.split(' ', 1)]: the text before the first space and, when there is
    a space, the text after it. *)
Fixpoint split_space1 (s : list ascii) : list ascii * option (list ascii) :=
  match s with
  | [] => ([], None)
  | c :: s' =>
      if Ascii.eqb c " "%char then ([], Some s')
      else let '(a, b) := split_space1 s' in (c :: a, b)
  end.

(** [';+VTS='.join(tones)] iterates over the characters of [tones]. *)
Definition each_char (s : string) : list string :=
  (fun c => String c EmptyString) <$> chars s.

(** Character classes of the [re] module on byte strings. *)
Definition is_digit (c : ascii) : bool :=
  let n := nat_of_ascii c in (48 <=? n)%nat && (n <=? 57)%nat.

Definition is_space (c : ascii) : bool :=
  let n := nat_of_ascii c in (n =? 32)%nat || ((9 <=? n)%nat && (n <=? 13)%nat).

Definition is_char (a : ascii) (c : ascii) : bool := Ascii.eqb a c.
Definition not_char (a : ascii) (c : ascii) : bool := negb (Ascii.eqb a c).
Definition dot (c : ascii) : bool := negb (Ascii.eqb LF c).

(** [int(s)] for a string of decimal digits, which is what the source
    passes (captures of [\d+]). *)
Definition digit_val (c : ascii) : Z := Z.of_nat (nat_of_ascii c) - 48.

Definition int_acc (acc : Z) (s : list ascii) : Z :=
  fold_left (fun a c => 10 * a + digit_val c) s acc.

Definition int (s : string) : Z := int_acc 0 (chars s).

(** ** Regular expressions

    The constructs used by the five patterns of [GsmModem]: anchors,
    literal text, one character of a class, greedy bounded repetition of a
    class, concatenation, ordered alternation and numbered groups. *)

Inductive regex : Type :=
| Bol                                                   (* ^ *)
| Eol                                                   (* $ *)
| Lit (s : string)
| Cls (cls : ascii -> bool)
| Rep (cls : ascii -> bool) (lo : nat) (hi : option nat) (* cls{lo,hi}, greedy *)
| Cat (r1 r2 : regex)
| Alt (r1 r2 : regex)
| Grp (n : nat) (r : regex).

Declare Scope regex_scope.
Delimit Scope regex_scope with re.
Bind Scope regex_scope with regex.
Infix "⋅" := Cat (at level 41, right associativity) : regex_scope.

(** Groups set so far, most recent first. *)
Definition captures : Type := list (nat * list ascii).

Definition kont : Type := nat -> list ascii -> captures -> option captures.

(** Greedy repetition: take a character of the class while allowed, and
    fall back to stopping here when the rest of the pattern fails. *)
Fixpoint rep (cls : ascii -> bool) (lo : nat) (hi : option nat)
    (pos : nat) (s : list ascii) (cs : captures) (k : kont) {struct s}
    : option captures :=
  let stop := match lo with O => k pos s cs | S _ => None end in
  match s with
  | c :: s' =>
      if cls c && negb (bool_decide (hi = Some O)) then
        match rep cls (Nat.pred lo) (Nat.pred <$> hi) (S pos) s' cs k with
        | Some r => Some r
        | None => stop
        end
      else stop
  | [] => stop
  end.

(** [exec r pos s cs k]: match [r] at offset [pos], where [s] is the text
    from there on, then continue with [k]; first success in priority
    order, as the backtracking matcher of [re] does. *)
Fixpoint exec (r : regex) (pos : nat) (s : list ascii) (cs : captures) (k : kont)
    : option captures :=
  match r with
  | Bol => match pos with O => k pos s cs | S _ => None end
  | Eol =>
      match s with
      | [] => k pos s cs
      | [c] => if Ascii.eqb c LF then k pos s cs else None
      | _ => None
      end
  | Lit l =>
      match strip_prefix (chars l) s with
      | Some s' => k (pos + String.length l)%nat s' cs
      | None => None
      end
  | Cls cls =>
      match s with
      | c :: s' => if cls c then k (S pos) s' cs else None
      | [] => None
      end
  | Rep cls lo hi => rep cls lo hi pos s cs k
  | Cat r1 r2 => exec r1 pos s cs (fun pos' s' cs' => exec r2 pos' s' cs' k)
  | Alt r1 r2 =>
      match exec r1 pos s cs k with
      | Some m => Some m
      | None => exec r2 pos s cs k
      end
  | Grp n r1 =>
      exec r1 pos s cs
        (fun pos' s' cs' => k pos' s' ((n, take (pos' - pos) s) :: cs'))
  end.

(** [pattern.match(s)]: anchored at the start of [s]. *)
Definition re_match (r : regex) (s : string) : option captures :=
  exec r 0 (chars s) [] (fun _ _ cs => Some cs).

(** [m.group(n)]: [None] when the group took no part in the match. *)
Fixpoint group (n : nat) (cs : captures) : option string :=
  match cs with
  | [] => None
  | (i, v) :: cs' => if (i =? n)%nat then Some (str v) else group n cs'
  end.

(** ** The patterns of class [GsmModem] *)

Module Patterns.
Local Open Scope regex_scope.

(** [^\+(CM[ES]) ERROR: (\d+)$] *)
Definition CM_ERROR_REGEX : regex :=
  Bol ⋅ Lit "+" ⋅ Grp 1 (Lit "CM" ⋅ Cls (fun c => (is_char "E" c || is_char "S" c)%bool))
      ⋅ Lit " ERROR: " ⋅ Grp 2 (Rep is_digit 1 None) ⋅ Eol.

(** [^\+CSQ:\s*(\d+),] *)
Definition CSQ_REGEX : regex :=
  Bol ⋅ Lit "+CSQ:" ⋅ Rep is_space 0 None ⋅ Grp 1 (Rep is_digit 1 None) ⋅ Lit ",".

(** [^\+CLIP:\s*Q(\+{0,1}\d+)Q,\d+,[^,]*,[^,]*,( Q([^Q]+)Q | ,.* )$] with [Q]
    the double quote (blanks added around the alternatives). *)
Definition CLIP_REGEX : regex :=
  Bol ⋅ Lit "+CLIP:" ⋅ Rep is_space 0 None
      ⋅ Cls (is_char dquote)
      ⋅ Grp 1 (Rep (is_char "+") 0 (Some 1%nat) ⋅ Rep is_digit 1 None)
      ⋅ Cls (is_char dquote) ⋅ Lit ","
      ⋅ Rep is_digit 1 None ⋅ Lit ","
      ⋅ Rep (not_char ",") 0 None ⋅ Lit ","
      ⋅ Rep (not_char ",") 0 None ⋅ Lit ","
      ⋅ Grp 2 (Alt (Cls (is_char dquote) ⋅ Grp 3 (Rep (not_char dquote) 1 None)
                      ⋅ Cls (is_char dquote))
                   (Lit "," ⋅ Rep dot 0 None))
      ⋅ Eol.

(** [^\+CMTI:\s*([^,]+),(\d+)$] *)
Definition CMTI_REGEX : regex :=
  Bol ⋅ Lit "+CMTI:" ⋅ Rep is_space 0 None
      ⋅ Grp 1 (Rep (not_char ",") 1 None) ⋅ Lit ","
      ⋅ Grp 2 (Rep is_digit 1 None) ⋅ Eol.

(** [^\+CMGR:\s*Q([^Q]+)Q,Q([^Q]+)Q,[^,]*,Q([^Q]+)Q$] *)
Definition CMGR_SM_DELIVER_REGEX : regex :=
  Bol ⋅ Lit "+CMGR:" ⋅ Rep is_space 0 None
      ⋅ Cls (is_char dquote) ⋅ Grp 1 (Rep (not_char dquote) 1 None) ⋅ Cls (is_char dquote)
      ⋅ Lit ","
      ⋅ Cls (is_char dquote) ⋅ Grp 2 (Rep (not_char dquote) 1 None) ⋅ Cls (is_char dquote)
      ⋅ Lit "," ⋅ Rep (not_char ",") 0 None ⋅ Lit ","
      ⋅ Cls (is_char dquote) ⋅ Grp 3 (Rep (not_char dquote) 1 None) ⋅ Cls (is_char dquote)
      ⋅ Eol.

End Patterns.
Export Patterns.

(** ** Data model *)

(** Modelled from the spec: the exception classes of gsmmodem/exceptions.py,
    which is not among the sources.  [CommandError] has an optional kind
    and an optional numeric code, its constructor arguments:
    [CommandError()] is [CommandError None None], and
    [CommandError(errorType, code)] has both set; [TimeoutException] and
    [InvalidStateException] are distinct from it.  The other constructors
    are built-in exceptions of Python, but for [Dangling], which is not a
    Python exception: it marks a heap address that holds no object, which
    no reference obtained from the program can be. *)
Inductive exn : Type :=
| CommandError (type : option string) (code : option Z)
| TimeoutException
| InvalidStateException (msg : string)
| AttributeError (attr : string)
| UnboundLocalError (var : string)
| IndexError
| TypeError
| Dangling.

(** class [IncomingCall]; [ringCount] is a Python int.  The attribute
    [_gsmModem], a weak proxy of the modem that created the call, is the
    one modem of the [World]. *)
Record IncomingCall : Type := mkIncomingCall {
  number : option string;
  ton : option Z;
  callerName : option string;
  type : option string;
  ringing : bool;
  answered : bool;
  ringCount : Z
}.

(** [IncomingCall.__init__] *)
Definition IncomingCall_init (number : option string) (ton : option Z)
    (callerName callType : option string) : IncomingCall :=
  mkIncomingCall number ton callerName callType true false 1.

Definition set_ringing (b : bool) (c : IncomingCall) : IncomingCall :=
  mkIncomingCall (number c) (ton c) (callerName c) (type c) b (answered c) (ringCount c).
Definition set_answered (b : bool) (c : IncomingCall) : IncomingCall :=
  mkIncomingCall (number c) (ton c) (callerName c) (type c) (ringing c) b (ringCount c).
Definition set_ringCount (n : Z) (c : IncomingCall) : IncomingCall :=
  mkIncomingCall (number c) (ton c) (callerName c) (type c) (ringing c) (answered c) n.

(** The three states of the spec, read off the two flags of the object. *)
Inductive CallState : Type := RINGING | ANSWERED | ENDED.

Definition state_of (c : IncomingCall) : CallState :=
  if answered c then ANSWERED else if ringing c then RINGING else ENDED.

(** classes [Sms] and [ReceivedSms]; a field holds a [str] or [None]. *)
Record ReceivedSms : Type := mkReceivedSms {
  sms_status : option string;
  sms_number : option string;
  sms_time : option string;
  sms_text : string
}.

(** A dict from caller number ([None] is a key like any other) to the
    address of the call object.  The source uses a
    [weakref.WeakValueDictionary], which drops an entry when its call
    object is collected: a registry here is the content of the dict at the
    time a handler or a method runs. *)
Abbreviation registry := (gmap (option string) nat).

(** The attributes of a [GsmModem] object that the code reads and writes.
    [__init__] assigns [activeCalls]; [_handleIncomingCall] reads
    [_activeCalls], which this class never assigns: [None] stands for the
    attribute being absent. *)
Record GsmModem : Type := mkGsmModem {
  _callingLineIdentification : bool;
  _extendedIncomingCallIndication : bool;
  activeCalls : registry;
  _activeCalls : option registry
}.

(** [GsmModem.__init__], given whether each callback was supplied.  An
    omitted callback is replaced by [self._placeholderCallback], an
    attribute the class does not have (its method is [_placeHolderCallback]).
    [_activeCalls] is left as it was, which is absent. *)
Definition GsmModem_init (incomingCallCallbackFunc smsReceivedCallbackFunc : bool)
    : exn + GsmModem :=
  if incomingCallCallbackFunc && smsReceivedCallbackFunc
  then inr (mkGsmModem false false ∅ None)
  else inl (AttributeError "_placeholderCallback").

Inductive loglevel : Type := DEBUG | INFO | WARN.

(** Observable events, in the order they happen.  The two callbacks are
    functions of the user of the class: an invocation is recorded with its
    argument. *)
Inductive event : Type :=
| Written (data : string)
| Logged (level : loglevel) (template : string) (arg : option exn)
| IncomingCallCallback (call : nat)
| SmsReceivedCallback (sms : ReceivedSms).

(** What the modem answers to one command that waits for a response. *)
Inductive response : Type :=
| Lines (ls : list string)
| NoResponse.

Record World : Type := mkWorld {
  modem : GsmModem;
  heap : list IncomingCall;
  trace : list event;
  script : list response
}.

Definition with_modem (m : GsmModem) (w : World) : World :=
  mkWorld m (heap w) (trace w) (script w).
Definition with_heap (h : list IncomingCall) (w : World) : World :=
  mkWorld (modem w) h (trace w) (script w).
Definition with_trace (t : list event) (w : World) : World :=
  mkWorld (modem w) (heap w) t (script w).
Definition with_script (s : list response) (w : World) : World :=
  mkWorld (modem w) (heap w) (trace w) s.

(** ** Statements: state and exceptions *)

Inductive outcome (A : Type) : Type :=
| Return (a : A)
| Raise (e : exn).
Arguments Return {A} a.
Arguments Raise {A} e.

Definition M (A : Type) : Type := World -> outcome A * World.

Definition ret {A} (a : A) : M A := fun w => (Return a, w).
Definition raise {A} (e : exn) : M A := fun w => (Raise e, w).
Definition bind {A B} (c : M A) (k : A -> M B) : M B :=
  fun w => match c w with
           | (Return a, w') => k a w'
           | (Raise e, w') => (Raise e, w')
           end.

Notation "x <- c ;; k" := (bind c (fun x => k))
  (at level 100, c at next level, right associativity).
Notation "c ;; k" := (bind c (fun _ => k))
  (at level 100, right associativity).

Definition lift {A} (o : outcome A) : M A := fun w => (o, w).
Definition get_modem : M GsmModem := fun w => (Return (modem w), w).
Definition put_modem (m : GsmModem) : M unit := fun w => (Return tt, with_modem m w).
Definition emit (e : event) : M unit :=
  fun w => (Return tt, with_trace (trace w ++ [e]) w).
Definition log (level : loglevel) (template : string) (arg : option exn) : M unit :=
  emit (Logged level template arg).

(** [try: body / except CommandError, e: handler / else: orelse] *)
Definition try_except_CommandError {A B} (body : M A)
    (handler : exn -> M B) (orelse : A -> M B) : M B :=
  fun w => match body w with
           | (Return a, w') => orelse a w'
           | (Raise (CommandError t c), w') => handler (CommandError t c) w'
           | (Raise e, w') => (Raise e, w')
           end.

(** Attribute reads and writes on the call object at address [self]. *)
Definition load (self : nat) : M IncomingCall :=
  fun w => match heap w !! self with
           | Some c => (Return c, w)
           | None => (Raise Dangling, w)
           end.
Definition update (self : nat) (f : IncomingCall -> IncomingCall) : M unit :=
  fun w => match heap w !! self with
           | Some c => (Return tt, with_heap (<[self := f c]> (heap w)) w)
           | None => (Raise Dangling, w)
           end.
Definition alloc (c : IncomingCall) : M nat :=
  fun w => (Return (length (heap w)), with_heap (heap w ++ [c]) w).

(** ['...{}'.format(x)] for [x] a [str] or [None] *)
Definition format_arg (x : option string) : string := default "None" x.

(** [l[1:-1]] *)
Definition slice_1_m1 {A} (l : list A) : list A := removelast (tail l).

(** ** The serial transport *)

(** Modelled from the spec: [SerialComms.write] of gsmmodem/serial_comms.py,
    the external transport that sends a raw line and gets the response lines
    back.  The bytes are recorded; a command that waits takes the next
    scripted answer of the modem and fails with [TimeoutException] when
    there is none; a command that does not wait returns [None]. *)
Definition SerialComms_write (data : string) (waitForResponse : bool) (timeout : Z)
    : M (option (list string)) :=
  fun w =>
    let w1 := with_trace (trace w ++ [Written data]) w in
    if waitForResponse then
      match script w with
      | Lines ls :: rest => (Return (Some ls), with_script rest w1)
      | NoResponse :: rest => (Raise TimeoutException, with_script rest w1)
      | [] => (Raise TimeoutException, w1)
      end
    else (Return None, w1).

(** ** class GsmModem *)

(** [GsmModem.write] *)
Definition write (data : string) (waitForResponse : bool) (timeout : Z)
    (parseError : bool) (writeTerm : string) : M (option (list string)) :=
  responseLines <- SerialComms_write (data +:+ writeTerm) waitForResponse timeout ;;
  if waitForResponse then
    match responseLines with
    | None => raise TypeError
    | Some ls =>
        match last ls with
        | None => raise IndexError
        | Some cmdStatusLine =>
            if parseError && str_in "ERROR" cmdStatusLine then
              match re_match CM_ERROR_REGEX cmdStatusLine with
              | Some cmErrorMatch =>
                  let errorType := group 1 cmErrorMatch in
                  match group 2 cmErrorMatch with
                  | Some errorCode => raise (CommandError errorType (Some (int errorCode)))
                  | None => raise TypeError
                  end
              | None => raise (CommandError None None)
              end
            else ret (Some ls)
        end
    end
  else ret None.

(** [self.write(data)] with the default arguments
    [waitForResponse=True, timeout=5, parseError=True, writeTerm='\r']. *)
Definition write_ (data : string) : M (option (list string)) :=
  write data true 5 true CR.

(** [GsmModem.signalStrength] *)
Definition signalStrength : M Z :=
  r <- write_ "AT+CSQ" ;;
  match r with
  | None => raise TypeError
  | Some [] => raise IndexError
  | Some (line0 :: _) =>
      match re_match CSQ_REGEX line0 with
      | Some csq =>
          match group 1 csq with
          | Some g => let ss := int g in ret (if bool_decide (ss ≠ 99) then ss else -1)
          | None => raise TypeError
          end
      | None => raise (CommandError None None)
      end
  end.

(** The loop of [waitForNetworkCoverage].  [block] is what [block[0]] still
    has to say: [None] when no Timer was started (always True), [Some n]
    when the Timer thread clears the flag after [n] more readings, a number
    fixed by real time.  [time.sleep(1)] has no effect on the state.  The
    result is [None] when [fuel] iterations did not end the loop. *)
Fixpoint coverage_loop (fuel : nat) (block : option nat) : M (option Z) :=
  match block with
  | Some O => raise TimeoutException
  | _ =>
      match fuel with
      | O => ret None
      | S fuel' =>
          ss <- signalStrength ;;
          if bool_decide (ss ≠ 0) then ret (Some ss)
          else coverage_loop fuel' (Nat.pred <$> block)
      end
  end.

(** [GsmModem.waitForNetworkCoverage]; [expiry] is the number of readings
    of the flag that come before the countdown elapses. *)
Definition waitForNetworkCoverage (timeout : option Z) (expiry : nat) (fuel : nat)
    : M (option Z) :=
  coverage_loop fuel (match timeout with Some _ => Some expiry | None => None end).

(** [GsmModem.connect]; [super().connect()] opens the port and is not
    modelled, and the [runInit] argument is not used by the source. *)
Definition connect : M unit :=
  log DEBUG "Connecting to modem on port {} at {}bps" None ;;
  write_ "ATZ" ;;
  write_ "ATE0" ;;
  write_ "AT+CFUN=1" ;;
  write_ "AT+CMEE=1" ;;
  write "AT+WIND=0" true 5 false CR ;;
  write_ "AT+CMGF=1" ;;
  write_ "AT+CSMP=49,167" ;;
  write_ ("AT+CPMS=" +:+ quoted "SM" +:+ "," +:+ quoted "SM" +:+ "," +:+ quoted "SR") ;;
  write_ "AT+CNMI=2,1,0,2" ;;
  try_except_CommandError (write_ "AT+CLIP=1")
    (fun clipError =>
       m <- get_modem ;;
       put_modem (mkGsmModem false (_extendedIncomingCallIndication m)
                    (activeCalls m) (_activeCalls m)) ;;
       log WARN "Incoming call calling line identification (caller ID) not supported by modem. Error: {}"
         (Some clipError))
    (fun _ =>
       m <- get_modem ;;
       put_modem (mkGsmModem true (_extendedIncomingCallIndication m)
                    (activeCalls m) (_activeCalls m)) ;;
       try_except_CommandError (write_ "AT+CRC=1")
         (fun crcError =>
            m <- get_modem ;;
            put_modem (mkGsmModem (_callingLineIdentification m) false
                         (activeCalls m) (_activeCalls m)) ;;
            log INFO "Extended format incoming call indication not supported by modem. Error: {}"
              (Some crcError))
         (fun _ =>
            m <- get_modem ;;
            put_modem (mkGsmModem (_callingLineIdentification m) true
                         (activeCalls m) (_activeCalls m)))) ;;
  write_ "AT+CVHU=0" ;;
  ret tt.

(** [GsmModem.sendSms] *)
Definition sendSms (destination text : string) : M unit :=
  write ("AT+CMGS=" +:+ quoted destination +:+ CR +:+ text) true 15 true CTRL_Z ;;
  ret tt.

(** The call type of [_handleIncomingCall]: [ringLine.split(' ', 1)[1]]
    when the extended indication is on, which is an [IndexError] for a line
    without a space. *)
Definition ring_callType (extended : bool) (ringLine : string)
    : outcome (option string) :=
  if extended then
    match snd (split_space1 (chars ringLine)) with
    | Some rest => Return (Some (str rest))
    | None => Raise IndexError
    end
  else Return None.

(** The caller-ID part of [_handleIncomingCall]: the values of the locals
    [callerNumber], [ton] and [callerName] after the [if] over the CLIP
    line.  [ton] is [None] when the local was never assigned, which is so
    on the branch where the pattern matched. *)
Definition caller_id (clip : bool) (lines : list string)
    : option string * option (option Z) * option string :=
  if clip && bool_decide (0 < length lines)%nat then
    match lines with
    | [] => (None, Some None, None)
    | clipLine :: _ =>
        match re_match CLIP_REGEX clipLine with
        | Some clipMatch =>
            let callerNumber := group 1 clipMatch in
            let callerName := group 3 clipMatch in
            let callerName :=
              match callerName with
              | Some n => if bool_decide (String.length n = 0%nat) then None else Some n
              | None => None
              end in
            (callerNumber, None, callerName)
        | None => (None, Some None, None)
        end
    end
  else (None, Some None, None).

(** [GsmModem._handleIncomingCall] *)
Definition _handleIncomingCall (lines : list string) : M unit :=
  match lines with
  | [] => raise IndexError
  | ringLine :: lines =>
      m <- get_modem ;;
      callType <- lift (ring_callType (_extendedIncomingCallIndication m) ringLine) ;;
      let '(callerNumber, ton, callerName) :=
        caller_id (_callingLineIdentification m) lines in
      match _activeCalls m with
      | None => raise (AttributeError "_activeCalls")
      | Some calls =>
          call <-
            match calls !! callerNumber with
            | Some call =>
                c <- load call ;;
                update call (set_ringCount (ringCount c + 1)) ;;
                ret call
            | None =>
                match ton with
                | None => raise (UnboundLocalError "ton")
                | Some ton =>
                    call <- alloc (IncomingCall_init callerNumber ton callerName callType) ;;
                    m <- get_modem ;;
                    put_modem (mkGsmModem (_callingLineIdentification m)
                                 (_extendedIncomingCallIndication m) (activeCalls m)
                                 (Some (<[callerNumber := call]> calls))) ;;
                    ret call
                end
            end ;;
          emit (IncomingCallCallback call)
      end
  end.

(** [GsmModem._readStoredSmsMessage] *)
Definition _readStoredSmsMessage (msgIndex : option string) : M ReceivedSms :=
  r <- write_ ("AT+CMGR=" +:+ format_arg msgIndex) ;;
  match r with
  | None => raise TypeError
  | Some [] => raise IndexError
  | Some ((line0 :: _) as msgData) =>
      match re_match CMGR_SM_DELIVER_REGEX line0 with
      | None => raise (CommandError None None)
      | Some cmgrMatch =>
          let msgText := join (String LF EmptyString) (slice_1_m1 msgData) in
          ret (mkReceivedSms (group 1 cmgrMatch) (group 2 cmgrMatch)
                 (group 3 cmgrMatch) msgText)
      end
  end.

(** [GsmModem._deleteStoredMessage] *)
Definition _deleteStoredMessage (msgIndex : option string) : M unit :=
  write_ ("AT+CMGD=" +:+ format_arg msgIndex) ;;
  ret tt.

(** [GsmModem._handleSmsReceived] *)
Definition _handleSmsReceived (notificationLine : string) : M unit :=
  match re_match CMTI_REGEX notificationLine with
  | Some cmtiMatch =>
      let msgIndex := group 2 cmtiMatch in
      sms <- _readStoredSmsMessage msgIndex ;;
      _deleteStoredMessage msgIndex ;;
      emit (SmsReceivedCallback sms)
  | None => ret tt
  end.

(** [GsmModem.__threadedHandleModemNotification], the body of the thread
    that [_handleModemNotification] starts for a group of lines. *)
Definition __threadedHandleModemNotification (lines : list string) : M unit :=
  match lines with
  | [] => raise IndexError
  | firstLine :: _ =>
      if str_in "RING" firstLine then _handleIncomingCall lines
      else if startswith firstLine "+CMTI" then _handleSmsReceived firstLine
      else log DEBUG "Unhandled unsolicited modem notification:" None
  end.

(** ** class IncomingCall *)

(** [IncomingCall.answer] *)
Definition answer (self : nat) : M nat :=
  c <- load self ;;
  (if ringing c then
     write_ "ATA" ;;
     update self (set_ringing false) ;;
     update self (set_answered true)
   else ret tt) ;;
  ret self.

(** [IncomingCall.sendDtmfTone] *)
Definition sendDtmfTone (self : nat) (tones : string) : M unit :=
  c <- load self ;;
  if answered c then
    let cmd :=
      if bool_decide (1 < String.length tones)%nat
      then "AT+VTS=" +:+ join ";+VTS=" (each_char tones)
      else "AT+VTS=" +:+ tones in
    write_ cmd ;;
    ret tt
  else
    raise (InvalidStateException
             "Call is not active (it has not yet been answered, or it has ended).").

(** [self.write] on an [IncomingCall]: the class defines no such
    attribute, so looking it up fails before anything is called. *)
Definition IncomingCall_write (self : nat) (data : string) : M unit :=
  raise (AttributeError "write").

(** [IncomingCall.hangup] *)
Definition hangup (self : nat) : M unit :=
  IncomingCall_write self "ATH" ;;
  update self (set_ringing false) ;;
  update self (set_answered false) ;;
  c <- load self ;;
  m <- get_modem ;;
  match activeCalls m !! number c with
  | Some _ =>
      put_modem (mkGsmModem (_callingLineIdentification m)
                   (_extendedIncomingCallIndication m)
                   (delete (number c) (activeCalls m)) (_activeCalls m))
  | None => ret tt
  end.

(** ** The model on concrete inputs *)

Section Examples.

Example character_codes :
  nat_of_ascii dquote = 34%nat /\ nat_of_ascii LF = 10%nat /\
  chars CR = [ascii_of_nat 13] /\ chars CTRL_Z = [ascii_of_nat 26].
Proof. by vm_compute. Qed.

Example int_leading_zeros : int "0021" = 21.
Proof. reflexivity. Qed.

Example slice_examples :
  slice_1_m1 ["hdr"; "a"; "b"; "OK"] = ["a"; "b"] /\
  slice_1_m1 ["hdr"; "OK"] = [] /\ slice_1_m1 ["OK"] = [] /\
  slice_1_m1 (@nil string) = [].
Proof. by vm_compute. Qed.

Example join_tones :
  "AT+VTS=" +:+ join ";+VTS=" (each_char "12#") = "AT+VTS=1;+VTS=2;+VTS=#".
Proof. reflexivity. Qed.

Example CM_ERROR_groups :
  (fun m => (group 1 m, group 2 m)) <$> re_match CM_ERROR_REGEX "+CME ERROR: 30"
  = Some (Some "CME", Some "30").
Proof. by vm_compute. Qed.

Example CM_ERROR_plain_error : re_match CM_ERROR_REGEX "ERROR" = None.
Proof. by vm_compute. Qed.

Example CSQ_group :
  group 1 <$> re_match CSQ_REGEX "+CSQ: 21,99" = Some (Some "21").
Proof. by vm_compute. Qed.

Example CLIP_with_name :
  (fun m => (group 1 m, group 3 m))
    <$> re_match CLIP_REGEX ("+CLIP: " +:+ quoted "+2782" +:+ ",145,,," +:+ quoted "Bob")
  = Some (Some "+2782", Some "Bob").
Proof. by vm_compute. Qed.

Example CLIP_without_name :
  (fun m => (group 1 m, group 3 m))
    <$> re_match CLIP_REGEX ("+CLIP: " +:+ quoted "+2782" +:+ ",145,,,,0")
  = Some (Some "+2782", None).
Proof. by vm_compute. Qed.

(** The blanks after the colon are given back to the first group when it
    would otherwise be empty. *)
Example CMTI_backtracks :
  (fun m => (group 1 m, group 2 m)) <$> re_match CMTI_REGEX "+CMTI:  ,4"
  = Some (Some " ", Some "4").
Proof. by vm_compute. Qed.

Example ring_callType_examples :
  ring_callType true "+CRING: VOICE" = Return (Some "VOICE") /\
  ring_callType true "RING" = Raise IndexError /\
  ring_callType false "RING" = Return None.
Proof. by vm_compute. Qed.

(** A ringing call is answered with ATA and becomes ANSWERED; a second
    [answer] sends nothing. *)
Example answer_twice :
  let w := mkWorld (mkGsmModem false false ∅ None)
             [IncomingCall_init None None None None] [] [Lines ["OK"]] in
  let w1 := snd (answer 0 w) in
  (state_of <$> heap w1 !! 0%nat) = Some ANSWERED /\
  trace w1 = [Written ("ATA" +:+ CR)] /\
  answer 0 w1 = (Return 0%nat, w1).
Proof. by vm_compute. Qed.

(** sendSms writes the command, a carriage return, the text and Ctrl-Z. *)
Example sendSms_bytes :
  trace (snd (sendSms "+2782" "Hi"
                (mkWorld (mkGsmModem false false ∅ None) [] [] [Lines ["OK"]])))
  = [Written ("AT+CMGS=" +:+ quoted "+2782" +:+ CR +:+ "Hi" +:+ CTRL_Z)].
Proof. by vm_compute. Qed.

(** On a modem as [__init__] leaves it the ring handler stops at the
    registry it reads. *)
Example ring_on_fresh_modem :
  forall m, GsmModem_init true true = inr m ->
    _handleIncomingCall ["RING"] (mkWorld m [] [] [])
    = (Raise (AttributeError "_activeCalls"), mkWorld m [] [] []).
Proof. intros m [= <-]. reflexivity. Qed.

End Examples.

(** * Verification *)

(** ** Vocabulary of the statements *)

(** The text [rest] does not go on with a character of the class. *)
Definition stops (cls : ascii -> bool) (rest : list ascii) : Prop :=
  match rest with
  | [] => True
  | c :: _ => cls c = false
  end.

(** The continuation fails on any text that starts inside the class. *)
Definition rejects (cls : ascii -> bool) (k : kont) : Prop :=
  forall p c s cs, cls c = true -> k p (c :: s) cs = None.

(** The pattern fails on any text that starts with a character of [cls]. *)
Definition rejecting (cls : ascii -> bool) (r : regex) : Prop :=
  forall p c s cs k, cls c = true -> exec r p (c :: s) cs k = None.

(** No character belongs to both classes. *)
Definition disjoint (cls cls' : ascii -> bool) : Prop :=
  forall c, cls c = true -> cls' c = false.

(** Every character of [s] is in the class. *)
Definition all_in (cls : ascii -> bool) (s : string) : Prop :=
  Forall (fun c => cls c = true) (chars s).

(** A nonempty string of decimal digits. *)
Definition is_digits (s : string) : Prop :=
  s <> EmptyString /\ all_in is_digit s.

(** Nothing, or the one line feed that [$] lets pass at the end. *)
Definition eol_tail (s : string) : Prop :=
  s = EmptyString \/ s = String LF EmptyString.

(** The lines [+CME ERROR: <digits>] and [+CMS ERROR: <digits>]. *)
Definition cm_error_line (kind digits line : string) : Prop :=
  (kind = "CME" \/ kind = "CMS") /\ is_digits digits /\
  exists nl, eol_tail nl /\ line = "+" +:+ kind +:+ " ERROR: " +:+ digits +:+ nl.

(** The lines [+CSQ:<blanks><digits>,<anything>]. *)
Definition csq_line (blanks digits tail line : string) : Prop :=
  all_in is_space blanks /\ is_digits digits /\
  line = "+CSQ:" +:+ blanks +:+ digits +:+ "," +:+ tail.

(** The world after [data] went to the transport and the modem's next
    scripted answer was taken. *)
Definition sent (data : string) (rest : list response) (w : World) : World :=
  mkWorld (modem w) (heap w) (trace w ++ [Written data]) rest.

(** The answer lets [write] return: it has a last line, and that line does
    not say ERROR. *)
Definition succeeds (r : response) : Prop :=
  exists ls st, r = Lines ls /\ last ls = Some st /\ str_in "ERROR" st = false.

(** The answer makes [write] raise [CommandError]: its last line says
    ERROR. *)
Definition fails (r : response) : Prop :=
  exists ls st, r = Lines ls /\ last ls = Some st /\ str_in "ERROR" st = true.

(** The answer has a last line at all, which is all [parseError=False]
    needs. *)
Definition answers (r : response) : Prop :=
  exists ls st, r = Lines ls /\ last ls = Some st.

(** [write(cmd)] as the trace shows it: the command and its terminator. *)
Definition wrote (cmd : string) : event := Written (cmd +:+ CR).

(** What [connect] logs and sends before it reaches AT+CLIP=1. *)
Definition bringup_prefix : list event :=
  [ Logged DEBUG "Connecting to modem on port {} at {}bps" None;
    wrote "ATZ"; wrote "ATE0"; wrote "AT+CFUN=1"; wrote "AT+CMEE=1";
    wrote "AT+WIND=0"; wrote "AT+CMGF=1"; wrote "AT+CSMP=49,167";
    wrote ("AT+CPMS=" +:+ quoted "SM" +:+ "," +:+ quoted "SM" +:+ "," +:+ quoted "SR");
    wrote "AT+CNMI=2,1,0,2" ].

Definition CLIP_WARNING : string :=
  "Incoming call calling line identification (caller ID) not supported by modem. Error: {}".
Definition CRC_INFO : string :=
  "Extended format incoming call indication not supported by modem. Error: {}".

(** The lines of the end-to-end SMS scenario. *)
Definition CMTI_SM_4 : string := "+CMTI: " +:+ quoted "SM" +:+ ",4".

Definition CMGR_HEADER : string :=
  "+CMGR: " +:+ quoted "REC UNREAD" +:+ "," +:+ quoted "+12025550123" +:+ ",,"
  +:+ quoted "23/01/01,12:00:00+02".

Definition HELLO_SMS : ReceivedSms :=
  mkReceivedSms (Some "REC UNREAD") (Some "+12025550123")
    (Some "23/01/01,12:00:00+02") "Hello".

(** The message of the exception [sendDtmfTone] raises. *)
Definition NOT_ACTIVE : string :=
  "Call is not active (it has not yet been answered, or it has ended).".

(** The new events of a run: what [w'] has in its trace beyond [w]. *)
Definition new_events (w w' : World) : list event :=
  drop (length (trace w)) (trace w').

(** C10 as the spec states it: a +CMTI line that the dispatcher hands to
    the SMS handler and that does not match the full pattern is reported,
    as a generic CommandError together with a log record. *)
Definition malformed_cmti_is_reported : Prop :=
  forall (line : string) (w : World),
    startswith line "+CMTI" = true -> str_in "RING" line = false ->
    re_match CMTI_REGEX line = None ->
    exists w',
      __threadedHandleModemNotification [line] w = (Raise (CommandError None None), w') /\
      exists level template arg, Logged level template arg ∈ new_events w w'.

(** A caller-ID line whose quoted name is empty:
    [+CLIP:<blanks>Q<number>Q,<ton>,<f>,<f>,QQ<anything>], with [Q] the
    double quote and the number an optional plus sign and digits. *)
Definition clip_line_empty_name (line : string) : Prop :=
  exists blanks plus digits ton f1 f2 rest,
    all_in is_space blanks /\ (plus = EmptyString \/ plus = "+") /\
    is_digits digits /\ is_digits ton /\
    all_in (not_char ",") f1 /\ all_in (not_char ",") f2 /\
    line = "+CLIP:" +:+ blanks +:+ quoted (plus +:+ digits) +:+ "," +:+ ton +:+ ","
           +:+ f1 +:+ "," +:+ f2 +:+ "," +:+ quoted EmptyString +:+ rest.

(** Every entry of the registry leads to a call object, and the key is
    that call's number. *)
Definition registry_wf (reg : registry) (h : list IncomingCall) : Prop :=
  forall key call, reg !! key = Some call ->
    exists c, h !! call = Some c /\ number c = key.


(** The world with the registry that [_handleIncomingCall] reads replaced. *)
Definition with__activeCalls (reg : registry) (w : World) : World :=
  with_modem (mkGsmModem (_callingLineIdentification (modem w))
                (_extendedIncomingCallIndication (modem w))
                (activeCalls (modem w)) (Some reg)) w.


(** The caller-ID pattern from the quote that closes the number on. *)
Definition CLIP_after_number : regex :=
  (Cls (is_char dquote) ⋅ Lit ","
   ⋅ Rep is_digit 1 None ⋅ Lit ","
   ⋅ Rep (not_char ",") 0 None ⋅ Lit ","
   ⋅ Rep (not_char ",") 0 None ⋅ Lit ","
   ⋅ Grp 2 (Alt (Cls (is_char dquote) ⋅ Grp 3 (Rep (not_char dquote) 1 None)
                   ⋅ Cls (is_char dquote))
                (Lit "," ⋅ Rep dot 0 None))
   ⋅ Eol)%re.

(** The exception [write] raises for a status line that says ERROR. *)
Definition status_error (line : string) : exn :=
  match re_match CM_ERROR_REGEX line with
  | Some m =>
      match group 2 m with
      | Some code => CommandError (group 1 m) (Some (int code))
      | None => TypeError
      end
  | None => CommandError None None
  end.

(** The answer to AT+CSQ that makes [signalStrength] return [v]: a first
    line [+CSQ:<blanks><digits>,...] and a status line without ERROR, [v]
    being the number the digits spell, or -1 for 99. *)
Definition csq_answer (v : Z) (r : response) : Prop :=
  exists line0 more st blanks digits tail,
    r = Lines (line0 :: more) /\ last (line0 :: more) = Some st /\
    str_in "ERROR" st = false /\ csq_line blanks digits tail line0 /\
    v = (if bool_decide (int digits ≠ 99) then int digits else -1).

(** The answers to the first commands of [connect] let it go on: each one
    [succeeds], but for the fifth, the answer to AT+WIND=0, which is not
    parsed for errors and only has to be there. *)
Definition bringup_answers (rs : list response) : Prop :=
  forall i r, rs !! i = Some r ->
    if bool_decide (i = 4%nat) then answers r else succeeds r.

(** What a pattern captures between two double quotes with [[^Q]+]: a
    text that is not empty and holds no double quote. *)
Definition quoted_field (s : string) : Prop :=
  s <> EmptyString /\ all_in (not_char dquote) s.

(** The header lines
    [+CMGR:<blanks>Q<status>Q,Q<number>Q,<alpha>,Q<time>Q], with [Q] the
    double quote. *)
Definition cmgr_header (blanks status number alpha time nl line : string) : Prop :=
  all_in is_space blanks /\ quoted_field status /\ quoted_field number /\
  all_in (not_char ",") alpha /\ quoted_field time /\ eol_tail nl /\
  line = "+CMGR:" +:+ blanks +:+ quoted status +:+ "," +:+ quoted number +:+ ","
         +:+ alpha +:+ "," +:+ quoted time +:+ nl.

(** The caller-ID lines
    [+CLIP:<blanks>Q<plus><digits>Q,<ton>,<f1>,<f2>,<tail>], with [Q] the
    double quote and [plus] an optional plus sign. *)
Definition clip_line (blanks plus digits ton f1 f2 tail line : string) : Prop :=
  all_in is_space blanks /\ (plus = EmptyString \/ plus = "+") /\
  is_digits digits /\ is_digits ton /\
  all_in (not_char ",") f1 /\ all_in (not_char ",") f2 /\
  line = "+CLIP:" +:+ blanks +:+ quoted (plus +:+ digits) +:+ "," +:+ ton +:+ ","
         +:+ f1 +:+ "," +:+ f2 +:+ "," +:+ tail.

(** The operation leaves the public [activeCalls] as it is and does not
    create the attribute [_activeCalls] where it is absent. *)
Definition keeps_registries {A} (c : M A) : Prop :=
  forall w,
    activeCalls (modem (c w).2) = activeCalls (modem w) /\
    (_activeCalls (modem w) = None -> _activeCalls (modem (c w).2) = None).

(** ** Strings and lists of characters *)

Section StringFacts.

Lemma chars_app (a b : string) : chars (a +:+ b) = chars a ++ chars b.
Proof. induction a as [|c a IH]; simpl; [done | by rewrite IH]. Qed.

Lemma str_app (l1 l2 : list ascii) : str (l1 ++ l2) = str l1 +:+ str l2.
Proof. induction l1 as [|c l1 IH]; simpl; [done | by rewrite IH]. Qed.

Lemma length_chars (s : string) : length (chars s) = String.length s.
Proof. induction s as [|c s IH]; simpl; [done | by rewrite IH]. Qed.

Lemma str_chars (s : string) : str (chars s) = s.
Proof. apply string_of_list_ascii_of_string. Qed.

Lemma chars_str (l : list ascii) : chars (str l) = l.
Proof. apply list_ascii_of_string_of_list_ascii. Qed.

Lemma chars_inj (a b : string) : chars a = chars b -> a = b.
Proof. intros H. rewrite <- (str_chars a), <- (str_chars b). by rewrite H. Qed.

Lemma strip_prefix_app (p s : list ascii) : strip_prefix p (p ++ s) = Some s.
Proof.
  induction p as [|c p IH]; simpl; [done |].
  by rewrite Ascii.eqb_refl.
Qed.

Lemma strip_prefix_Some (p s s' : list ascii) :
  strip_prefix p s = Some s' -> s = p ++ s'.
Proof.
  revert s. induction p as [|c p IH]; intros [|d s]; simpl; try congruence.
  destruct (Ascii.eqb_spec c d) as [->|]; [|done].
  intros H. by rewrite (IH _ H).
Qed.

Lemma take_run {A} (pos : nat) (run rest : list A) :
  take (pos + length run - pos) (run ++ rest) = run.
Proof.
  replace (pos + length run - pos)%nat with (length run) by lia.
  by rewrite take_app_length.
Qed.

Lemma take_run_eq {A} (n : nat) (run rest : list A) :
  n = length run -> take n (run ++ rest) = run.
Proof. intros ->. by rewrite take_app_length. Qed.

End StringFacts.

(** ** Greedy repetition *)

Section Repetition.

Variable cls : ascii -> bool.

(** When what follows the repetition cannot start with a character of the
    class, the only split that can succeed is the longest one. *)
Lemma rep_forced (run : list ascii) :
  forall lo pos rest cs k,
    Forall (fun c => cls c = true) run -> stops cls rest -> rejects cls k ->
    rep cls lo None pos (run ++ rest) cs k
    = if (lo <=? length run)%nat then k (pos + length run)%nat rest cs else None.
Proof.
  induction run as [|c run IH]; intros lo pos rest cs k Hrun Hstop Hk.
  - simpl. rewrite Nat.add_0_r.
    destruct rest as [|d rest]; simpl in *.
    + by destruct lo.
    + rewrite Hstop. by destruct lo.
  - inversion Hrun as [|? ? Hc Hrun']; subst.
    cbn [app rep]. rewrite Hc. cbn [bool_decide andb negb fmap option_fmap option_map].
    rewrite (IH _ _ _ _ _ Hrun' Hstop Hk).
    replace (S pos + length run)%nat with (pos + length (c :: run))%nat by (simpl; lia).
    destruct lo as [|lo]; simpl Nat.pred; cbn [length].
    + simpl. destruct (k (pos + S (length run))%nat rest cs); [done |].
      by apply Hk.
    + change (S lo <=? S (length run))%nat with (lo <=? length run)%nat.
      by destruct (lo <=? length run)%nat, (k (pos + S (length run))%nat rest cs).
Qed.

(** Whatever the bounds, a success comes from some split of the text into
    a run of the class and the rest, on which the continuation succeeded. *)
Lemma rep_sound (s : list ascii) :
  forall lo hi pos cs k r,
    rep cls lo hi pos s cs k = Some r ->
    exists run rest,
      s = run ++ rest /\ Forall (fun c => cls c = true) run /\
      (lo <= length run)%nat /\ k (pos + length run)%nat rest cs = Some r.
Proof.
  induction s as [|c s IH]; intros lo hi pos cs k r H.
  - simpl in H. destruct lo; [|done].
    exists [], []. simpl. rewrite Nat.add_0_r. repeat split; auto with lia.
  - cbn [rep] in H.
    assert (Hstop : match lo with O => k pos (c :: s) cs | S _ => None end = Some r ->
                    exists run rest, c :: s = run ++ rest /\
                      Forall (fun c => cls c = true) run /\
                      (lo <= length run)%nat /\ k (pos + length run)%nat rest cs = Some r).
    { destruct lo; [|done]. intros Hk. exists [], (c :: s). simpl.
      rewrite Nat.add_0_r. repeat split; auto with lia. }
    destruct (cls c && negb (bool_decide (hi = Some 0%nat))) eqn:Hc; [|by apply Hstop].
    destruct (rep cls (Nat.pred lo) (Nat.pred <$> hi) (S pos) s cs k) as [r'|] eqn:Hrec;
      [|by apply Hstop].
    apply IH in Hrec as (run & rest & -> & Hrun & Hlo & Hk).
    apply andb_true_iff in Hc as [Hc _].
    exists (c :: run), rest. simpl. repeat split; auto with lia.
    replace (pos + S (length run))%nat with (S pos + length run)%nat by lia.
    congruence.
Qed.

End Repetition.


(** ** Stepping the matcher on a text of known shape *)

Section Exec.

Lemma exec_Cat r1 r2 pos s cs k :
  exec (Cat r1 r2) pos s cs k
  = exec r1 pos s cs (fun pos' s' cs' => exec r2 pos' s' cs' k).
Proof. reflexivity. Qed.

Lemma exec_Grp n r pos s cs k :
  exec (Grp n r) pos s cs k
  = exec r pos s cs (fun pos' s' cs' => k pos' s' ((n, take (pos' - pos) s) :: cs')).
Proof. reflexivity. Qed.

Lemma exec_Alt r1 r2 pos s cs k :
  exec (Alt r1 r2) pos s cs k
  = match exec r1 pos s cs k with Some m => Some m | None => exec r2 pos s cs k end.
Proof. reflexivity. Qed.

Lemma exec_Bol s cs k : exec Bol 0 s cs k = k 0%nat s cs.
Proof. reflexivity. Qed.

Lemma exec_Rep cls lo hi pos s cs k :
  exec (Rep cls lo hi) pos s cs k = rep cls lo hi pos s cs k.
Proof. reflexivity. Qed.

Lemma exec_Lit l pos s cs k :
  exec (Lit l) pos (chars l ++ s) cs k = k (pos + String.length l)%nat s cs.
Proof. cbn [exec]. by rewrite strip_prefix_app. Qed.

Lemma exec_Lit_eval l pos s s' cs k :
  strip_prefix (chars l) s = Some s' ->
  exec (Lit l) pos s cs k = k (pos + String.length l)%nat s' cs.
Proof. intros H. cbn [exec]. by rewrite H. Qed.

Lemma exec_Lit_fail l pos s cs k :
  strip_prefix (chars l) s = None -> exec (Lit l) pos s cs k = None.
Proof. intros H. cbn [exec]. by rewrite H. Qed.

Lemma exec_Cls cls pos c s cs k :
  exec (Cls cls) pos (c :: s) cs k = if cls c then k (S pos) s cs else None.
Proof. reflexivity. Qed.

Lemma exec_Cls_eval cls pos s c s' cs k :
  s = c :: s' -> cls c = true ->
  exec (Cls cls) pos s cs k = k (S pos) s' cs.
Proof. intros -> H. cbn [exec]. by rewrite H. Qed.

Lemma exec_Cls_fail cls pos s c s' cs k :
  s = c :: s' -> cls c = false -> exec (Cls cls) pos s cs k = None.
Proof. intros -> H. cbn [exec]. by rewrite H. Qed.

Lemma exec_Eol_nil pos cs k : exec Eol pos [] cs k = k pos [] cs.
Proof. reflexivity. Qed.

Lemma exec_Eol_LF pos cs k : exec Eol pos [LF] cs k = k pos [LF] cs.
Proof. reflexivity. Qed.

Lemma rejecting_Lit cls d l :
  disjoint cls (Ascii.eqb d) -> rejecting cls (Lit (String d l)).
Proof. intros H p c s cs k Hc. cbn. by rewrite (H c Hc). Qed.

Lemma rejecting_Cls cls cls' : disjoint cls cls' -> rejecting cls (Cls cls').
Proof. intros H p c s cs k Hc. cbn. by rewrite (H c Hc). Qed.

Lemma rejecting_Rep cls cls' lo hi :
  disjoint cls cls' -> rejecting cls (Rep cls' (S lo) hi).
Proof. intros H p c s cs k Hc. cbn. by rewrite (H c Hc). Qed.

Lemma rejecting_Eol cls : disjoint cls (Ascii.eqb LF) -> rejecting cls Eol.
Proof.
  intros H p c s cs k Hc. cbn. destruct s; [|done].
  rewrite Ascii.eqb_sym. by rewrite (H c Hc).
Qed.

Lemma rejecting_Cat cls r1 r2 : rejecting cls r1 -> rejecting cls (Cat r1 r2).
Proof. intros H p c s cs k Hc. cbn. by apply H. Qed.

Lemma rejecting_Grp cls n r : rejecting cls r -> rejecting cls (Grp n r).
Proof. intros H p c s cs k Hc. cbn. by apply H. Qed.

Lemma rejecting_Alt cls r1 r2 :
  rejecting cls r1 -> rejecting cls r2 -> rejecting cls (Alt r1 r2).
Proof. intros H1 H2 p c s cs k Hc. cbn. rewrite (H1 _ _ _ _ _ Hc). by apply H2. Qed.

End Exec.

Ltac by_cases_on_char :=
  let c := fresh "c" in
  intros c; destruct c as [[] [] [] [] [] [] [] []]; vm_compute; congruence.

Lemma space_digit : disjoint is_space is_digit.
Proof. by_cases_on_char. Qed.
Lemma space_dquote : disjoint is_space (is_char dquote).
Proof. by_cases_on_char. Qed.
Lemma digit_dquote : disjoint is_digit (is_char dquote).
Proof. by_cases_on_char. Qed.
Lemma digit_comma : disjoint is_digit (Ascii.eqb ",").
Proof. by_cases_on_char. Qed.
Lemma digit_LF : disjoint is_digit (Ascii.eqb LF).
Proof. by_cases_on_char. Qed.
Lemma dot_LF : disjoint dot (Ascii.eqb LF).
Proof. by_cases_on_char. Qed.
Lemma not_comma_comma : disjoint (not_char ",") (Ascii.eqb ",").
Proof. by_cases_on_char. Qed.
Lemma not_dquote_dquote : disjoint (not_char dquote) (is_char dquote).
Proof. by_cases_on_char. Qed.
Lemma plus_digit : disjoint (is_char "+") is_digit.
Proof. by_cases_on_char. Qed.
Lemma digit_space : disjoint is_digit is_space.
Proof. by_cases_on_char. Qed.
Lemma digit_plus : disjoint is_digit (is_char "+").
Proof. by_cases_on_char. Qed.
Lemma dquote_space : disjoint (is_char dquote) is_space.
Proof. by_cases_on_char. Qed.

Create HintDb re discriminated.
#[local] Hint Resolve rejecting_Lit rejecting_Cls rejecting_Rep rejecting_Eol
  rejecting_Cat rejecting_Grp rejecting_Alt : re.
#[local] Hint Resolve space_digit space_dquote digit_dquote digit_comma digit_LF
  dot_LF not_comma_comma not_dquote_dquote plus_digit digit_space dquote_space digit_plus : re.

Lemma nonempty_length (s : string) : s <> EmptyString -> (1 <=? length (chars s))%nat = true.
Proof. by destruct s. Qed.

Lemma stops_run (cls cls' : ascii -> bool) (run : string) (rest : list ascii) :
  disjoint cls' cls -> Forall (fun c => cls' c = true) (chars run) ->
  run <> EmptyString -> stops cls (chars run ++ rest).
Proof.
  intros Hd Hrun Hne. destruct run as [|c run]; [done |].
  inversion Hrun; subst. cbn. by apply Hd.
Qed.

Ltac solve_rejects :=
  let Hc := fresh "Hc" in
  intros ? ? ? ? Hc; cbv beta;
  lazymatch goal with
  | |- exec ?r _ (?c :: _) _ _ = None =>
      lazymatch type of Hc with
      | ?cls c = true =>
          cut (rejecting cls r);
          [ let H := fresh in intros H; exact (H _ _ _ _ _ Hc)
          | eauto 10 with re ]
      end
  end.

(** One greedy repetition whose follower cannot start inside the class. *)
Ltac rep_step :=
  rewrite ?exec_Grp; rewrite exec_Rep;
  rewrite rep_forced;
  [ cbv beta; rewrite ?nonempty_length by assumption; cbn [Nat.leb]
  | assumption
  | first [ done | eapply stops_run; [ | eassumption | assumption ]; solve [eauto with re] ]
  | solve_rejects ].

Ltac re_step :=
  first [ rewrite exec_Cat | rewrite exec_Bol | rewrite exec_Lit
        | erewrite exec_Lit_eval by reflexivity
        | erewrite exec_Cls_eval by reflexivity
        | rewrite exec_Eol_nil | rewrite exec_Eol_LF ];
  cbv beta.

(** ** Reading a successful match backwards *)

Section Inversion.

Lemma exec_Lit_inv l pos s cs k r :
  exec (Lit l) pos s cs k = Some r ->
  exists s', s = chars l ++ s' /\ k (pos + String.length l)%nat s' cs = Some r.
Proof.
  cbn [exec]. destruct (strip_prefix (chars l) s) as [s'|] eqn:H; [|done].
  intros Hk. exists s'. split; [by apply strip_prefix_Some | done].
Qed.

Lemma exec_Cls_inv cls pos s cs k r :
  exec (Cls cls) pos s cs k = Some r ->
  exists c s', s = c :: s' /\ cls c = true /\ k (S pos) s' cs = Some r.
Proof.
  cbn [exec]. destruct s as [|c s']; [done |].
  destruct (cls c) eqn:Hc; [|done]. intros Hk. by exists c, s'.
Qed.

Lemma exec_Eol_inv pos s cs k r :
  exec Eol pos s cs k = Some r ->
  (s = [] \/ s = [LF]) /\ k pos s cs = Some r.
Proof.
  cbn [exec]. destruct s as [|c [|d s']]; [by auto | | done].
  destruct (Ascii.eqb_spec c LF) as [->|]; [by auto | done].
Qed.

End Inversion.

(** ** The CME/CMS error pattern *)

Lemma E_or_S c :
  (is_char "E" c || is_char "S" c)%bool = true -> c = "E"%char \/ c = "S"%char.
Proof.
  unfold is_char. intros [H|H]%orb_true_iff; apply Ascii.eqb_eq in H; auto.
Qed.

Lemma CM_ERROR_complete kind digits line :
  cm_error_line kind digits line ->
  exists m, re_match CM_ERROR_REGEX line = Some m /\
            group 1 m = Some kind /\ group 2 m = Some digits.
Proof.
  intros (Hk & [Hne Hds] & nl & Hnl & ->). unfold re_match, CM_ERROR_REGEX.
  rewrite !chars_app.
  destruct Hk as [-> | ->], Hnl as [-> | ->];
    repeat re_step; rewrite exec_Grp; repeat re_step; rep_step; repeat re_step;
    (eexists; split; [reflexivity |]);
    cbn [group Nat.eqb]; rewrite take_run, str_chars; done.
Qed.

Ltac inv_step H :=
  cbv beta in H;
  repeat (progress (rewrite ?exec_Cat, ?exec_Grp, ?exec_Bol in H; cbv beta in H)).

Lemma CM_ERROR_sound line m :
  re_match CM_ERROR_REGEX line = Some m ->
  exists kind digits,
    cm_error_line kind digits line /\
    group 1 m = Some kind /\ group 2 m = Some digits.
Proof.
  unfold re_match, CM_ERROR_REGEX. intros H. inv_step H.
  apply exec_Lit_inv in H as (s1 & Hs & H). inv_step H.
  apply exec_Lit_inv in H as (s2 & -> & H). inv_step H.
  apply exec_Cls_inv in H as (c & s3 & -> & Hc & H). inv_step H.
  apply exec_Lit_inv in H as (s4 & -> & H). inv_step H.
  rewrite exec_Rep in H.
  apply rep_sound in H as (run & rest & -> & Hrun & Hlo & H). inv_step H.
  apply exec_Eol_inv in H as [Hrest H]. injection H as <-.
  exists (str ("C" :: "M" :: [c]))%char, (str run). split; [|split].
  - split; [|split].
    + destruct (E_or_S _ Hc) as [-> | ->]; auto.
    + split.
      * destruct run; [simpl in Hlo; lia | done].
      * unfold all_in. by rewrite chars_str.
    + exists (str rest). split.
      * destruct Hrest as [-> | ->]; [by left | by right].
      * apply chars_inj. rewrite Hs, !chars_app, !chars_str. done.
  - cbn. done.
  - cbn [group Nat.eqb]. by rewrite take_run_eq by lia.
Qed.

(** ** The signal-strength pattern *)

Lemma CSQ_complete ws ds tl line :
  csq_line ws ds tl line ->
  exists m, re_match CSQ_REGEX line = Some m /\ group 1 m = Some ds.
Proof.
  intros (Hws & [Hne Hds] & ->). unfold re_match, CSQ_REGEX.
  rewrite !chars_app. repeat re_step. rep_step. repeat re_step. rep_step.
  repeat re_step. eexists; split; [reflexivity |].
  cbn [group Nat.eqb]. by rewrite take_run, str_chars.
Qed.

Lemma CSQ_sound line m :
  re_match CSQ_REGEX line = Some m -> exists ws ds tl, csq_line ws ds tl line.
Proof.
  unfold re_match, CSQ_REGEX. intros H. inv_step H.
  apply exec_Lit_inv in H as (s1 & Hs & H). inv_step H.
  rewrite exec_Rep in H.
  apply rep_sound in H as (ws & s2 & -> & Hws & _ & H). inv_step H.
  rewrite exec_Rep in H.
  apply rep_sound in H as (ds & s3 & -> & Hds & Hlo & H). inv_step H.
  apply exec_Lit_inv in H as (tl & -> & _).
  exists (str ws), (str ds), (str tl). split; [|split; [split|]].
  - unfold all_in. by rewrite chars_str.
  - destruct ds; [simpl in Hlo; lia | done].
  - unfold all_in. by rewrite chars_str.
  - apply chars_inj. by rewrite Hs, !chars_app, !chars_str.
Qed.

(** ** The command channel *)

Section CommandChannel.

Lemma bind_Return {A B} (c : M A) (k : A -> M B) w a w' :
  c w = (Return a, w') -> bind c k w = k a w'.
Proof. unfold bind. by intros ->. Qed.

Lemma bind_Raise {A B} (c : M A) (k : A -> M B) w e w' :
  c w = (Raise e, w') -> bind c k w = (Raise e, w').
Proof. unfold bind. by intros ->. Qed.

Lemma bind_get_modem {B} (k : GsmModem -> M B) w :
  bind get_modem k w = k (modem w) w.
Proof. reflexivity. Qed.

Lemma bind_put_modem {B} m (k : unit -> M B) w :
  bind (put_modem m) k w = k tt (with_modem m w).
Proof. reflexivity. Qed.

Lemma bind_emit {B} e (k : unit -> M B) w :
  bind (emit e) k w = k tt (with_trace (trace w ++ [e]) w).
Proof. reflexivity. Qed.

Lemma bind_ret {A B} (a : A) (k : A -> M B) w : bind (ret a) k w = k a w.
Proof. reflexivity. Qed.

Lemma bind_assoc {A B C} (c : M A) (f : A -> M B) (k : B -> M C) w :
  bind (bind c f) k w = bind c (fun a => bind (f a) k) w.
Proof. unfold bind. by destruct (c w) as [[a|e] w']. Qed.

Lemma bind_try {A B C} (body : M A) (h : exn -> M B) (e : A -> M B) (k : B -> M C) w :
  bind (try_except_CommandError body h e) k w
  = try_except_CommandError body (fun x => bind (h x) k) (fun a => bind (e a) k) w.
Proof.
  unfold bind, try_except_CommandError.
  by destruct (body w) as [[a|[]] w'].
Qed.

Lemma try_Raise {A B} (body : M A) (h : exn -> M B) (e : A -> M B) w ty co w' :
  body w = (Raise (CommandError ty co), w') ->
  try_except_CommandError body h e w = h (CommandError ty co) w'.
Proof. unfold try_except_CommandError. by intros ->. Qed.

Lemma try_Return {A B} (body : M A) (h : exn -> M B) (e : A -> M B) w a w' :
  body w = (Return a, w') ->
  try_except_CommandError body h e w = e a w'.
Proof. unfold try_except_CommandError. by intros ->. Qed.

(** [write] on a command that waits, by cases on the modem's answer. *)
Lemma write_cases data timeout parseError term w :
  write data true timeout parseError term w =
  match script w with
  | Lines ls :: rest =>
      let w' := sent (data +:+ term) rest w in
      match last ls with
      | None => (Raise IndexError, w')
      | Some cmdStatusLine =>
          if parseError && str_in "ERROR" cmdStatusLine
          then (Raise (status_error cmdStatusLine), w')
          else (Return (Some ls), w')
      end
  | NoResponse :: rest => (Raise TimeoutException, sent (data +:+ term) rest w)
  | [] => (Raise TimeoutException, sent (data +:+ term) [] w)
  end.
Proof.
  unfold write, bind, SerialComms_write, status_error, sent, raise, ret.
  destruct w as [m h t [|[ls|] rest]]; cbn [script trace modem heap with_trace with_script];
    try reflexivity.
  destruct (last ls) as [st|]; [|reflexivity].
  destruct (parseError && str_in "ERROR" st); [|reflexivity].
  destruct (re_match CM_ERROR_REGEX st) as [m'|]; [|reflexivity].
  by destruct (group 2 m').
Qed.

Lemma write_Return data timeout parseError term w ls st rest :
  script w = Lines ls :: rest -> last ls = Some st ->
  parseError && str_in "ERROR" st = false ->
  write data true timeout parseError term w
  = (Return (Some ls), sent (data +:+ term) rest w).
Proof. intros Hs Hl He. by rewrite write_cases, Hs, Hl, He. Qed.

Lemma write_Raise data timeout term w ls st rest :
  script w = Lines ls :: rest -> last ls = Some st ->
  str_in "ERROR" st = true ->
  write data true timeout true term w
  = (Raise (status_error st), sent (data +:+ term) rest w).
Proof. intros Hs Hl He. by rewrite write_cases, Hs, Hl, He. Qed.

(** The status line of an error answer always yields a [CommandError]. *)
Lemma status_error_CommandError st :
  exists errorType errorCode, status_error st = CommandError errorType errorCode.
Proof.
  unfold status_error. destruct (re_match CM_ERROR_REGEX st) as [m|] eqn:Hm; [|by eauto].
  apply CM_ERROR_sound in Hm as (kind & digits & _ & _ & ->). by eauto.
Qed.

Lemma status_error_structured kind digits st :
  cm_error_line kind digits st ->
  status_error st = CommandError (Some kind) (Some (int digits)).
Proof.
  intros (m & Hm & H1 & H2)%CM_ERROR_complete.
  unfold status_error. by rewrite Hm, H2, H1.
Qed.

Lemma status_error_generic st :
  (forall kind digits, ~ cm_error_line kind digits st) ->
  status_error st = CommandError None None.
Proof.
  intros Hno. unfold status_error.
  destruct (re_match CM_ERROR_REGEX st) as [m|] eqn:Hm; [|done].
  apply CM_ERROR_sound in Hm as (kind & digits & Hl & _). by destruct (Hno kind digits).
Qed.

(** Whatever the modem answers, a command that waits adds exactly its
    bytes to the trace. *)
Lemma write__trace data w :
  trace (snd (write_ data w)) = trace w ++ [wrote data].
Proof.
  unfold write_. rewrite write_cases.
  destruct (script w) as [|[ls|] rest]; [done | | done].
  cbv zeta. destruct (last ls) as [st|]; [|done].
  by destruct (true && str_in "ERROR" st).
Qed.

Lemma bind_discard_trace {A} (c : M A) w :
  trace (snd ((c ;; ret tt) w)) = trace (snd (c w)).
Proof. unfold bind, ret. by destruct (c w) as [[a|e] w']. Qed.

Lemma try_Raise_other {A B} (body : M A) (h : exn -> M B) (e : A -> M B) w x w' :
  body w = (Raise x, w') -> (forall ty co, x <> CommandError ty co) ->
  try_except_CommandError body h e w = (Raise x, w').
Proof.
  unfold try_except_CommandError. intros -> Hx.
  destruct x as [ty co| | | | | | |]; try done. by destruct (Hx ty co).
Qed.

End CommandChannel.

(** C1: a command sent with waitForResponse and parseError whose final
    response line contains ERROR fails with CommandError(kind, code) when
    that line is +CME ERROR: digits or +CMS ERROR: digits, the kind being
    CME or CMS and the code the integer the digits spell, and fails with
    the generic CommandError() when the line has no such payload; with
    parseError off the same lines are returned unchanged and nothing is
    raised. *)
Theorem write_error_classification :
  forall (data : string) (timeout : Z) (writeTerm : string) (w : World)
         (before : list string) (statusLine : string) (rest : list response),
    script w = Lines (before ++ [statusLine]) :: rest ->
    str_in "ERROR" statusLine = true ->
    let w' := sent (data +:+ writeTerm) rest w in
    (forall kind digits,
        cm_error_line kind digits statusLine ->
        (kind = "CME" \/ kind = "CMS") /\
        write data true timeout true writeTerm w
        = (Raise (CommandError (Some kind) (Some (int digits))), w'))
    /\ ((forall kind digits, ~ cm_error_line kind digits statusLine) ->
        write data true timeout true writeTerm w
        = (Raise (CommandError None None), w'))
    /\ write data true timeout false writeTerm w
       = (Return (Some (before ++ [statusLine])), w').
Proof.
  intros data timeout writeTerm w before statusLine rest Hs He w'.
  assert (Hl : last (before ++ [statusLine]) = Some statusLine) by apply last_snoc.
  split; [|split].
  - intros kind digits Hline. split; [apply Hline |].
    rewrite (write_Raise _ _ _ _ _ _ _ Hs Hl He).
    by rewrite (status_error_structured _ _ _ Hline).
  - intros Hno. rewrite (write_Raise _ _ _ _ _ _ _ Hs Hl He).
    by rewrite (status_error_generic _ Hno).
  - by rewrite (write_Return _ _ _ _ _ _ _ _ Hs Hl).
Qed.

Lemma write_error_classification_witness :
  write "AT+CMGF=1" true 5 true CR
    (mkWorld (mkGsmModem false false ∅ None) [] [] [Lines ["+CMS ERROR: 302"]])
  = (Raise (CommandError (Some "CMS") (Some 302)),
     mkWorld (mkGsmModem false false ∅ None) [] [Written ("AT+CMGF=1" +:+ CR)] []).
Proof.
  refine (proj2 (proj1 (write_error_classification "AT+CMGF=1" 5 CR
            (mkWorld (mkGsmModem false false ∅ None) [] [] [Lines ["+CMS ERROR: 302"]])
            [] "+CMS ERROR: 302" [] eq_refl eq_refl) "CMS" "302" _)).
  split; [by right |]. split.
  - split; [done |]. repeat constructor.
  - exists EmptyString. split; [by left | reflexivity].
Defined.

(** C6: signalStrength sends AT+CSQ and reads the first response line
    against +CSQ: digits-comma: the value 99 is returned as -1, a value from
    0 to 31 is returned unchanged, and a first line that is not of this
    shape makes it fail with the generic CommandError(). *)
Theorem signalStrength_spec :
  forall (w : World) (line0 : string) (more : list string) (st : string)
         (rest : list response),
    script w = Lines (line0 :: more) :: rest ->
    last (line0 :: more) = Some st ->
    str_in "ERROR" st = false ->
    let w' := sent ("AT+CSQ" +:+ CR) rest w in
    (forall blanks digits tail,
        csq_line blanks digits tail line0 ->
        (int digits = 99 -> signalStrength w = (Return (-1), w')) /\
        (0 <= int digits <= 31 -> signalStrength w = (Return (int digits), w')))
    /\ ((forall blanks digits tail, ~ csq_line blanks digits tail line0) ->
        signalStrength w = (Raise (CommandError None None), w')).
Proof.
  intros w line0 more st rest Hs Hl He w'.
  assert (Hw : write_ "AT+CSQ" w = (Return (Some (line0 :: more)), w')).
  { apply (write_Return _ _ _ _ _ _ _ _ Hs Hl). by rewrite He. }
  unfold signalStrength. rewrite (bind_Return _ _ _ _ _ Hw). split.
  - intros ws ds tl (m & Hm & Hg)%CSQ_complete. rewrite Hm, Hg. unfold ret.
    split; intros Hv.
    + rewrite Hv. reflexivity.
    + rewrite bool_decide_eq_true_2; [done | lia].
  - intros Hno. destruct (re_match CSQ_REGEX line0) as [m|] eqn:Hm; [|done].
    apply CSQ_sound in Hm as (ws & ds & tl & Hline). by destruct (Hno ws ds tl).
Qed.

Lemma signalStrength_spec_witness :
  signalStrength
    (mkWorld (mkGsmModem false false ∅ None) [] [] [Lines ["+CSQ: 21,99"; "OK"]])
  = (Return 21,
     mkWorld (mkGsmModem false false ∅ None) [] [Written ("AT+CSQ" +:+ CR)] []).
Proof.
  refine (proj2 (proj1 (signalStrength_spec
            (mkWorld (mkGsmModem false false ∅ None) [] [] [Lines ["+CSQ: 21,99"; "OK"]])
            "+CSQ: 21,99" ["OK"] "OK" [] eq_refl eq_refl eq_refl) " " "21" "99" _) _).
  - split; [|split; [split|]]; [repeat constructor | done | repeat constructor | reflexivity].
  - vm_compute. split; discriminate.
Defined.

(** ** Connection bring-up *)

Section BringUp.

Lemma write__succeeds data w r rest :
  script w = r :: rest -> succeeds r ->
  exists ls, write_ data w = (Return (Some ls), sent (data +:+ CR) rest w).
Proof.
  intros Hs (ls & st & -> & Hl & He). exists ls.
  apply (write_Return _ _ _ _ _ _ _ _ Hs Hl). by rewrite He.
Qed.

Lemma write__fails data w r rest :
  script w = r :: rest -> fails r ->
  exists errorType errorCode,
    write_ data w
    = (Raise (CommandError errorType errorCode), sent (data +:+ CR) rest w).
Proof.
  intros Hs (ls & st & -> & Hl & He).
  destruct (status_error_CommandError st) as (ty & co & Hst).
  exists ty, co. unfold write_.
  by rewrite (write_Raise _ _ _ _ _ _ _ Hs Hl He), Hst.
Qed.

Lemma write_answers data w r rest :
  script w = r :: rest -> answers r ->
  exists ls, write data true 5 false CR w = (Return (Some ls), sent (data +:+ CR) rest w).
Proof.
  intros Hs (ls & st & -> & Hl). exists ls.
  by apply (write_Return _ _ _ _ _ _ _ _ Hs Hl).
Qed.

Lemma OK_succeeds : succeeds (Lines ["OK"]).
Proof. exists ["OK"], "OK". by vm_compute. Qed.

Lemma succeeds_answers r : succeeds r -> answers r.
Proof. intros (ls & st & -> & Hl & _). by exists ls, st. Qed.

End BringUp.

Ltac norm_world :=
  cbn [sent with_modem with_heap with_trace with_script modem heap trace script
       _callingLineIdentification _extendedIncomingCallIndication activeCalls
       _activeCalls].

Ltac step_ok H :=
  match goal with
  | |- context [bind (write_ ?d) ?k ?w] =>
      let ls := fresh "ls" in let E := fresh "E" in
      destruct (write__succeeds d w _ _ eq_refl H) as [ls E];
      rewrite (bind_Return _ _ _ _ _ E); clear E ls; norm_world
  end.

Ltac step_answers H :=
  match goal with
  | |- context [bind (write ?d true 5 false CR) ?k ?w] =>
      let ls := fresh "ls" in let E := fresh "E" in
      destruct (write_answers d w _ _ eq_refl H) as [ls E];
      rewrite (bind_Return _ _ _ _ _ E); clear E ls; norm_world
  end.

Ltac try_ok H :=
  match goal with
  | |- context [try_except_CommandError (write_ ?d) ?h ?e ?w] =>
      let ls := fresh "ls" in let E := fresh "E" in
      destruct (write__succeeds d w _ _ eq_refl H) as [ls E];
      rewrite (try_Return _ h e _ _ _ E); clear E; norm_world
  end.

Ltac try_fails H :=
  match goal with
  | |- context [try_except_CommandError (write_ ?d) ?h ?e ?w] =>
      let ty := fresh "type" in let co := fresh "code" in let E := fresh "E" in
      destruct (write__fails d w _ _ eq_refl H) as (ty & co & E);
      rewrite (try_Raise _ h e _ _ _ _ E); clear E; norm_world
  end.

Ltac step_modem :=
  unfold log;
  repeat (progress (rewrite ?bind_assoc, ?bind_get_modem, ?bind_put_modem, ?bind_emit,
                      ?bind_ret, ?bind_try; cbv beta));
  norm_world.

(** C7: during bring-up, when AT+CLIP=1 fails with a CommandError the
    calling-line-identification flag ends up disabled, AT+CRC=1 is never
    sent and connect returns without raising; AT+CRC=1 is sent when
    AT+CLIP=1 succeeded and in no other case, and its failure only disables
    the extended-indication flag, connect still returning.  The other
    commands of the sequence, which are fatal on error, are taken to
    succeed. *)
Theorem connect_optional_steps :
  forall (w : World) (r1 r2 r3 r4 r5 r6 r7 r8 r9 rclip : response)
         (tail : list response),
    script w = r1 :: r2 :: r3 :: r4 :: r5 :: r6 :: r7 :: r8 :: r9 :: rclip :: tail ->
    succeeds r1 -> succeeds r2 -> succeeds r3 -> succeeds r4 -> answers r5 ->
    succeeds r6 -> succeeds r7 -> succeeds r8 -> succeeds r9 ->
    (fails rclip ->
     forall rcvhu rest, tail = rcvhu :: rest -> succeeds rcvhu ->
       exists w' errorType errorCode,
         connect w = (Return tt, w') /\
         _callingLineIdentification (modem w') = false /\
         _extendedIncomingCallIndication (modem w')
         = _extendedIncomingCallIndication (modem w) /\
         trace w' = trace w ++ bringup_prefix ++
           [ wrote "AT+CLIP=1";
             Logged WARN CLIP_WARNING (Some (CommandError errorType errorCode));
             wrote "AT+CVHU=0" ] /\
         (wrote "AT+CRC=1" ∉ new_events w w') /\
         script w' = rest)
    /\
    (succeeds rclip ->
     forall rcrc rcvhu rest, tail = rcrc :: rcvhu :: rest -> succeeds rcvhu ->
       (fails rcrc ->
        exists w' errorType errorCode,
          connect w = (Return tt, w') /\
          _callingLineIdentification (modem w') = true /\
          _extendedIncomingCallIndication (modem w') = false /\
          trace w' = trace w ++ bringup_prefix ++
            [ wrote "AT+CLIP=1"; wrote "AT+CRC=1";
              Logged INFO CRC_INFO (Some (CommandError errorType errorCode));
              wrote "AT+CVHU=0" ] /\
          script w' = rest)
       /\
       (succeeds rcrc ->
        exists w',
          connect w = (Return tt, w') /\
          _callingLineIdentification (modem w') = true /\
          _extendedIncomingCallIndication (modem w') = true /\
          trace w' = trace w ++ bringup_prefix ++
            [ wrote "AT+CLIP=1"; wrote "AT+CRC=1"; wrote "AT+CVHU=0" ] /\
          script w' = rest))
    /\
    (~ succeeds rclip -> wrote "AT+CRC=1" ∉ new_events w (snd (connect w))).
Proof.
  intros w r1 r2 r3 r4 r5 r6 r7 r8 r9 rclip tail Hs H1 H2 H3 H4 H5 H6 H7 H8 H9.
  destruct w as [m h t s]. cbn [script] in Hs. subst s.
  unfold connect. step_modem.
  step_ok H1. step_ok H2. step_ok H3. step_ok H4. step_answers H5.
  step_ok H6. step_ok H7. step_ok H8. step_ok H9.
  split; [|split].
  - intros Hclip rcvhu rest -> Hcvhu.
    step_modem. try_fails Hclip. step_modem.
    step_ok Hcvhu. unfold ret.
    eexists _, _, _. split; [reflexivity |]. norm_world.
    split; [done |]. split; [done |]. split.
    { rewrite <- !app_assoc. reflexivity. }
    split; [|done].
    unfold new_events. norm_world. rewrite <- !app_assoc, drop_app_length.
    unfold wrote. cbn. rewrite !elem_of_cons, elem_of_nil.
    intros H. decompose [or] H; try discriminate; done.
  - intros Hclip rcrc rcvhu rest -> Hcvhu. split.
    + intros Hcrc.
      step_modem. try_ok Hclip. step_modem. try_fails Hcrc. step_modem.
      step_ok Hcvhu. unfold ret.
      eexists _, _, _. split; [reflexivity |]. norm_world.
      split; [done |]. split; [done |]. split; [|done].
      rewrite <- !app_assoc. reflexivity.
    + intros Hcrc.
      step_modem. try_ok Hclip. step_modem. try_ok Hcrc. step_modem.
      step_ok Hcvhu. unfold ret.
      eexists. split; [reflexivity |]. norm_world.
      split; [done |]. split; [done |]. split; [|done].
      rewrite <- !app_assoc. reflexivity.
  - intros Hclip. step_modem.
    assert (Hnot : forall extra,
              wrote "AT+CRC=1" ∉ extra ->
              wrote "AT+CRC=1"
              ∉ drop (length t)
                  (t ++ [Logged DEBUG "Connecting to modem on port {} at {}bps" None]
                     ++ [wrote "ATZ"] ++ [wrote "ATE0"] ++ [wrote "AT+CFUN=1"]
                     ++ [wrote "AT+CMEE=1"] ++ [wrote "AT+WIND=0"] ++ [wrote "AT+CMGF=1"]
                     ++ [wrote "AT+CSMP=49,167"]
                     ++ [wrote ("AT+CPMS=" +:+ quoted "SM" +:+ "," +:+ quoted "SM"
                                +:+ "," +:+ quoted "SR")]
                     ++ [wrote "AT+CNMI=2,1,0,2"] ++ [wrote "AT+CLIP=1"] ++ extra)).
    { intros extra Hextra. rewrite drop_app_length.
      unfold wrote in *. cbn. rewrite !elem_of_cons.
      intros H. decompose [or] H; try discriminate; done. }
    unfold new_events, try_except_CommandError.
    unfold write_ at 1. rewrite write_cases. norm_world.
    destruct rclip as [ls|].
    + destruct (last ls) as [st|] eqn:Hl; cbv zeta.
      * destruct (str_in "ERROR" st) eqn:He; cbn [andb].
        -- destruct (status_error_CommandError st) as (ty & co & ->).
           step_modem. rewrite bind_discard_trace, write__trace. norm_world.
           rewrite <- !app_assoc. apply (Hnot [_; _]).
           unfold wrote. rewrite !elem_of_cons, elem_of_nil.
           intros H. decompose [or] H; try discriminate; done.
        -- destruct Hclip. by exists ls, st.
      * cbn [snd]. norm_world. rewrite <- !app_assoc.
        apply (Hnot []). apply not_elem_of_nil.
    + cbn [snd]. norm_world. rewrite <- !app_assoc.
      apply (Hnot []). apply not_elem_of_nil.
Qed.

Lemma connect_optional_steps_witness :
  exists w',
    connect (mkWorld (mkGsmModem false false ∅ None) [] []
               (replicate 9 (Lines ["OK"]) ++ [Lines ["+CME ERROR: 3"]; Lines ["OK"]]))
    = (Return tt, w') /\
    _callingLineIdentification (modem w') = false /\ script w' = [].
Proof.
  destruct (proj1 (connect_optional_steps
              (mkWorld (mkGsmModem false false ∅ None) [] []
                 (replicate 9 (Lines ["OK"]) ++ [Lines ["+CME ERROR: 3"]; Lines ["OK"]]))
              (Lines ["OK"]) (Lines ["OK"]) (Lines ["OK"]) (Lines ["OK"]) (Lines ["OK"])
              (Lines ["OK"]) (Lines ["OK"]) (Lines ["OK"]) (Lines ["OK"])
              (Lines ["+CME ERROR: 3"]) [Lines ["OK"]] eq_refl
              OK_succeeds OK_succeeds OK_succeeds OK_succeeds
              (succeeds_answers _ OK_succeeds)
              OK_succeeds OK_succeeds OK_succeeds OK_succeeds)
            (ex_intro _ ["+CME ERROR: 3"]
               (ex_intro _ "+CME ERROR: 3" (conj eq_refl (conj eq_refl eq_refl))))
            (Lines ["OK"]) [] eq_refl OK_succeeds)
    as (w' & errorType & errorCode & Hrun & Hclip & _ & _ & _ & Hscript).
  exists w'. by repeat split.
Defined.

(** ** The SMS pipeline *)

Section SmsPipeline.

Lemma slice_1_m1_body {A} (hdr : A) (body : list A) (status : A) :
  slice_1_m1 (hdr :: body ++ [status]) = body.
Proof. unfold slice_1_m1. cbn [tail]. apply removelast_last. Qed.

(** A stored message is read with AT+CMGR; the text is the lines between
    the header and the status line, joined by line feeds. *)
Lemma readStoredSmsMessage_body msgIndex w hdr body status rest m :
  script w = Lines (hdr :: body ++ [status]) :: rest ->
  str_in "ERROR" status = false ->
  re_match CMGR_SM_DELIVER_REGEX hdr = Some m ->
  _readStoredSmsMessage msgIndex w
  = (Return (mkReceivedSms (group 1 m) (group 2 m) (group 3 m)
               (join (String LF EmptyString) body)),
     sent (("AT+CMGR=" +:+ format_arg msgIndex) +:+ CR) rest w).
Proof.
  intros Hs He Hm. unfold _readStoredSmsMessage, write_.
  assert (Hl : last (hdr :: body ++ [status]) = Some status).
  { rewrite app_comm_cons. apply last_snoc. }
  rewrite (bind_Return _ _ _ _ _
             (write_Return _ 5 true CR _ _ _ _ Hs Hl ltac:(by rewrite He))).
  rewrite Hm. unfold ret. by rewrite slice_1_m1_body.
Qed.

Lemma CMTI_SM_4_classified :
  str_in "RING" CMTI_SM_4 = false /\ startswith CMTI_SM_4 "+CMTI" = true.
Proof. by vm_compute. Qed.

Lemma CMTI_SM_4_index :
  exists m, re_match CMTI_REGEX CMTI_SM_4 = Some m /\ group 2 m = Some "4".
Proof. eexists. split; vm_compute; reflexivity. Qed.

Lemma CMGR_HEADER_fields :
  exists m, re_match CMGR_SM_DELIVER_REGEX CMGR_HEADER = Some m /\
            group 1 m = Some "REC UNREAD" /\ group 2 m = Some "+12025550123" /\
            group 3 m = Some "23/01/01,12:00:00+02".
Proof. eexists. repeat split; vm_compute; reflexivity. Qed.

End SmsPipeline.

(** C2: for the notification +CMTI: "SM",4 the handler reads index 4;
    given the header +CMGR: "REC UNREAD","+12025550123",,"23/01/01,12:00:00+02",
    the body line Hello and the status line OK it builds the ReceivedSms
    with those four fields, the text of a message being the returned lines
    without the header and the status line, joined by line feeds; the
    delete command for index 4 goes out before the callback is invoked
    with that message, and when the delete does not succeed the callback is
    not invoked at all. *)
Theorem sms_received_scenario :
  forall (w : World) (rdel : response) (rest : list response),
    script w = Lines [CMGR_HEADER; "Hello"; "OK"] :: rdel :: rest ->
    (succeeds rdel ->
       __threadedHandleModemNotification [CMTI_SM_4] w
       = (Return tt,
          mkWorld (modem w) (heap w)
            (trace w ++ [wrote "AT+CMGR=4"; wrote "AT+CMGD=4";
                         SmsReceivedCallback HELLO_SMS])
            rest))
    /\ (~ succeeds rdel ->
        exists e w',
          __threadedHandleModemNotification [CMTI_SM_4] w = (Raise e, w') /\
          trace w' = trace w ++ [wrote "AT+CMGR=4"; wrote "AT+CMGD=4"])
    /\ (forall msgIndex w1 hdr body status rest1 m,
          script w1 = Lines (hdr :: body ++ [status]) :: rest1 ->
          str_in "ERROR" status = false ->
          re_match CMGR_SM_DELIVER_REGEX hdr = Some m ->
          exists w2 sms,
            _readStoredSmsMessage msgIndex w1 = (Return sms, w2) /\
            sms_text sms = join (String LF EmptyString) body).
Proof.
  intros w rdel rest Hs.
  destruct CMTI_SM_4_classified as [Hring Hpre].
  destruct CMTI_SM_4_index as (m4 & Hm4 & Hidx).
  destruct CMGR_HEADER_fields as (mh & Hmh & Hg1 & Hg2 & Hg3).
  assert (Hread : _readStoredSmsMessage (Some "4") w
                  = (Return HELLO_SMS, sent ("AT+CMGR=4" +:+ CR) (rdel :: rest) w)).
  { rewrite (readStoredSmsMessage_body (Some "4") w CMGR_HEADER ["Hello"] "OK"
               (rdel :: rest) mh Hs eq_refl Hmh).
    by rewrite Hg1, Hg2, Hg3. }
  assert (Hstart : __threadedHandleModemNotification [CMTI_SM_4] w
           = (_deleteStoredMessage (Some "4") ;; emit (SmsReceivedCallback HELLO_SMS))
               (sent ("AT+CMGR=4" +:+ CR) (rdel :: rest) w)).
  { unfold __threadedHandleModemNotification. rewrite Hring, Hpre.
    unfold _handleSmsReceived. rewrite Hm4, Hidx.
    by rewrite (bind_Return _ _ _ _ _ Hread). }
  rewrite Hstart. unfold _deleteStoredMessage.
  split; [|split].
  - intros Hdel. rewrite bind_assoc. step_ok Hdel. step_modem.
    unfold emit, wrote, with_trace, sent. norm_world. by rewrite <- !app_assoc.
  - intros Hdel. rewrite bind_assoc. unfold bind at 1. unfold write_.
    rewrite write_cases. norm_world.
    destruct rdel as [ls|].
    + destruct (last ls) as [st|] eqn:Hl.
      * destruct (str_in "ERROR" st) eqn:He.
        -- cbn [andb]. eexists _, _. split; [reflexivity |]. norm_world.
           by rewrite <- !app_assoc.
        -- destruct Hdel. by exists ls, st.
      * eexists _, _. split; [reflexivity |]. norm_world. by rewrite <- !app_assoc.
    + eexists _, _. split; [reflexivity |]. norm_world. by rewrite <- !app_assoc.
  - intros msgIndex w1 hdr body status rest1 m Hs1 He Hm.
    eexists _, _. split; [exact (readStoredSmsMessage_body _ _ _ _ _ _ _ Hs1 He Hm) |].
    reflexivity.
Qed.

Lemma sms_received_scenario_witness :
  __threadedHandleModemNotification [CMTI_SM_4]
    (mkWorld (mkGsmModem true true ∅ None) [] []
       [Lines [CMGR_HEADER; "Hello"; "OK"]; Lines ["OK"]])
  = (Return tt,
     mkWorld (mkGsmModem true true ∅ None) []
       [wrote "AT+CMGR=4"; wrote "AT+CMGD=4"; SmsReceivedCallback HELLO_SMS] []).
Proof.
  exact (proj1 (sms_received_scenario
                  (mkWorld (mkGsmModem true true ∅ None) [] []
                     [Lines [CMGR_HEADER; "Hello"; "OK"]; Lines ["OK"]])
                  (Lines ["OK"]) [] eq_refl) OK_succeeds).
Defined.

(** C10, counterexample: the line +CMTI: SM,x4 starts with +CMTI, does not
    match the pattern, and the handler returns normally with the world as
    it was: no command, no callback, no log record, no exception. *)
Lemma malformed_cmti_is_dropped :
  ~ malformed_cmti_is_reported /\
  __threadedHandleModemNotification ["+CMTI: SM,x4"]
    (mkWorld (mkGsmModem true true ∅ (Some ∅)) [] [] [Lines ["OK"]])
  = (Return tt, mkWorld (mkGsmModem true true ∅ (Some ∅)) [] [] [Lines ["OK"]]).
Proof.
  split; [|by vm_compute].
  intros Hclaim.
  destruct (Hclaim "+CMTI: SM,x4"
              (mkWorld (mkGsmModem true true ∅ (Some ∅)) [] [] [Lines ["OK"]]))
    as (w' & Hrun & _); [by vm_compute .. |].
  vm_compute in Hrun. discriminate Hrun.
Qed.

(** C10, amended: a notification line that does not match
    +CMTI: store,index is ignored by the SMS handler, which returns
    normally and leaves the world as it was (no command issued, no callback
    invoked, no log record, no exception); so does the dispatcher for such
    a line that starts with +CMTI and does not contain RING. *)
Theorem malformed_cmti_ignored :
  forall (line : string) (w : World),
    re_match CMTI_REGEX line = None ->
    _handleSmsReceived line w = (Return tt, w) /\
    (startswith line "+CMTI" = true -> str_in "RING" line = false ->
     __threadedHandleModemNotification [line] w = (Return tt, w)).
Proof.
  intros line w Hno.
  assert (H : _handleSmsReceived line w = (Return tt, w)).
  { unfold _handleSmsReceived. by rewrite Hno. }
  split; [done |]. intros Hpre Hring.
  unfold __threadedHandleModemNotification. by rewrite Hring, Hpre.
Qed.

Lemma malformed_cmti_ignored_witness :
  _handleSmsReceived "+CMTI"
    (mkWorld (mkGsmModem false false ∅ None) [] [] [])
  = (Return tt, mkWorld (mkGsmModem false false ∅ None) [] [] []).
Proof.
  refine (proj1 (malformed_cmti_ignored "+CMTI"
                   (mkWorld (mkGsmModem false false ∅ None) [] [] []) _)).
  vm_compute. reflexivity.
Defined.

(** ** Calls *)

Section Calls.

Lemma bind_load {B} self c (k : IncomingCall -> M B) w :
  heap w !! self = Some c -> bind (load self) k w = k c w.
Proof. intros H. unfold bind, load. by rewrite H. Qed.

Lemma state_of_ANSWERED c : state_of c = ANSWERED <-> answered c = true.
Proof. unfold state_of. destruct (answered c), (ringing c); split; congruence. Qed.

End Calls.

(** C8: sendDtmfTone on a call that is not ANSWERED (RINGING or ENDED)
    fails with InvalidStateException and writes nothing to the transport;
    on an ANSWERED call a tone string of more than one character goes out
    as one command, the tones joined by ;+VTS= after AT+VTS=, and a single
    tone goes out as AT+VTS=tone. *)
Theorem sendDtmfTone_spec :
  forall (w : World) (self : nat) (c : IncomingCall) (tones : string),
    heap w !! self = Some c ->
    (state_of c <> ANSWERED ->
       sendDtmfTone self tones w = (Raise (InvalidStateException NOT_ACTIVE), w))
    /\
    (state_of c = ANSWERED ->
       ((1 < String.length tones)%nat ->
          new_events w (snd (sendDtmfTone self tones w))
          = [wrote ("AT+VTS=" +:+ join ";+VTS=" (each_char tones))])
       /\
       (String.length tones = 1%nat ->
          new_events w (snd (sendDtmfTone self tones w))
          = [wrote ("AT+VTS=" +:+ tones)])).
Proof.
  intros w self c tones Hc. unfold sendDtmfTone. rewrite (bind_load _ _ _ _ Hc).
  split.
  - intros Hst. destruct (answered c) eqn:Ha; [|done].
    destruct Hst. by apply state_of_ANSWERED.
  - intros Hst%state_of_ANSWERED. rewrite Hst. unfold new_events.
    split; intros Hlen.
    + rewrite bool_decide_eq_true_2 by done.
      by rewrite bind_discard_trace, write__trace, drop_app_length.
    + rewrite bool_decide_eq_false_2 by lia.
      by rewrite bind_discard_trace, write__trace, drop_app_length.
Qed.

Lemma sendDtmfTone_spec_witness :
  new_events
    (mkWorld (mkGsmModem true true ∅ None)
       [mkIncomingCall (Some "+2782") None None (Some "VOICE") false true 2] []
       [Lines ["OK"]])
    (snd (sendDtmfTone 0 "12#"
            (mkWorld (mkGsmModem true true ∅ None)
               [mkIncomingCall (Some "+2782") None None (Some "VOICE") false true 2] []
               [Lines ["OK"]])))
  = [wrote "AT+VTS=1;+VTS=2;+VTS=#"].
Proof.
  refine (proj1 (proj2 (sendDtmfTone_spec
            (mkWorld (mkGsmModem true true ∅ None)
               [mkIncomingCall (Some "+2782") None None (Some "VOICE") false true 2] []
               [Lines ["OK"]])
            0%nat _ "12#" eq_refl) eq_refl) _).
  vm_compute. lia.
Defined.

(** C4, on the code: hangup fails on its first statement, the lookup of
    the attribute write that IncomingCall does not have, whatever the state
    of the call: nothing is sent, the call keeps its state and the registry
    keeps its entries. *)
Theorem hangup_raises_AttributeError :
  forall (self : nat) (w : World),
    exists w',
      hangup self w = (Raise (AttributeError "write"), w') /\
      new_events w w' = [] /\
      (state_of <$> heap w' !! self) = (state_of <$> heap w !! self) /\
      activeCalls (modem w') = activeCalls (modem w).
Proof.
  intros self w. exists w. split; [reflexivity |].
  unfold new_events. by rewrite drop_all.
Qed.

(** ** Waiting for coverage *)

Section Coverage.

(** Once the countdown has cleared the flag the loop raises at its next
    test, before any further reading. *)
Lemma coverage_loop_expired fuel w :
  coverage_loop fuel (Some 0%nat) w = (Raise TimeoutException, w).
Proof. by destruct fuel. Qed.

(** The loop never returns a reading of 0. *)
Lemma coverage_loop_nonzero fuel :
  forall block w ss w',
    coverage_loop fuel block w = (Return (Some ss), w') -> ss <> 0.
Proof.
  induction fuel as [|fuel IH]; intros block w ss w' H.
  - by destruct block as [[|n]|].
  - assert (Hstep :
      (ss0 <- signalStrength;;
       if bool_decide (ss0 ≠ 0) then ret (Some ss0)
       else coverage_loop fuel (Nat.pred <$> block)) w = (Return (Some ss), w')).
    { by destruct block as [[|n]|]. }
    unfold bind in Hstep. destruct (signalStrength w) as [[ss0|e] w1]; [|done].
    case_bool_decide as Hss.
    + injection Hstep as <- _. done.
    + by eapply IH.
Qed.

End Coverage.

(** C5, on the code: a reading of 99, which signalStrength turns into -1,
    passes the test of the loop: waitForNetworkCoverage returns -1 when it
    is the first reading, and when the readings are 0, 99 and 21 it returns
    -1 at the second one and never asks for the third. *)
Theorem waitForNetworkCoverage_returns_unknown :
  waitForNetworkCoverage None 0 1
    (mkWorld (mkGsmModem false false ∅ None) [] [] [Lines ["+CSQ: 99,99"; "OK"]])
  = (Return (Some (-1)),
     mkWorld (mkGsmModem false false ∅ None) [] [wrote "AT+CSQ"] [])
  /\
  waitForNetworkCoverage (Some 30) 5 5
    (mkWorld (mkGsmModem false false ∅ None) [] []
       [Lines ["+CSQ: 0,99"; "OK"]; Lines ["+CSQ: 99,99"; "OK"];
        Lines ["+CSQ: 21,99"; "OK"]])
  = (Return (Some (-1)),
     mkWorld (mkGsmModem false false ∅ None) []
       [wrote "AT+CSQ"; wrote "AT+CSQ"] [Lines ["+CSQ: 21,99"; "OK"]]).
Proof. split; by vm_compute. Qed.

(** ** The caller-ID pattern *)

Section CallerId.

Lemma chars_quoted (s : string) : chars (quoted s) = dquote :: chars s ++ [dquote].
Proof. unfold quoted. cbn [list_ascii_of_string]. by rewrite chars_app. Qed.

(** A repetition that must take a character fails where the class stops. *)
Lemma rep_stop_fail cls lo hi pos s cs k :
  stops cls s -> rep cls (S lo) hi pos s cs k = None.
Proof. destruct s as [|c s]; cbn; [done |]. by intros ->. Qed.

(** An optional character that is not there. *)
Lemma rep_opt_skip cls hi pos s cs k :
  stops cls s -> rep cls 0 hi pos s cs k = k pos s cs.
Proof. destruct s as [|c s]; cbn; [done |]. by intros ->. Qed.

(** An optional character that is there: with it first, without it next. *)
Lemma rep_opt_take cls pos c s cs k :
  cls c = true ->
  rep cls 0 (Some 1%nat) pos (c :: s) cs k
  = match k (S pos) s cs with
    | Some r => Some r
    | None => k pos (c :: s) cs
    end.
Proof.
  intros Hc. cbn [rep]. rewrite Hc. cbn [andb negb bool_decide decide_rel].
  rewrite bool_decide_eq_false_2 by done. cbn [negb fmap option_fmap option_map Nat.pred].
  replace (rep cls 0 (Some 0%nat) (S pos) s cs k) with (k (S pos) s cs); [done |].
  destruct s as [|d s]; cbn [rep]; [done |].
  rewrite bool_decide_eq_true_2 by done. by rewrite andb_false_r.
Qed.

Lemma empty_name_after_digits pos pos0 s0 cs ds ton f1 f2 rest k :
  is_digits ds -> is_digits ton ->
  all_in (not_char ",") f1 -> all_in (not_char ",") f2 ->
  rep is_digit 1 None pos
    (chars ds ++ dquote :: ","%char :: chars ton ++ ","%char :: chars f1 ++
     ","%char :: chars f2 ++ ","%char :: dquote :: dquote :: chars rest)
    cs
    (fun pos' s' cs' =>
       exec CLIP_after_number pos' s' ((1%nat, take (pos' - pos0) s0) :: cs') k)
  = None.
Proof.
  intros [Hdne Hds] [Htne Hton] Hf1 Hf2. unfold CLIP_after_number.
  rewrite rep_forced;
    [ | assumption | done | solve_rejects ].
  rewrite nonempty_length by assumption. cbv beta.
  repeat re_step. rep_step. repeat re_step. rep_step. repeat re_step.
  rep_step. repeat re_step.
  rewrite exec_Grp, exec_Alt.
  repeat re_step. rewrite exec_Grp, exec_Rep, rep_stop_fail by done.
  rewrite ?exec_Cat. by rewrite exec_Lit_fail.
Qed.

Lemma CLIP_empty_name_no_match line :
  clip_line_empty_name line -> re_match CLIP_REGEX line = None.
Proof.
  intros (ws & plus & ds & ton & f1 & f2 & rest &
          Hws & Hplus & Hds & Hton & Hf1 & Hf2 & ->).
  unfold re_match, CLIP_REGEX.
  rewrite !chars_app, !chars_quoted, !chars_app.
  cbn [list_ascii_of_string app]. rewrite <- !app_assoc. cbn [app].
  repeat re_step. rep_step. repeat re_step.
  rewrite exec_Grp, exec_Cat, exec_Rep.
  destruct Hplus as [-> | ->]; cbn [list_ascii_of_string app].
  - rewrite rep_opt_skip.
    + rewrite exec_Rep. by apply empty_name_after_digits.
    + eapply stops_run; [apply digit_plus | apply Hds | apply Hds].
  - rewrite rep_opt_take by done. rewrite !exec_Rep.
    rewrite empty_name_after_digits by done.
    apply rep_stop_fail. done.
Qed.

Lemma CLIP_match_number line m :
  re_match CLIP_REGEX line = Some m -> exists n, group 1 m = Some n.
Proof.
  unfold re_match, CLIP_REGEX. intros H. inv_step H.
  apply exec_Lit_inv in H as (s1 & Hs & H). inv_step H.
  rewrite exec_Rep in H. apply rep_sound in H as (? & ? & -> & _ & _ & H). inv_step H.
  apply exec_Cls_inv in H as (? & ? & -> & _ & H). inv_step H.
  rewrite exec_Rep in H. apply rep_sound in H as (? & ? & -> & _ & _ & H). inv_step H.
  rewrite exec_Rep in H. apply rep_sound in H as (? & ? & -> & _ & _ & H). inv_step H.
  apply exec_Cls_inv in H as (? & ? & -> & _ & H). inv_step H.
  apply exec_Lit_inv in H as (? & -> & H). inv_step H.
  rewrite exec_Rep in H. apply rep_sound in H as (? & ? & -> & _ & _ & H). inv_step H.
  apply exec_Lit_inv in H as (? & -> & H). inv_step H.
  rewrite exec_Rep in H. apply rep_sound in H as (? & ? & -> & _ & _ & H). inv_step H.
  apply exec_Lit_inv in H as (? & -> & H). inv_step H.
  rewrite exec_Rep in H. apply rep_sound in H as (? & ? & -> & _ & _ & H). inv_step H.
  apply exec_Lit_inv in H as (? & -> & H). inv_step H.
  rewrite exec_Alt in H.
  match type of H with
  | match ?a with _ => _ end = _ => destruct a as [m'|] eqn:Halt
  end.
  - injection H as <-. inv_step Halt.
    apply exec_Cls_inv in Halt as (? & ? & -> & _ & Halt). inv_step Halt.
    rewrite exec_Rep in Halt.
    apply rep_sound in Halt as (? & ? & -> & _ & _ & Halt). inv_step Halt.
    apply exec_Cls_inv in Halt as (? & ? & -> & _ & Halt). inv_step Halt.
    apply exec_Eol_inv in Halt as [_ Halt]. injection Halt as <-.
    cbn [group Nat.eqb]. by eauto.
  - inv_step H.
    apply exec_Lit_inv in H as (? & -> & H). inv_step H.
    rewrite exec_Rep in H. apply rep_sound in H as (? & ? & -> & _ & _ & H). inv_step H.
    apply exec_Eol_inv in H as [_ H]. injection H as <-.
    cbn [group Nat.eqb]. by eauto.
Qed.

End CallerId.

(** C9: the parsed caller name is never the empty string, and it is
    absent for every caller-ID line whose quoted name is empty; for a
    caller-ID line that does not match the pattern (and when caller ID is
    switched off) the number, the type of number and the name are all
    absent, [ton] being the local that was assigned None. *)
Theorem caller_id_absent_fields :
  forall (clip : bool) (lines : list string)
         (callerNumber : option string) (ton : option (option Z))
         (callerName : option string),
    caller_id clip lines = (callerNumber, ton, callerName) ->
    callerName <> Some EmptyString
    /\ (forall clipLine more,
          lines = clipLine :: more -> clip_line_empty_name clipLine ->
          callerName = None)
    /\ (forall clipLine more,
          lines = clipLine :: more -> re_match CLIP_REGEX clipLine = None ->
          callerNumber = None /\ ton = Some None /\ callerName = None)
    /\ (clip = false ->
        callerNumber = None /\ ton = Some None /\ callerName = None).
Proof.
  intros clip lines callerNumber ton callerName Hid.
  unfold caller_id in Hid.
  split; [|split; [|split]].
  - destruct (clip && bool_decide (0 < length lines)%nat); [|congruence].
    destruct lines as [|clipLine more]; [congruence |].
    destruct (re_match CLIP_REGEX clipLine) as [m|]; [|congruence].
    injection Hid as _ _ <-.
    destruct (group 3 m) as [n|]; [|done].
    case_bool_decide as Hn; [done |].
    intros [= ->]. by apply Hn.
  - intros clipLine more -> Hempty%CLIP_empty_name_no_match.
    rewrite Hempty in Hid.
    destruct (clip && bool_decide (0 < length (clipLine :: more))%nat); congruence.
  - intros clipLine more -> Hno. rewrite Hno in Hid.
    destruct (clip && bool_decide (0 < length (clipLine :: more))%nat);
      by injection Hid as <- <- <-.
  - intros ->. cbn in Hid. by injection Hid as <- <- <-.
Qed.

Lemma caller_id_absent_fields_witness :
  exists callerNumber ton callerName,
    caller_id true ["+CLIP: " +:+ quoted "+2782" +:+ ",145,,," +:+ quoted EmptyString]
    = (callerNumber, ton, callerName) /\ callerName = None.
Proof.
  exists None, (Some None), None.
  assert (H : caller_id true
                ["+CLIP: " +:+ quoted "+2782" +:+ ",145,,," +:+ quoted EmptyString]
              = (None, Some None, None)) by (vm_compute; reflexivity).
  split; [exact H |].
  refine (proj1 (proj2 (caller_id_absent_fields true _ None (Some None) None H))
            _ [] eq_refl _).
  exists " ", "+", "2782", "145", EmptyString, EmptyString, EmptyString.
  repeat split; try done; try (by right); repeat constructor.
Defined.

(** ** The call registry *)

Section Registry.

Lemma registry_wf_empty h : registry_wf ∅ h.
Proof. intros key call H. by rewrite lookup_empty in H. Qed.




(** The number is absent only on the paths that assign all three locals. *)
Lemma caller_id_absent_number clip lines ton callerName :
  caller_id clip lines = (None, ton, callerName) ->
  ton = Some None /\ callerName = None.
Proof.
  unfold caller_id.
  destruct (clip && bool_decide (0 < length lines)%nat); [|by intros [= <- <-]].
  destruct lines as [|clipLine more]; [by intros [= <- <-] |].
  destruct (re_match CLIP_REGEX clipLine) as [m|] eqn:Hm; [|by intros [= <- <-]].
  apply CLIP_match_number in Hm as [n Hn]. rewrite Hn. by intros [=].
Qed.

Lemma bind_lift_Return {A B} (a : A) (k : A -> M B) w :
  bind (lift (Return a)) k w = k a w.
Proof. reflexivity. Qed.

(** [_handleIncomingCall] from the registry lookup on. *)
Lemma handleIncomingCall_cases w reg ringLine more callType callerNumber ton callerName :
  _activeCalls (modem w) = Some reg ->
  ring_callType (_extendedIncomingCallIndication (modem w)) ringLine = Return callType ->
  caller_id (_callingLineIdentification (modem w)) more = (callerNumber, ton, callerName) ->
  _handleIncomingCall (ringLine :: more) w =
  match reg !! callerNumber with
  | Some call =>
      match heap w !! call with
      | Some c =>
          (Return tt,
           mkWorld (modem w) (<[call := set_ringCount (ringCount c + 1) c]> (heap w))
             (trace w ++ [IncomingCallCallback call]) (script w))
      | None => (Raise Dangling, w)
      end
  | None =>
      match ton with
      | Some ton =>
          (Return tt,
           mkWorld (modem (with__activeCalls (<[callerNumber := length (heap w)]> reg) w))
             (heap w ++ [IncomingCall_init callerNumber ton callerName callType])
             (trace w ++ [IncomingCallCallback (length (heap w))]) (script w))
      | None => (Raise (UnboundLocalError "ton"), w)
      end
  end.
Proof.
  intros Hreg Htype Hid. unfold _handleIncomingCall.
  rewrite bind_get_modem, Htype, bind_lift_Return, Hid, Hreg.
  destruct (reg !! callerNumber) as [call|].
  - unfold bind, load, update, ret, emit.
    destruct (heap w !! call) as [c|] eqn:Hc; [|done].
    norm_world. by rewrite Hc.
  - destruct ton as [ton|]; [|done].
    destruct w as [m h t s]. reflexivity.
Qed.

End Registry.




(** * Further properties of the code *)

(** ** Numbers and frames *)

Section Frames.

Lemma digit_val_range c : is_digit c = true -> 0 <= digit_val c <= 9.
Proof. destruct c as [[] [] [] [] [] [] [] []]; vm_compute; intuition congruence. Qed.

Lemma int_acc_nonneg s : forall acc,
  Forall (fun c => is_digit c = true) s -> 0 <= acc -> 0 <= int_acc acc s.
Proof.
  unfold int_acc. induction s as [|c s IH]; intros acc Hs Hacc; [done |].
  inversion Hs as [|? ? Hc Hs']; subst. cbn [fold_left]. apply IH; [done |].
  pose proof (digit_val_range c Hc). lia.
Qed.

Lemma int_nonneg s : all_in is_digit s -> 0 <= int s.
Proof. intros Hs. by apply int_acc_nonneg. Qed.

(** A command that waits changes nothing but the trace and the script. *)
Lemma write_frame data timeout parseError term w :
  modem (snd (write data true timeout parseError term w)) = modem w /\
  heap (snd (write data true timeout parseError term w)) = heap w.
Proof.
  rewrite write_cases.
  destruct (script w) as [|[ls|] rest]; [done | | done].
  cbv zeta. destruct (last ls) as [st|]; [|done].
  by destruct (parseError && str_in "ERROR" st).
Qed.

Lemma cm_error_line_says_ERROR kind digits st :
  cm_error_line kind digits st -> str_in "ERROR" st = true.
Proof.
  intros (Hk & _ & nl & _ & ->). unfold str_in. rewrite !chars_app.
  by destruct Hk as [-> | ->].
Qed.

End Frames.

(** X1: a command that waits either returns the modem's lines, the last
    of which does not say ERROR when errors are parsed, or raises
    TimeoutException, IndexError (no line at all) or, only when errors are
    parsed, a CommandError that is generic or carries the kind CME or CMS
    and a code that is not negative.  Either way exactly the command and
    its terminator went out, and the modem's attributes and the calls are
    as before. *)
Theorem write_outcomes :
  forall (data : string) (timeout : Z) (parseError : bool) (writeTerm : string)
         (w : World) (o : outcome (option (list string))) (w' : World),
    write data true timeout parseError writeTerm w = (o, w') ->
    trace w' = trace w ++ [Written (data +:+ writeTerm)] /\
    modem w' = modem w /\ heap w' = heap w /\
    match o with
    | Return r =>
        exists ls st,
          r = Some ls /\ last ls = Some st /\ script w = Lines ls :: script w' /\
          (parseError = true -> str_in "ERROR" st = false)
    | Raise e =>
        e = TimeoutException \/ e = IndexError \/
        (parseError = true /\
         (e = CommandError None None \/
          exists kind code,
            e = CommandError (Some kind) (Some code) /\
            (kind = "CME" \/ kind = "CMS") /\ 0 <= code))
    end.
Proof.
  intros data timeout parseError writeTerm w o w'. rewrite write_cases.
  destruct (script w) as [|[ls|] rest] eqn:Hs.
  - intros [= <- <-]. repeat split; try done. by left.
  - cbv zeta. destruct (last ls) as [st|] eqn:Hl.
    + destruct parseError; cbn [andb].
      * destruct (str_in "ERROR" st) eqn:He.
        -- intros [= <- <-]. repeat split; try done.
           right. right. split; [done |]. unfold status_error.
           destruct (re_match CM_ERROR_REGEX st) as [m|] eqn:Hm; [|by left].
           apply CM_ERROR_sound in Hm as (kind & digits & (Hk & [_ Hd] & _) & -> & ->).
           right. exists kind, (int digits). by auto using int_nonneg.
        -- intros [= <- <-]. repeat split; try done. by exists ls, st.
      * intros [= <- <-]. repeat split; try done. by exists ls, st.
    + intros [= <- <-]. repeat split; try done. right. by left.
  - intros [= <- <-]. repeat split; try done. by left.
Qed.

Lemma write_outcomes_witness :
  exists kind code,
    CommandError (Some "CME") (Some 30) = CommandError (Some kind) (Some code) /\
    (kind = "CME" \/ kind = "CMS") /\ 0 <= code.
Proof.
  destruct (write_outcomes "AT+CFUN=1" 5 true CR
              (mkWorld (mkGsmModem false false ∅ None) [] [] [Lines ["+CME ERROR: 30"]])
              (Raise (CommandError (Some "CME") (Some 30)))
              (mkWorld (mkGsmModem false false ∅ None) [] [Written ("AT+CFUN=1" +:+ CR)] [])
              ltac:(vm_compute; reflexivity))
    as (_ & _ & _ & [H | [H | [_ [H | H]]]]); try discriminate H.
  exact H.
Defined.

(** ** Signal strength *)

Section SignalStrength.

Lemma CSQ_group_digits line m :
  re_match CSQ_REGEX line = Some m -> exists ds, group 1 m = Some ds /\ is_digits ds.
Proof.
  unfold re_match, CSQ_REGEX. intros H. inv_step H.
  apply exec_Lit_inv in H as (s1 & Hs & H). inv_step H.
  rewrite exec_Rep in H.
  apply rep_sound in H as (ws & s2 & -> & Hws & _ & H). inv_step H.
  rewrite exec_Rep in H.
  apply rep_sound in H as (ds & s3 & -> & Hds & Hlo & H). inv_step H.
  apply exec_Lit_inv in H as (tl & -> & [= <-]).
  exists (str ds). cbn [group Nat.eqb]. rewrite take_run. split; [done |]. split.
  - destruct ds; [simpl in Hlo; lia | done].
  - unfold all_in. by rewrite chars_str.
Qed.

(** Whatever happens, [signalStrength] sends AT+CSQ once and touches
    nothing but the trace and the script. *)
Lemma signalStrength_frame w :
  trace (snd (signalStrength w)) = trace w ++ [wrote "AT+CSQ"] /\
  modem (snd (signalStrength w)) = modem w /\
  heap (snd (signalStrength w)) = heap w.
Proof.
  pose proof (write__trace "AT+CSQ" w) as Ht.
  destruct (write_frame "AT+CSQ" 5 true CR w) as [Hm Hh].
  unfold signalStrength, bind. fold (write_ "AT+CSQ") in Hm, Hh.
  destruct (write_ "AT+CSQ" w) as [[[[|line0 more]|]|e] w1]; cbn [snd] in *; try done.
  destruct (re_match CSQ_REGEX line0) as [m|]; [|done].
  by destruct (group 1 m).
Qed.

Lemma signalStrength_reading w r rest v :
  script w = r :: rest -> csq_answer v r ->
  signalStrength w = (Return v, sent ("AT+CSQ" +:+ CR) rest w).
Proof.
  intros Hs (line0 & more & st & ws & ds & tl & -> & Hl & He & Hline & ->).
  unfold signalStrength, write_.
  rewrite (bind_Return _ _ _ _ _
             (write_Return _ 5 true CR _ _ _ _ Hs Hl ltac:(by rewrite He))).
  apply CSQ_complete in Hline as (m & -> & ->). reflexivity.
Qed.

End SignalStrength.

(** X2: a value that signalStrength returns is -1 or is not negative, and
    it is never 99; the one command AT+CSQ went out for it. *)
Theorem signalStrength_range :
  forall (w : World) (v : Z) (w' : World),
    signalStrength w = (Return v, w') ->
    (v = -1 \/ 0 <= v) /\ v <> 99 /\ new_events w w' = [wrote "AT+CSQ"].
Proof.
  intros w v w' Hrun. split; [|split].
  - unfold signalStrength, bind in Hrun.
    destruct (write_ "AT+CSQ" w) as [[[[|line0 more]|]|e] w1]; try done.
    destruct (re_match CSQ_REGEX line0) as [m|] eqn:Hm; [|done].
    apply CSQ_group_digits in Hm as (ds & Hg & [_ Hds]). rewrite Hg in Hrun.
    injection Hrun as <- _. case_bool_decide; [right; by apply int_nonneg | by left].
  - unfold signalStrength, bind in Hrun.
    destruct (write_ "AT+CSQ" w) as [[[[|line0 more]|]|e] w1]; try done.
    destruct (re_match CSQ_REGEX line0) as [m|]; [|done].
    destruct (group 1 m) as [g|]; [|done].
    injection Hrun as <- _. by case_bool_decide.
  - unfold new_events. destruct (signalStrength_frame w) as [Ht _].
    rewrite Hrun in Ht. cbn [snd] in Ht. by rewrite Ht, drop_app_length.
Qed.

Lemma signalStrength_range_witness :
  (21 = -1 \/ 0 <= 21) /\ 21 <> 99.
Proof.
  destruct (signalStrength_range
              (mkWorld (mkGsmModem false false ∅ None) [] [] [Lines ["+CSQ: 21,99"; "OK"]])
              21
              (mkWorld (mkGsmModem false false ∅ None) [] [wrote "AT+CSQ"] [])
              ltac:(vm_compute; reflexivity)) as (H1 & H2 & _).
  by split.
Defined.

(** X3: when the modem answers AT+CSQ with a status line +CME ERROR: n or
    +CMS ERROR: n, signalStrength raises that CommandError, kind and code,
    and not the generic one it raises for a first line it cannot parse. *)
Theorem signalStrength_command_error :
  forall (w : World) (ls : list string) (st kind digits : string)
         (rest : list response),
    script w = Lines ls :: rest -> last ls = Some st ->
    cm_error_line kind digits st ->
    signalStrength w
    = (Raise (CommandError (Some kind) (Some (int digits))),
       sent ("AT+CSQ" +:+ CR) rest w).
Proof.
  intros w ls st kind digits rest Hs Hl Hline.
  unfold signalStrength, write_.
  rewrite (bind_Raise _ _ _ _ _
             (write_Raise _ 5 CR _ _ _ _ Hs Hl (cm_error_line_says_ERROR _ _ _ Hline))).
  by rewrite (status_error_structured _ _ _ Hline).
Qed.

Lemma signalStrength_command_error_witness :
  signalStrength
    (mkWorld (mkGsmModem false false ∅ None) [] [] [Lines ["+CME ERROR: 10"]])
  = (Raise (CommandError (Some "CME") (Some 10)),
     mkWorld (mkGsmModem false false ∅ None) [] [wrote "AT+CSQ"] []).
Proof.
  refine (signalStrength_command_error
            (mkWorld (mkGsmModem false false ∅ None) [] [] [Lines ["+CME ERROR: 10"]])
            ["+CME ERROR: 10"] "+CME ERROR: 10" "CME" "10" [] eq_refl eq_refl _).
  split; [by left |]. split.
  - split; [done |]. repeat constructor.
  - exists EmptyString. split; [by left | reflexivity].
Defined.

(** ** The coverage loop *)

Section CoverageLoop.

Lemma coverage_loop_step fuel block w :
  block <> Some 0%nat ->
  coverage_loop (S fuel) block w
  = (ss <- signalStrength;;
     if bool_decide (ss ≠ 0) then ret (Some ss)
     else coverage_loop fuel (Nat.pred <$> block)) w.
Proof. by destruct block as [[|n]|]. Qed.

Lemma coverage_loop_polls zeros :
  forall fuel block w r v rest,
    script w = zeros ++ r :: rest ->
    Forall (csq_answer 0) zeros -> csq_answer v r -> v <> 0 ->
    (length zeros < fuel)%nat ->
    (forall n, block = Some n -> (length zeros < n)%nat) ->
    coverage_loop fuel block w
    = (Return (Some v),
       mkWorld (modem w) (heap w)
         (trace w ++ replicate (S (length zeros)) (wrote "AT+CSQ")) rest).
Proof.
  induction zeros as [|z zeros IH]; intros fuel block w r v rest Hs Hz Hr Hv Hfuel Hblock.
  - destruct fuel as [|fuel]; [simpl in Hfuel; lia |].
    rewrite coverage_loop_step.
    2: { intros ->. specialize (Hblock _ eq_refl). simpl in Hblock. lia. }
    rewrite (bind_Return _ _ _ _ _ (signalStrength_reading _ _ _ _ Hs Hr)).
    by rewrite bool_decide_eq_true_2.
  - inversion Hz as [|? ? Hz0 Hz']; subst.
    destruct fuel as [|fuel]; [simpl in Hfuel; lia |].
    rewrite coverage_loop_step.
    2: { intros ->. specialize (Hblock _ eq_refl). simpl in Hblock. lia. }
    rewrite (bind_Return _ _ _ _ _ (signalStrength_reading _ _ _ _ Hs Hz0)).
    rewrite bool_decide_eq_false_2 by (intros H; by apply H).
    rewrite (IH fuel (Nat.pred <$> block) _ r v rest); try done.
    + unfold sent. cbn [modem heap trace script length replicate].
      by rewrite <- app_assoc.
    + simpl in Hfuel. lia.
    + intros n Hn. destruct block as [b|]; [|done].
      injection Hn as <-. specialize (Hblock _ eq_refl). simpl in Hblock. lia.
Qed.

Lemma coverage_loop_bounded expiry :
  forall fuel w,
    (expiry < fuel)%nat ->
    exists o w' k,
      coverage_loop fuel (Some expiry) w = (o, w') /\
      o <> Return None /\ (k <= expiry)%nat /\
      trace w' = trace w ++ replicate k (wrote "AT+CSQ").
Proof.
  induction expiry as [|expiry IH]; intros fuel w Hfuel.
  - rewrite coverage_loop_expired. exists (Raise TimeoutException), w, 0%nat.
    repeat split; [done | lia |]. by rewrite app_nil_r.
  - destruct fuel as [|fuel]; [lia |].
    rewrite coverage_loop_step by done. unfold bind.
    destruct (signalStrength_frame w) as [Ht _].
    destruct (signalStrength w) as [[ss|e] w1]; cbn [snd] in Ht.
    + case_bool_decide.
      * exists (Return (Some ss)), w1, 1%nat. repeat split; [done | lia | done].
      * destruct (IH fuel w1 ltac:(lia)) as (o & w' & k & Hrun & Ho & Hk & Ht').
        exists o, w', (S k). cbn [fmap option_fmap option_map Nat.pred].
        repeat split; [done | done | lia |].
        rewrite Ht', Ht, <- app_assoc. done.
    + exists (Raise e), w1, 1%nat. repeat split; [done | lia | done].
Qed.

End CoverageLoop.

(** X4: when the modem reports a signal strength of 0 a number of times
    and then a reading that is not 0, waitForNetworkCoverage returns that
    reading after exactly one AT+CSQ per report, provided the countdown, if
    there is one, has not elapsed by then; the reading 99 comes back as
    -1. *)
Theorem waitForNetworkCoverage_polls :
  forall (zeros : list response) (r : response) (v : Z) (rest : list response)
         (w : World) (timeout : option Z) (expiry fuel : nat),
    script w = zeros ++ r :: rest ->
    Forall (csq_answer 0) zeros -> csq_answer v r -> v <> 0 ->
    (length zeros < fuel)%nat ->
    (timeout = None \/ (length zeros < expiry)%nat) ->
    waitForNetworkCoverage timeout expiry fuel w
    = (Return (Some v),
       mkWorld (modem w) (heap w)
         (trace w ++ replicate (S (length zeros)) (wrote "AT+CSQ")) rest).
Proof.
  intros zeros r v rest w timeout expiry fuel Hs Hz Hr Hv Hfuel Htime.
  unfold waitForNetworkCoverage.
  apply (coverage_loop_polls zeros _ _ _ r v rest); try done.
  intros n Hn. destruct timeout as [t|]; [|done].
  injection Hn as <-. by destruct Htime.
Qed.

Lemma waitForNetworkCoverage_polls_witness :
  waitForNetworkCoverage (Some 30) 3 3
    (mkWorld (mkGsmModem false false ∅ None) [] []
       [Lines ["+CSQ: 0,99"; "OK"]; Lines ["+CSQ: 0,99"; "OK"];
        Lines ["+CSQ: 17,99"; "OK"]])
  = (Return (Some 17),
     mkWorld (mkGsmModem false false ∅ None) []
       [wrote "AT+CSQ"; wrote "AT+CSQ"; wrote "AT+CSQ"] []).
Proof.
  assert (Hanswer : forall d v,
            is_digits d -> v = (if bool_decide (int d ≠ 99) then int d else -1) ->
            csq_answer v (Lines ["+CSQ: " +:+ d +:+ ",99"; "OK"])).
  { intros d v Hd ->. exists ("+CSQ: " +:+ d +:+ ",99"), ["OK"], "OK", " ", d, "99".
    repeat split; try done; try apply Hd. repeat constructor. }
  refine (waitForNetworkCoverage_polls
            [Lines ["+CSQ: 0,99"; "OK"]; Lines ["+CSQ: 0,99"; "OK"]]
            (Lines ["+CSQ: 17,99"; "OK"]) 17 []
            (mkWorld (mkGsmModem false false ∅ None) [] []
               [Lines ["+CSQ: 0,99"; "OK"]; Lines ["+CSQ: 0,99"; "OK"];
                Lines ["+CSQ: 17,99"; "OK"]])
            (Some 30) 3 3 eq_refl _ _ _ _ _).
  - assert (H0 : csq_answer 0 (Lines ["+CSQ: 0,99"; "OK"])).
    { apply (Hanswer "0" 0); [|done]. split; [done | repeat constructor]. }
    constructor; [exact H0 |]. constructor; [exact H0 | constructor].
  - apply (Hanswer "17" 17); try done. split; [done | repeat constructor].
  - done.
  - simpl. lia.
  - right. simpl. lia.
Defined.

(** X5: with a timeout the loop of waitForNetworkCoverage ends: when the
    countdown elapses after [expiry] tests of the flag, any run with more
    fuel than that returns a reading or raises, and has sent at most
    [expiry] AT+CSQ commands and nothing else. *)
Theorem waitForNetworkCoverage_timeout_ends :
  forall (t : Z) (expiry fuel : nat) (w : World),
    (expiry < fuel)%nat ->
    exists o w' k,
      waitForNetworkCoverage (Some t) expiry fuel w = (o, w') /\
      o <> Return None /\ (k <= expiry)%nat /\
      trace w' = trace w ++ replicate k (wrote "AT+CSQ").
Proof. intros t expiry fuel w Hfuel. by apply coverage_loop_bounded. Qed.

Lemma waitForNetworkCoverage_timeout_ends_witness :
  exists o w' k,
    waitForNetworkCoverage (Some 10) 2 3
      (mkWorld (mkGsmModem false false ∅ None) [] []
         [Lines ["+CSQ: 0,99"; "OK"]; Lines ["+CSQ: 0,99"; "OK"];
          Lines ["+CSQ: 17,99"; "OK"]])
    = (o, w') /\ o <> Return None /\ (k <= 2)%nat /\
    trace w' = [] ++ replicate k (wrote "AT+CSQ").
Proof.
  apply (waitForNetworkCoverage_timeout_ends 10 2 3
           (mkWorld (mkGsmModem false false ∅ None) [] []
              [Lines ["+CSQ: 0,99"; "OK"]; Lines ["+CSQ: 0,99"; "OK"];
               Lines ["+CSQ: 17,99"; "OK"]])).
  lia.
Defined.

(** ** Bring-up: the fatal steps *)

Ltac step_at Hall i :=
  first [ step_ok (Hall i _ eq_refl) | step_answers (Hall i _ eq_refl) ].

Ltac raise_at H :=
  match goal with
  | |- context [bind (write_ ?d) ?k ?w] =>
      let ty := fresh "ty" in let co := fresh "co" in let E := fresh "E" in
      destruct (write__fails d w _ _ eq_refl H) as (ty & co & E);
      rewrite (bind_Raise _ _ _ _ _ E); clear E; norm_world;
      eexists _, ty, co; (split; [reflexivity | ])
  end.

(** X6: every command of connect before AT+CLIP=1, but for AT+WIND=0, is
    fatal: when the commands before it succeeded and its own answer says
    ERROR, connect raises that CommandError at once, having sent the
    commands up to this one and no other, and the attributes of the modem
    are as before. *)
Theorem connect_fatal_step :
  forall (w : World) (rs : list response) (r : response) (tail : list response),
    script w = rs ++ r :: tail ->
    (length rs < 9)%nat -> length rs <> 4%nat ->
    bringup_answers rs ->
    fails r ->
    exists w' errorType errorCode,
      connect w = (Raise (CommandError errorType errorCode), w') /\
      new_events w w' = take (length rs + 2) bringup_prefix /\
      modem w' = modem w /\ heap w' = heap w /\ script w' = tail.
Proof.
  intros w rs r tail Hs Hlen Hwind Hall Hr.
  destruct w as [m h t s]. cbn [script] in Hs. subst s.
  unfold connect. step_modem.
  assert (Hev : forall evs : list event, drop (length t) (t ++ evs) = evs)
    by (intros; apply drop_app_length).
  destruct rs as [|r1 [|r2 [|r3 [|r4 [|r5 [|r6 [|r7 [|r8 [|r9 rs]]]]]]]]];
    cbn [length] in Hlen, Hwind; try lia; try done; cbn [app].
  - raise_at Hr. unfold new_events. norm_world.
    rewrite <- !app_assoc, Hev. by repeat split.
  - step_at Hall 0%nat. raise_at Hr. unfold new_events. norm_world.
    rewrite <- !app_assoc, Hev. by repeat split.
  - step_at Hall 0%nat. step_at Hall 1%nat. raise_at Hr. unfold new_events. norm_world.
    rewrite <- !app_assoc, Hev. by repeat split.
  - step_at Hall 0%nat. step_at Hall 1%nat. step_at Hall 2%nat.
    raise_at Hr. unfold new_events. norm_world.
    rewrite <- !app_assoc, Hev. by repeat split.
  - step_at Hall 0%nat. step_at Hall 1%nat. step_at Hall 2%nat. step_at Hall 3%nat.
    step_at Hall 4%nat.
    raise_at Hr. unfold new_events. norm_world.
    rewrite <- !app_assoc, Hev. by repeat split.
  - step_at Hall 0%nat. step_at Hall 1%nat. step_at Hall 2%nat. step_at Hall 3%nat.
    step_at Hall 4%nat. step_at Hall 5%nat.
    raise_at Hr. unfold new_events. norm_world.
    rewrite <- !app_assoc, Hev. by repeat split.
  - step_at Hall 0%nat. step_at Hall 1%nat. step_at Hall 2%nat. step_at Hall 3%nat.
    step_at Hall 4%nat. step_at Hall 5%nat. step_at Hall 6%nat.
    raise_at Hr. unfold new_events. norm_world.
    rewrite <- !app_assoc, Hev. by repeat split.
  - step_at Hall 0%nat. step_at Hall 1%nat. step_at Hall 2%nat. step_at Hall 3%nat.
    step_at Hall 4%nat. step_at Hall 5%nat. step_at Hall 6%nat. step_at Hall 7%nat.
    raise_at Hr. unfold new_events. norm_world.
    rewrite <- !app_assoc, Hev. by repeat split.
Qed.

Lemma bringup_answers_OK n : bringup_answers (replicate n (Lines ["OK"])).
Proof.
  intros i r [-> _]%lookup_replicate.
  case_bool_decide; [apply succeeds_answers |]; apply OK_succeeds.
Qed.

Lemma connect_fatal_step_witness :
  exists w' errorType errorCode,
    connect (mkWorld (mkGsmModem false false ∅ None) [] []
               [Lines ["OK"]; Lines ["OK"]; Lines ["+CME ERROR: 10"]; Lines ["OK"]])
    = (Raise (CommandError errorType errorCode), w') /\
    trace w' = [ Logged DEBUG "Connecting to modem on port {} at {}bps" None;
                 wrote "ATZ"; wrote "ATE0"; wrote "AT+CFUN=1" ] /\
    script w' = [Lines ["OK"]].
Proof.
  destruct (connect_fatal_step
              (mkWorld (mkGsmModem false false ∅ None) [] []
                 [Lines ["OK"]; Lines ["OK"]; Lines ["+CME ERROR: 10"]; Lines ["OK"]])
              (replicate 2 (Lines ["OK"])) (Lines ["+CME ERROR: 10"]) [Lines ["OK"]]
              eq_refl ltac:(cbn; lia) ltac:(cbn; lia) (bringup_answers_OK 2)
              (ex_intro _ ["+CME ERROR: 10"]
                 (ex_intro _ "+CME ERROR: 10" (conj eq_refl (conj eq_refl eq_refl)))))
    as (w' & ty & co & Hrun & Hev & _ & _ & Hs).
  exists w', ty, co. repeat split; [exact Hrun | exact Hev | exact Hs].
Defined.

Ltac bringup Hall :=
  step_at Hall 0%nat; step_at Hall 1%nat; step_at Hall 2%nat; step_at Hall 3%nat;
  step_at Hall 4%nat; step_at Hall 5%nat; step_at Hall 6%nat; step_at Hall 7%nat;
  step_at Hall 8%nat.

Lemma nine_answers (rs : list response) :
  length rs = 9%nat ->
  exists r1 r2 r3 r4 r5 r6 r7 r8 r9, rs = [r1; r2; r3; r4; r5; r6; r7; r8; r9].
Proof.
  destruct rs as [|r1 [|r2 [|r3 [|r4 [|r5 [|r6 [|r7 [|r8 [|r9 [|r10 rs]]]]]]]]]];
    try done.
  intros _. by exists r1, r2, r3, r4, r5, r6, r7, r8, r9.
Qed.

Lemma write__timeout data w rest :
  script w = NoResponse :: rest ->
  write_ data w = (Raise TimeoutException, sent (data +:+ CR) rest w).
Proof. intros Hs. unfold write_. by rewrite write_cases, Hs. Qed.

(** X7: the two optional steps of connect absorb a CommandError only.  When
    the modem does not answer AT+CLIP=1, or answers it and does not answer
    AT+CRC=1, connect raises TimeoutException: nothing is logged,
    AT+CVHU=0 is not sent, and the caller-ID flag is as before in the first
    case and already set in the second. *)
Theorem connect_optional_step_timeout :
  forall (w : World) (rs : list response) (tail : list response),
    length rs = 9%nat -> bringup_answers rs ->
    (script w = rs ++ NoResponse :: tail ->
     exists w',
       connect w = (Raise TimeoutException, w') /\
       modem w' = modem w /\
       new_events w w' = bringup_prefix ++ [wrote "AT+CLIP=1"] /\
       script w' = tail)
    /\
    (forall rclip, succeeds rclip ->
     script w = rs ++ rclip :: NoResponse :: tail ->
     exists w',
       connect w = (Raise TimeoutException, w') /\
       _callingLineIdentification (modem w') = true /\
       _extendedIncomingCallIndication (modem w')
       = _extendedIncomingCallIndication (modem w) /\
       new_events w w' = bringup_prefix ++ [wrote "AT+CLIP=1"; wrote "AT+CRC=1"] /\
       script w' = tail).
Proof.
  intros w rs tail Hlen Hall.
  destruct (nine_answers rs Hlen) as (r1 & r2 & r3 & r4 & r5 & r6 & r7 & r8 & r9 & ->).
  destruct w as [m h t s].
  assert (Hev : forall evs : list event, drop (length t) (t ++ evs) = evs)
    by (intros; apply drop_app_length).
  split.
  - cbn [script app]. intros ->. unfold connect. step_modem. bringup Hall. step_modem.
    match goal with
    | |- context [try_except_CommandError (write_ ?d) ?h ?e ?w] =>
        rewrite (try_Raise_other _ h e w _ _ (write__timeout d w _ eq_refl))
          by done
    end.
    eexists; split; [reflexivity |]. unfold new_events. norm_world.
    rewrite <- !app_assoc, Hev. by repeat split.
  - intros rclip Hclip. cbn [script app]. intros ->. unfold connect. step_modem.
    bringup Hall. step_modem. try_ok Hclip. step_modem.
    match goal with
    | |- context [try_except_CommandError (write_ ?d) ?h ?e ?w] =>
        rewrite (try_Raise_other _ h e w _ _ (write__timeout d w _ eq_refl))
          by done
    end.
    eexists; split; [reflexivity |]. unfold new_events. norm_world.
    rewrite <- !app_assoc, Hev. by repeat split.
Qed.

Lemma connect_optional_step_timeout_witness :
  exists w',
    connect (mkWorld (mkGsmModem false false ∅ None) [] []
               (replicate 9 (Lines ["OK"]) ++ [NoResponse; Lines ["OK"]]))
    = (Raise TimeoutException, w') /\
    script w' = [Lines ["OK"]].
Proof.
  destruct (proj1 (connect_optional_step_timeout
              (mkWorld (mkGsmModem false false ∅ None) [] []
                 (replicate 9 (Lines ["OK"]) ++ [NoResponse; Lines ["OK"]]))
              (replicate 9 (Lines ["OK"])) [Lines ["OK"]] eq_refl
              (bringup_answers_OK 9)) eq_refl)
    as (w' & Hrun & _ & _ & Hs).
  exists w'. by split.
Defined.

(** X8: connect is not all-or-nothing.  When both optional steps succeeded
    and the last command, AT+CVHU=0, is answered with an error, connect
    raises that CommandError, and both capability flags have already been
    set on the modem. *)
Theorem connect_last_step_fails :
  forall (w : World) (rs : list response) (rclip rcrc rcvhu : response)
         (rest : list response),
    length rs = 9%nat -> bringup_answers rs ->
    script w = rs ++ rclip :: rcrc :: rcvhu :: rest ->
    succeeds rclip -> succeeds rcrc -> fails rcvhu ->
    exists w' errorType errorCode,
      connect w = (Raise (CommandError errorType errorCode), w') /\
      _callingLineIdentification (modem w') = true /\
      _extendedIncomingCallIndication (modem w') = true /\
      new_events w w'
      = bringup_prefix ++ [wrote "AT+CLIP=1"; wrote "AT+CRC=1"; wrote "AT+CVHU=0"] /\
      script w' = rest.
Proof.
  intros w rs rclip rcrc rcvhu rest Hlen Hall Hs Hclip Hcrc Hcvhu.
  destruct (nine_answers rs Hlen) as (r1 & r2 & r3 & r4 & r5 & r6 & r7 & r8 & r9 & ->).
  destruct w as [m h t s]. cbn [script app] in Hs. subst s.
  assert (Hev : forall evs : list event, drop (length t) (t ++ evs) = evs)
    by (intros; apply drop_app_length).
  unfold connect. step_modem. bringup Hall. step_modem.
  try_ok Hclip. step_modem. try_ok Hcrc. step_modem.
  raise_at Hcvhu. unfold new_events. norm_world.
  rewrite <- !app_assoc, Hev. by repeat split.
Qed.

Lemma connect_last_step_fails_witness :
  exists w' errorType errorCode,
    connect (mkWorld (mkGsmModem false false ∅ None) [] []
               (replicate 11 (Lines ["OK"]) ++ [Lines ["ERROR"]]))
    = (Raise (CommandError errorType errorCode), w') /\
    _callingLineIdentification (modem w') = true /\
    _extendedIncomingCallIndication (modem w') = true.
Proof.
  destruct (connect_last_step_fails
              (mkWorld (mkGsmModem false false ∅ None) [] []
                 (replicate 11 (Lines ["OK"]) ++ [Lines ["ERROR"]]))
              (replicate 9 (Lines ["OK"])) (Lines ["OK"]) (Lines ["OK"])
              (Lines ["ERROR"]) [] eq_refl (bringup_answers_OK 9) eq_refl
              OK_succeeds OK_succeeds
              (ex_intro _ ["ERROR"]
                 (ex_intro _ "ERROR" (conj eq_refl (conj eq_refl eq_refl)))))
    as (w' & ty & co & Hrun & Hc & He & _).
  exists w', ty, co. by repeat split.
Defined.

(** ** The SMS handler on every input *)

Section SmsHandler.

Lemma nonempty_run (run : list ascii) : (1 <= length run)%nat -> str run <> EmptyString.
Proof. destruct run; [simpl; lia | done]. Qed.

Lemma all_in_str cls (run : list ascii) :
  Forall (fun c => cls c = true) run -> all_in cls (str run).
Proof. unfold all_in. by rewrite chars_str. Qed.

(** A match of the CMTI pattern always sets the index, to digits. *)
Lemma CMTI_sound line m :
  re_match CMTI_REGEX line = Some m ->
  exists digits, is_digits digits /\ group 2 m = Some digits.
Proof.
  unfold re_match, CMTI_REGEX. intros H. inv_step H.
  apply exec_Lit_inv in H as (s1 & Hs & H). inv_step H.
  rewrite exec_Rep in H. apply rep_sound in H as (ws & s2 & -> & _ & _ & H). inv_step H.
  rewrite exec_Rep in H. apply rep_sound in H as (st & s3 & -> & _ & _ & H). inv_step H.
  apply exec_Lit_inv in H as (s4 & -> & H). inv_step H.
  rewrite exec_Rep in H. apply rep_sound in H as (ds & s5 & -> & Hds & Hlo & H). inv_step H.
  apply exec_Eol_inv in H as [_ H]. injection H as <-.
  exists (str ds). split.
  - split; [by apply nonempty_run | by apply all_in_str].
  - cbn [group Nat.eqb]. by rewrite take_run_eq by lia.
Qed.

Lemma CMGR_sound line m :
  re_match CMGR_SM_DELIVER_REGEX line = Some m ->
  exists blanks status number alpha time nl,
    cmgr_header blanks status number alpha time nl line /\
    group 1 m = Some status /\ group 2 m = Some number /\ group 3 m = Some time.
Proof.
  unfold re_match, CMGR_SM_DELIVER_REGEX. intros H. inv_step H.
  apply exec_Lit_inv in H as (s1 & Hs & H). inv_step H.
  rewrite exec_Rep in H. apply rep_sound in H as (ws & s2 & -> & Hws & _ & H). inv_step H.
  apply exec_Cls_inv in H as (q1 & s3 & -> & Hq1 & H). inv_step H.
  rewrite exec_Rep in H. apply rep_sound in H as (st & s4 & -> & Hst & Hst1 & H). inv_step H.
  apply exec_Cls_inv in H as (q2 & s5 & -> & Hq2 & H). inv_step H.
  apply exec_Lit_inv in H as (s6 & -> & H). inv_step H.
  apply exec_Cls_inv in H as (q3 & s7 & -> & Hq3 & H). inv_step H.
  rewrite exec_Rep in H. apply rep_sound in H as (nu & s8 & -> & Hnu & Hnu1 & H). inv_step H.
  apply exec_Cls_inv in H as (q4 & s9 & -> & Hq4 & H). inv_step H.
  apply exec_Lit_inv in H as (s10 & -> & H). inv_step H.
  rewrite exec_Rep in H. apply rep_sound in H as (al & s11 & -> & Hal & _ & H). inv_step H.
  apply exec_Lit_inv in H as (s12 & -> & H). inv_step H.
  apply exec_Cls_inv in H as (q5 & s13 & -> & Hq5 & H). inv_step H.
  rewrite exec_Rep in H. apply rep_sound in H as (ti & s14 & -> & Hti & Hti1 & H). inv_step H.
  apply exec_Cls_inv in H as (q6 & s15 & -> & Hq6 & H). inv_step H.
  apply exec_Eol_inv in H as [Hnl H]. injection H as <-.
  apply Ascii.eqb_eq in Hq1, Hq2, Hq3, Hq4, Hq5, Hq6. subst q1 q2 q3 q4 q5 q6.
  exists (str ws), (str st), (str nu), (str al), (str ti), (str s15).
  split; [|split; [|split]].
  - split; [by apply all_in_str |].
    split; [split; [by apply nonempty_run | by apply all_in_str] |].
    split; [split; [by apply nonempty_run | by apply all_in_str] |].
    split; [by apply all_in_str |].
    split; [split; [by apply nonempty_run | by apply all_in_str] |].
    split; [destruct Hnl as [-> | ->]; [by left | by right] |].
    apply chars_inj. rewrite Hs.
    rewrite !chars_app, !chars_quoted, ?chars_app, !chars_str.
    cbn [list_ascii_of_string app]. rewrite <- !app_assoc. by cbn [app].
  - cbn [group Nat.eqb]. by rewrite take_run_eq by lia.
  - cbn [group Nat.eqb]. by rewrite take_run_eq by lia.
  - cbn [group Nat.eqb]. by rewrite take_run_eq by lia.
Qed.

Lemma CMGR_complete blanks status number alpha time nl line :
  cmgr_header blanks status number alpha time nl line ->
  exists m, re_match CMGR_SM_DELIVER_REGEX line = Some m /\
            group 1 m = Some status /\ group 2 m = Some number /\
            group 3 m = Some time.
Proof.
  intros (Hws & [Hst1 Hst] & [Hnu1 Hnu] & Hal & [Hti1 Hti] & Hnl & ->).
  unfold re_match, CMGR_SM_DELIVER_REGEX.
  rewrite !chars_app, !chars_quoted. cbn [list_ascii_of_string app].
  rewrite <- !app_assoc. cbn [app].
  destruct Hnl as [-> | ->]; cbn [list_ascii_of_string];
    repeat re_step; rep_step; repeat re_step; rep_step; repeat re_step;
    rep_step; repeat re_step; rep_step; repeat re_step; rep_step; repeat re_step;
    (eexists; split; [reflexivity |]);
    cbn [group Nat.eqb]; rewrite !take_run, !str_chars; done.
Qed.

(** A default [write] leaves the world as [sent] describes, whatever the
    answer was. *)
Lemma write__sent data w :
  exists o rest, write_ data w = (o, sent (data +:+ CR) rest w).
Proof.
  unfold write_. rewrite write_cases.
  destruct (script w) as [|[ls|] rest]; [by eauto | | by eauto].
  cbv zeta. destruct (last ls) as [st|]; [|by eauto].
  destruct (true && str_in "ERROR" st); by eauto.
Qed.

Lemma new_events_sent w evs rest :
  new_events w (mkWorld (modem w) (heap w) (trace w ++ evs) rest) = evs.
Proof. unfold new_events. cbn [trace]. apply drop_app_length. Qed.

(** The three steps of the handler after the index was read off the line. *)
Lemma sms_pipeline_events index w o w' :
  (sms <- _readStoredSmsMessage (Some index);;
   _deleteStoredMessage (Some index);;
   emit (SmsReceivedCallback sms)) w = (o, w') ->
  modem w' = modem w /\ heap w' = heap w /\
  ((exists e, o = Raise e /\
      new_events w w' = [wrote ("AT+CMGR=" +:+ index)]) \/
   (exists e, o = Raise e /\
      new_events w w' = [wrote ("AT+CMGR=" +:+ index);
                         wrote ("AT+CMGD=" +:+ index)]) \/
   (exists sms, o = Return tt /\
      new_events w w' = [wrote ("AT+CMGR=" +:+ index);
                         wrote ("AT+CMGD=" +:+ index);
                         SmsReceivedCallback sms])).
Proof.
  unfold _readStoredSmsMessage, _deleteStoredMessage. cbn [format_arg default].
  rewrite !bind_assoc.
  destruct (write__sent ("AT+CMGR=" +:+ index) w) as (o1 & rest1 & E1).
  destruct o1 as [r|e].
  2:{ rewrite (bind_Raise _ _ _ _ _ E1). intros [= <- <-].
      split; [done |]. split; [done |].
      left. exists e. split; [done |]. apply new_events_sent. }
  rewrite (bind_Return _ _ _ _ _ E1).
  assert (Hfail : forall (e : exn) (k : ReceivedSms -> M unit),
            bind (raise e) k (sent (("AT+CMGR=" +:+ index) +:+ CR) rest1 w) = (o, w') ->
            modem w' = modem w /\ heap w' = heap w /\
            ((exists e, o = Raise e /\
                new_events w w' = [wrote ("AT+CMGR=" +:+ index)]) \/
             (exists e, o = Raise e /\
                new_events w w' = [wrote ("AT+CMGR=" +:+ index);
                                   wrote ("AT+CMGD=" +:+ index)]) \/
             (exists sms, o = Return tt /\
                new_events w w' = [wrote ("AT+CMGR=" +:+ index);
                                   wrote ("AT+CMGD=" +:+ index);
                                   SmsReceivedCallback sms]))).
  { intros e k [= <- <-]. split; [done |]. split; [done |]. left.
    exists e. split; [done |]. apply new_events_sent. }
  destruct r as [[|line0 more]|];
    [intros H; exact (Hfail _ _ H) | | intros H; exact (Hfail _ _ H)].
  destruct (re_match CMGR_SM_DELIVER_REGEX line0) as [mh|];
    [| intros H; exact (Hfail _ _ H)].
  clear Hfail. rewrite bind_ret, !bind_assoc.
  destruct (write__sent ("AT+CMGD=" +:+ index)
              (sent (("AT+CMGR=" +:+ index) +:+ CR) rest1 w)) as (o2 & rest2 & E2).
  destruct o2 as [r2|e2].
  - rewrite (bind_Return _ _ _ _ _ E2). rewrite bind_ret.
    intros [= <- <-]. split; [done |]. split; [done |]. right. right.
    eexists. split; [done |]. unfold new_events. norm_world.
    rewrite <- !app_assoc. apply drop_app_length.
  - rewrite (bind_Raise _ _ _ _ _ E2).
    intros [= <- <-]. split; [done |]. split; [done |]. right. left.
    exists e2. split; [done |]. unfold new_events. norm_world.
    rewrite <- !app_assoc. apply drop_app_length.
Qed.

End SmsHandler.

(** X9: whatever the notification line and the modem's answers, the SMS
    handler does one of four things: nothing, when the line does not match;
    or, for the digits of the index, the read command alone and an
    exception; the read and the delete and an exception; or the read, the
    delete and one callback, in this order, and a normal return.  The
    callback is never invoked before the message was deleted, and the
    modem's attributes and the calls are never touched. *)
Theorem handleSmsReceived_events :
  forall (line : string) (w : World) (o : outcome unit) (w' : World),
    _handleSmsReceived line w = (o, w') ->
    modem w' = modem w /\ heap w' = heap w /\
    ((re_match CMTI_REGEX line = None /\ o = Return tt /\ w' = w) \/
     exists index,
       is_digits index /\
       ((exists e, o = Raise e /\
           new_events w w' = [wrote ("AT+CMGR=" +:+ index)]) \/
        (exists e, o = Raise e /\
           new_events w w' = [wrote ("AT+CMGR=" +:+ index);
                              wrote ("AT+CMGD=" +:+ index)]) \/
        (exists sms, o = Return tt /\
           new_events w w' = [wrote ("AT+CMGR=" +:+ index);
                              wrote ("AT+CMGD=" +:+ index);
                              SmsReceivedCallback sms]))).
Proof.
  intros line w o w'. unfold _handleSmsReceived.
  destruct (re_match CMTI_REGEX line) as [m|] eqn:Hm.
  - destruct (CMTI_sound _ _ Hm) as (index & Hidx & Hg). rewrite Hg. cbv zeta.
    intros (Hm' & Hh & H)%sms_pipeline_events.
    split; [done |]. split; [done |]. right. by exists index.
  - intros [= <- <-]. split; [done |]. split; [done |]. by left.
Qed.

Lemma handleSmsReceived_events_witness :
  modem (mkWorld (mkGsmModem true true ∅ None) []
           [wrote "AT+CMGR=4"; wrote "AT+CMGD=4"] [])
  = mkGsmModem true true ∅ None.
Proof.
  exact (proj1 (handleSmsReceived_events CMTI_SM_4
                  (mkWorld (mkGsmModem true true ∅ None) [] []
                     [Lines [CMGR_HEADER; "Hello"; "OK"]; Lines ["ERROR"]])
                  (Raise (CommandError None None))
                  (mkWorld (mkGsmModem true true ∅ None) []
                     [wrote "AT+CMGR=4"; wrote "AT+CMGD=4"] [])
                  ltac:(vm_compute; reflexivity))).
Defined.

(** X10: a message that _readStoredSmsMessage returns always has its
    status, number and time set, each of them a text that is not empty and
    holds no double quote: the three quoted fields of a header line of the
    form +CMGR: Qstatus Q,Qnumber Q,alpha,Qtime Q (Q the double quote), which
    is the first line of the modem's answer; the text is made of the lines
    after it, but for the last. *)
Theorem readStoredSmsMessage_fields :
  forall (msgIndex : option string) (w : World) (sms : ReceivedSms) (w' : World),
    _readStoredSmsMessage msgIndex w = (Return sms, w') ->
    exists header more blanks status number alpha time nl,
      script w = Lines (header :: more) :: script w' /\
      cmgr_header blanks status number alpha time nl header /\
      sms_status sms = Some status /\ sms_number sms = Some number /\
      sms_time sms = Some time /\
      sms_text sms = join (String LF EmptyString) (removelast more).
Proof.
  intros msgIndex w sms w'. unfold _readStoredSmsMessage, write_.
  unfold bind at 1. rewrite write_cases.
  destruct (script w) as [|[ls|] rest]; [done | | done].
  cbv zeta. destruct (last ls) as [st|]; [|done].
  destruct (true && str_in "ERROR" st); [done |].
  destruct ls as [|header more]; [done |].
  destruct (re_match CMGR_SM_DELIVER_REGEX header) as [m|] eqn:Hm; [|done].
  apply CMGR_sound in Hm
    as (blanks & status & number & alpha & time & nl & Hhdr & Hg1 & Hg2 & Hg3).
  intros [= <- <-]. cbn [sms_status sms_number sms_time sms_text].
  exists header, more, blanks, status, number, alpha, time, nl.
  split; [done |]. split; [exact Hhdr |]. by repeat split.
Qed.

Lemma readStoredSmsMessage_fields_witness :
  exists header more blanks status number alpha time nl,
    [Lines [CMGR_HEADER; "Hello"; "OK"]] = [Lines (header :: more)] /\
    cmgr_header blanks status number alpha time nl header /\
    sms_status HELLO_SMS = Some status /\ sms_number HELLO_SMS = Some number /\
    sms_time HELLO_SMS = Some time /\
    sms_text HELLO_SMS = join (String LF EmptyString) (removelast more).
Proof.
  exact (readStoredSmsMessage_fields (Some "4")
           (mkWorld (mkGsmModem true true ∅ None) [] []
              [Lines [CMGR_HEADER; "Hello"; "OK"]])
           HELLO_SMS
           (mkWorld (mkGsmModem true true ∅ None) [] [wrote "AT+CMGR=4"] [])
           ltac:(vm_compute; reflexivity)).
Defined.

(** X11: the other way round, an answer whose first line is such a header
    and whose last line does not say ERROR is read back field by field:
    the message has the status, the number and the time that stand between
    the quotes, and as text the lines between the header and the status
    line, joined by line feeds; the field between number and time is
    dropped. *)
Theorem readStoredSmsMessage_roundtrip :
  forall (msgIndex : option string) (w : World)
         (blanks status number alpha time nl header : string)
         (body : list string) (st : string) (rest : list response),
    cmgr_header blanks status number alpha time nl header ->
    script w = Lines (header :: body ++ [st]) :: rest ->
    str_in "ERROR" st = false ->
    _readStoredSmsMessage msgIndex w
    = (Return (mkReceivedSms (Some status) (Some number) (Some time)
                 (join (String LF EmptyString) body)),
       sent (("AT+CMGR=" +:+ format_arg msgIndex) +:+ CR) rest w).
Proof.
  intros msgIndex w blanks status number alpha time nl header body st rest Hhdr Hs He.
  destruct (CMGR_complete _ _ _ _ _ _ _ Hhdr) as (m & Hm & Hg1 & Hg2 & Hg3).
  rewrite (readStoredSmsMessage_body _ _ _ _ _ _ _ Hs He Hm).
  by rewrite Hg1, Hg2, Hg3.
Qed.

Lemma readStoredSmsMessage_roundtrip_witness :
  _readStoredSmsMessage (Some "7")
    (mkWorld (mkGsmModem true true ∅ None) [] []
       [Lines ["+CMGR:" +:+ quoted "REC READ" +:+ "," +:+ quoted "0821234567" +:+ ","
               +:+ "Bob" +:+ "," +:+ quoted "23/05/01,08:30:00+08";
               "line one"; "line two"; "OK"]])
  = (Return (mkReceivedSms (Some "REC READ") (Some "0821234567")
               (Some "23/05/01,08:30:00+08")
               (join (String LF EmptyString) ["line one"; "line two"])),
     mkWorld (mkGsmModem true true ∅ None) [] [wrote "AT+CMGR=7"] []).
Proof.
  refine (readStoredSmsMessage_roundtrip (Some "7")
            (mkWorld (mkGsmModem true true ∅ None) [] [] _)
            EmptyString "REC READ" "0821234567" "Bob" "23/05/01,08:30:00+08"
            EmptyString _ ["line one"; "line two"] "OK" [] _ eq_refl eq_refl).
  unfold cmgr_header, quoted_field, all_in.
  repeat split; try done; try (by left); by vm_compute; repeat constructor.
Defined.

(** X12: when the answer to the read command does not say ERROR and its
    first line is not such a header, the handler of a +CMTI notification
    raises a generic CommandError right after the read: the delete command
    is not sent, so the message stays in the store, and the callback is not
    invoked. *)
Theorem handleSmsReceived_bad_header :
  forall (line : string) (m : captures) (w : World)
         (line0 : string) (more : list string) (st : string)
         (rest : list response),
    re_match CMTI_REGEX line = Some m ->
    script w = Lines (line0 :: more) :: rest ->
    last (line0 :: more) = Some st -> str_in "ERROR" st = false ->
    re_match CMGR_SM_DELIVER_REGEX line0 = None ->
    exists index w',
      group 2 m = Some index /\
      _handleSmsReceived line w = (Raise (CommandError None None), w') /\
      new_events w w' = [wrote ("AT+CMGR=" +:+ index)] /\
      script w' = rest.
Proof.
  intros line m w line0 more st rest Hm Hs Hl He Hno.
  destruct (CMTI_sound _ _ Hm) as (index & _ & Hg).
  exists index. eexists. split; [done |].
  unfold _handleSmsReceived. rewrite Hm, Hg. cbv zeta.
  unfold _readStoredSmsMessage, write_. rewrite !bind_assoc.
  rewrite (bind_Return _ _ _ _ _
             (write_Return _ 5 true CR _ _ _ _ Hs Hl ltac:(by rewrite He))).
  rewrite Hno. split; [reflexivity |]. cbn [snd format_arg default].
  split; [apply new_events_sent | done].
Qed.

Lemma handleSmsReceived_bad_header_witness :
  exists index w',
    index = "4" /\
    _handleSmsReceived CMTI_SM_4
      (mkWorld (mkGsmModem true true ∅ None) [] [] [Lines ["OK"]; Lines ["OK"]])
    = (Raise (CommandError None None), w') /\
    new_events (mkWorld (mkGsmModem true true ∅ None) [] [] [Lines ["OK"]; Lines ["OK"]]) w'
    = [wrote ("AT+CMGR=" +:+ index)] /\
    script w' = [Lines ["OK"]].
Proof.
  destruct (handleSmsReceived_bad_header CMTI_SM_4
              [(2%nat, chars "4"); (1%nat, chars (quoted "SM"))]
              (mkWorld (mkGsmModem true true ∅ None) [] [] [Lines ["OK"]; Lines ["OK"]])
              "OK" [] "OK" [Lines ["OK"]]
              ltac:(vm_compute; reflexivity) eq_refl eq_refl eq_refl
              ltac:(vm_compute; reflexivity))
    as (index & w' & Hg & Hrun & Hev & Hs).
  exists index, w'. split; [by injection Hg as <- | by repeat split].
Defined.

(** ** Caller ID on well-formed lines *)

Section CallerIdLines.

Lemma named_after_digits pos pos0 s0 cs ds ton f1 f2 name nl :
  is_digits ds -> is_digits ton ->
  all_in (not_char ",") f1 -> all_in (not_char ",") f2 ->
  quoted_field name -> eol_tail nl ->
  exists v2,
    rep is_digit 1 None pos
      (chars ds ++ dquote :: ","%char :: chars ton ++ ","%char :: chars f1 ++
       ","%char :: chars f2 ++ ","%char :: dquote :: chars name ++ dquote :: chars nl)
      cs
      (fun pos' s' cs' =>
         exec CLIP_after_number pos' s' ((1%nat, take (pos' - pos0) s0) :: cs')
           (fun _ _ cs => Some cs))
    = Some ((2%nat, v2) :: (3%nat, chars name)
            :: (1%nat, take (pos + length (chars ds) - pos0) s0) :: cs).
Proof.
  intros [Hdne Hds] [Htne Hton] Hf1 Hf2 [Hnne Hname] Hnl. unfold CLIP_after_number.
  rewrite rep_forced;
    [ | assumption | done | solve_rejects ].
  rewrite nonempty_length by assumption. cbv beta.
  repeat re_step. rep_step. repeat re_step. rep_step. repeat re_step.
  rep_step. repeat re_step.
  rewrite exec_Grp, exec_Alt.
  destruct Hnl as [-> | ->]; cbn [list_ascii_of_string];
    repeat re_step; rep_step; repeat re_step;
    rewrite take_run; by eexists.
Qed.

Lemma unnamed_after_digits pos pos0 s0 cs ds ton f1 f2 rest nl :
  is_digits ds -> is_digits ton ->
  all_in (not_char ",") f1 -> all_in (not_char ",") f2 ->
  all_in dot rest -> eol_tail nl ->
  exists v2,
    rep is_digit 1 None pos
      (chars ds ++ dquote :: ","%char :: chars ton ++ ","%char :: chars f1 ++
       ","%char :: chars f2 ++ ","%char :: ","%char :: chars rest ++ chars nl)
      cs
      (fun pos' s' cs' =>
         exec CLIP_after_number pos' s' ((1%nat, take (pos' - pos0) s0) :: cs')
           (fun _ _ cs => Some cs))
    = Some ((2%nat, v2) :: (1%nat, take (pos + length (chars ds) - pos0) s0) :: cs).
Proof.
  intros [Hdne Hds] [Htne Hton] Hf1 Hf2 Hrest Hnl. unfold CLIP_after_number.
  rewrite rep_forced;
    [ | assumption | done | solve_rejects ].
  rewrite nonempty_length by assumption. cbv beta.
  repeat re_step. rep_step. repeat re_step. rep_step. repeat re_step.
  rep_step. repeat re_step.
  rewrite exec_Grp, exec_Alt.
  rewrite exec_Cat. erewrite exec_Cls_fail by reflexivity.
  destruct Hnl as [-> | ->]; cbn [list_ascii_of_string];
    repeat re_step; rep_step; repeat re_step; by eexists.
Qed.

Lemma take_plus_run (p : nat) (run rest : list ascii) :
  take (S p + length run - p) ("+"%char :: run ++ rest) = "+"%char :: run.
Proof.
  replace (S p + length run - p)%nat with (S (length run)) by lia.
  cbn [take]. by rewrite take_app_length.
Qed.

Lemma CLIP_named blanks plus digits ton f1 f2 name nl line :
  clip_line blanks plus digits ton f1 f2 (quoted name +:+ nl) line ->
  quoted_field name -> eol_tail nl ->
  exists m, re_match CLIP_REGEX line = Some m /\
            group 1 m = Some (plus +:+ digits) /\ group 3 m = Some name.
Proof.
  intros (Hws & Hplus & Hds & Hton & Hf1 & Hf2 & ->) Hname Hnl.
  unfold re_match, CLIP_REGEX.
  rewrite !chars_app, !chars_quoted, !chars_app.
  cbn [list_ascii_of_string app]. rewrite <- !app_assoc. cbn [app].
  repeat re_step. rep_step. repeat re_step.
  rewrite exec_Grp, exec_Cat, exec_Rep.
  destruct Hplus as [-> | ->]; cbn [list_ascii_of_string app].
  - rewrite rep_opt_skip
      by (eapply stops_run; [apply digit_plus | apply Hds | apply Hds]).
    rewrite exec_Rep.
    edestruct (named_after_digits) as [v2 E];
      [exact Hds | exact Hton | exact Hf1 | exact Hf2 | exact Hname | exact Hnl |].
    rewrite E. eexists. split; [reflexivity |].
    cbn [group Nat.eqb]. by rewrite take_run, !str_chars.
  - rewrite rep_opt_take by done. rewrite !exec_Rep.
    edestruct (named_after_digits) as [v2 E];
      [exact Hds | exact Hton | exact Hf1 | exact Hf2 | exact Hname | exact Hnl |].
    rewrite E. eexists. split; [reflexivity |].
    cbn [group Nat.eqb]. rewrite take_plus_run. cbn [string_of_list_ascii].
    by rewrite !str_chars.
Qed.

Lemma CLIP_unnamed blanks plus digits ton f1 f2 rest nl line :
  clip_line blanks plus digits ton f1 f2 ("," +:+ rest +:+ nl) line ->
  all_in dot rest -> eol_tail nl ->
  exists m, re_match CLIP_REGEX line = Some m /\
            group 1 m = Some (plus +:+ digits) /\ group 3 m = None.
Proof.
  intros (Hws & Hplus & Hds & Hton & Hf1 & Hf2 & ->) Hrest Hnl.
  unfold re_match, CLIP_REGEX.
  rewrite !chars_app.
  rewrite !chars_quoted, !chars_app.
  cbn [list_ascii_of_string app]. rewrite <- !app_assoc. cbn [app].
  repeat re_step. rep_step. repeat re_step.
  rewrite exec_Grp, exec_Cat, exec_Rep.
  destruct Hplus as [-> | ->]; cbn [list_ascii_of_string app].
  - rewrite rep_opt_skip
      by (eapply stops_run; [apply digit_plus | apply Hds | apply Hds]).
    rewrite exec_Rep.
    edestruct (unnamed_after_digits) as [v2 E];
      [exact Hds | exact Hton | exact Hf1 | exact Hf2 | exact Hrest | exact Hnl |].
    rewrite E. eexists. split; [reflexivity |].
    cbn [group Nat.eqb]. by rewrite take_run, !str_chars.
  - rewrite rep_opt_take by done. rewrite !exec_Rep.
    edestruct (unnamed_after_digits) as [v2 E];
      [exact Hds | exact Hton | exact Hf1 | exact Hf2 | exact Hrest | exact Hnl |].
    rewrite E. eexists. split; [reflexivity |].
    cbn [group Nat.eqb]. rewrite take_plus_run. cbn [string_of_list_ascii].
    by rewrite !str_chars.
Qed.

(** A repetition with an upper bound takes no more than the bound. *)
Lemma rep_bounded cls (s : list ascii) :
  forall lo h pos cs k r,
    rep cls lo (Some h) pos s cs k = Some r ->
    exists run rest,
      s = run ++ rest /\ Forall (fun c => cls c = true) run /\
      (length run <= h)%nat /\ k (pos + length run)%nat rest cs = Some r.
Proof.
  induction s as [|c s IH]; intros lo h pos cs k r H.
  - simpl in H. destruct lo; [|done].
    exists [], []. simpl. rewrite Nat.add_0_r. repeat split; auto with lia.
  - cbn [rep] in H.
    assert (Hstop : match lo with O => k pos (c :: s) cs | S _ => None end = Some r ->
                    exists run rest, c :: s = run ++ rest /\
                      Forall (fun c => cls c = true) run /\
                      (length run <= h)%nat /\ k (pos + length run)%nat rest cs = Some r).
    { destruct lo; [|done]. intros Hk. exists [], (c :: s). simpl.
      rewrite Nat.add_0_r. repeat split; auto with lia. }
    destruct (cls c && negb (bool_decide (Some h = Some 0%nat))) eqn:Hc; [|by apply Hstop].
    cbn [fmap option_fmap option_map] in H.
    destruct (rep cls (Nat.pred lo) (Some (Nat.pred h)) (S pos) s cs k) as [r'|] eqn:Hrec;
      [|by apply Hstop].
    apply IH in Hrec as (run & rest & -> & Hrun & Hhi & Hk).
    apply andb_true_iff in Hc as [Hc Hh].
    apply negb_true_iff, bool_decide_eq_false in Hh.
    assert (h <> 0%nat) by congruence.
    exists (c :: run), rest. simpl. repeat split; auto with lia.
    replace (pos + S (length run))%nat with (S pos + length run)%nat by lia.
    congruence.
Qed.

Lemma plus_run (run : list ascii) :
  Forall (fun c => is_char "+" c = true) run -> (length run <= 1)%nat ->
  str run = EmptyString \/ str run = "+".
Proof.
  destruct run as [|c [|d run]]; cbn [length]; [by left | | lia].
  intros Hc _. inversion Hc as [|? ? Hp _]; subst.
  apply Ascii.eqb_eq in Hp as <-. by right.
Qed.

Lemma take_number (n : nat) (pl ds rest : list ascii) :
  n = (length pl + length ds)%nat ->
  str (take n (pl ++ ds ++ rest)) = str pl +:+ str ds.
Proof.
  intros ->. rewrite app_assoc, take_run_eq by (by rewrite length_app).
  apply chars_inj. by rewrite chars_app, !chars_str.
Qed.

(** What a match of the caller-ID pattern captures: a number that is an
    optional plus sign and digits, and a name, when there is one, that is
    not empty and holds no double quote. *)
Lemma CLIP_sound line m :
  re_match CLIP_REGEX line = Some m ->
  exists plus digits,
    (plus = EmptyString \/ plus = "+") /\ is_digits digits /\
    group 1 m = Some (plus +:+ digits) /\
    (forall name, group 3 m = Some name -> quoted_field name).
Proof.
  unfold re_match, CLIP_REGEX. intros H. inv_step H.
  apply exec_Lit_inv in H as (s1 & Hs & H). inv_step H.
  rewrite exec_Rep in H. apply rep_sound in H as (? & ? & -> & _ & _ & H). inv_step H.
  apply exec_Cls_inv in H as (? & ? & -> & _ & H). inv_step H.
  rewrite exec_Rep in H.
  apply rep_bounded in H as (pl & ? & -> & Hpl & Hpl1 & H). inv_step H.
  rewrite exec_Rep in H. apply rep_sound in H as (ds & ? & -> & Hds & Hds1 & H). inv_step H.
  apply exec_Cls_inv in H as (? & ? & -> & _ & H). inv_step H.
  apply exec_Lit_inv in H as (? & -> & H). inv_step H.
  rewrite exec_Rep in H. apply rep_sound in H as (? & ? & -> & _ & _ & H). inv_step H.
  apply exec_Lit_inv in H as (? & -> & H). inv_step H.
  rewrite exec_Rep in H. apply rep_sound in H as (? & ? & -> & _ & _ & H). inv_step H.
  apply exec_Lit_inv in H as (? & -> & H). inv_step H.
  rewrite exec_Rep in H. apply rep_sound in H as (? & ? & -> & _ & _ & H). inv_step H.
  apply exec_Lit_inv in H as (? & -> & H). inv_step H.
  rewrite exec_Alt in H.
  exists (str pl), (str ds).
  split; [by apply plus_run |].
  split; [split; [by apply nonempty_run | by apply all_in_str] |].
  match type of H with
  | match ?a with _ => _ end = _ => destruct a as [m'|] eqn:Halt
  end.
  - injection H as <-. inv_step Halt.
    apply exec_Cls_inv in Halt as (? & ? & -> & _ & Halt). inv_step Halt.
    rewrite exec_Rep in Halt.
    apply rep_sound in Halt as (nm & ? & -> & Hnm & Hnm1 & Halt). inv_step Halt.
    apply exec_Cls_inv in Halt as (? & ? & -> & _ & Halt). inv_step Halt.
    apply exec_Eol_inv in Halt as [_ Halt]. injection Halt as <-.
    cbn [group Nat.eqb]. split; [by rewrite take_number by lia |].
    intros name [= <-]. rewrite take_run_eq by lia.
    split; [by apply nonempty_run | by apply all_in_str].
  - inv_step H.
    apply exec_Lit_inv in H as (? & -> & H). inv_step H.
    rewrite exec_Rep in H. apply rep_sound in H as (? & ? & -> & _ & _ & H). inv_step H.
    apply exec_Eol_inv in H as [_ H]. injection H as <-.
    cbn [group Nat.eqb]. split; [by rewrite take_number by lia | done].
Qed.

End CallerIdLines.

(** X13: with caller ID on, a caller-ID line
    +CLIP: Qnumber Q,ton,f1,f2,tail (Q the double quote) is parsed in full:
    the number is the text between the quotes, plus sign included; the
    name is the quoted text of the tail, or absent when the tail starts
    with a comma instead.  The type of number, though it is on the line, is
    not read: the local ton stays unassigned. *)
Theorem caller_id_parses :
  forall (blanks plus digits ton f1 f2 tail line : string) (more : list string),
    clip_line blanks plus digits ton f1 f2 tail line ->
    (forall name nl,
        quoted_field name -> eol_tail nl -> tail = quoted name +:+ nl ->
        caller_id true (line :: more) = (Some (plus +:+ digits), None, Some name))
    /\
    (forall rest nl,
        all_in dot rest -> eol_tail nl -> tail = "," +:+ rest +:+ nl ->
        caller_id true (line :: more) = (Some (plus +:+ digits), None, None)).
Proof.
  intros blanks plus digits ton f1 f2 tail line more Hline.
  unfold caller_id. cbn [andb length]. rewrite bool_decide_eq_true_2 by lia.
  split.
  - intros name nl Hname Hnl ->.
    destruct (CLIP_named _ _ _ _ _ _ _ _ _ Hline Hname Hnl) as (m & -> & -> & ->).
    rewrite bool_decide_eq_false_2; [done |].
    destruct Hname as [Hne _]. by destruct name.
  - intros rest nl Hrest Hnl ->.
    by destruct (CLIP_unnamed _ _ _ _ _ _ _ _ _ Hline Hrest Hnl) as (m & -> & -> & ->).
Qed.

Lemma caller_id_parses_witness :
  caller_id true
    ["+CLIP: " +:+ quoted "+27821234567" +:+ ",145,,," +:+ quoted "Home"; "extra"]
  = (Some "+27821234567", None, Some "Home")
  /\
  caller_id true ["+CLIP: " +:+ quoted "0821234567" +:+ ",129,,,,0"]
  = (Some "0821234567", None, None).
Proof.
  split.
  - refine (proj1 (caller_id_parses " " "+" "27821234567" "145" EmptyString EmptyString
                     (quoted "Home") _ ["extra"] _) "Home" EmptyString _ _ eq_refl).
    + unfold clip_line, is_digits, all_in.
      repeat split; try done; try (by right); by vm_compute; repeat constructor.
    + unfold quoted_field, all_in. split; [done |]. by vm_compute; repeat constructor.
    + by left.
  - refine (proj2 (caller_id_parses " " EmptyString "0821234567" "129" EmptyString
                     EmptyString ",0" _ [] _) "0" EmptyString _ _ eq_refl).
    + unfold clip_line, is_digits, all_in.
      repeat split; try done; try (by left); by vm_compute; repeat constructor.
    + unfold all_in. by vm_compute; repeat constructor.
    + by left.
Defined.

(** X14: whatever the lines, a caller number that the handler resolves is
    an optional plus sign followed by digits, a resolved name is not empty
    and holds no double quote, and there is a name only when there is a
    number.  Whenever there is a number the local ton was not assigned. *)
Theorem caller_id_shape :
  forall (clip : bool) (lines : list string)
         (callerNumber : option string) (ton : option (option Z))
         (callerName : option string),
    caller_id clip lines = (callerNumber, ton, callerName) ->
    (forall n, callerNumber = Some n ->
       ton = None /\
       exists plus digits,
         (plus = EmptyString \/ plus = "+") /\ is_digits digits /\ n = plus +:+ digits)
    /\ (forall name, callerName = Some name ->
          quoted_field name /\ callerNumber <> None).
Proof.
  intros clip lines callerNumber ton callerName. unfold caller_id.
  destruct (clip && bool_decide (0 < length lines)%nat);
    [| by intros [= <- <- <-]].
  destruct lines as [|clipLine more]; [by intros [= <- <- <-] |].
  destruct (re_match CLIP_REGEX clipLine) as [m|] eqn:Hm; [| by intros [= <- <- <-]].
  apply CLIP_sound in Hm as (plus & digits & Hplus & Hds & Hg1 & Hg3).
  rewrite Hg1. intros [= <- <- <-]. split.
  - intros n [= <-]. split; [done |]. by exists plus, digits.
  - intros name Hname. destruct (group 3 m) as [nm|]; [|done].
    case_bool_decide; [done |]. injection Hname as ->.
    split; [by apply Hg3 | done].
Qed.

Lemma caller_id_shape_witness :
  exists plus digits,
    (plus = EmptyString \/ plus = "+") /\ is_digits digits /\
    "+27821234567" = plus +:+ digits.
Proof.
  exact (proj2 (proj1 (caller_id_shape true
                  ["+CLIP: " +:+ quoted "+27821234567" +:+ ",145,,," +:+ quoted "Home"]
                  (Some "+27821234567") None (Some "Home")
                  ltac:(vm_compute; reflexivity)) "+27821234567" eq_refl)).
Defined.

(** ** The ring handler on every input *)

Section RingHandler.

(** Where a number was resolved, the local [ton] was never assigned. *)
Lemma caller_id_number_ton clip lines n ton callerName :
  caller_id clip lines = (Some n, ton, callerName) -> ton = None.
Proof.
  unfold caller_id.
  destruct (clip && bool_decide (0 < length lines)%nat); [| by intros [=]].
  destruct lines as [|clipLine more]; [by intros [=] |].
  destruct (re_match CLIP_REGEX clipLine) as [m|]; [| by intros [=]].
  by intros [= _ <- _].
Qed.

(** Every run of the ring handler: it raises and leaves the world as it
    was, or it counts a ring on a registered call, or it registers a new
    call, which then has no number. *)
Lemma handleIncomingCall_run lines w o w' :
  _handleIncomingCall lines w = (o, w') ->
  (exists e, o = Raise e /\ w' = w) \/
  (o = Return tt /\
   exists reg key call c,
     _activeCalls (modem w) = Some reg /\ reg !! key = Some call /\
     heap w !! call = Some c /\
     w' = mkWorld (modem w) (<[call := set_ringCount (ringCount c + 1) c]> (heap w))
            (trace w ++ [IncomingCallCallback call]) (script w)) \/
  (o = Return tt /\
   exists reg callType,
     _activeCalls (modem w) = Some reg /\ reg !! None = None /\
     w' = mkWorld (modem (with__activeCalls (<[None := length (heap w)]> reg) w))
            (heap w ++ [IncomingCall_init None None None callType])
            (trace w ++ [IncomingCallCallback (length (heap w))]) (script w)).
Proof.
  destruct lines as [|ringLine more]; [intros [= <- <-]; left; by eauto |].
  destruct (ring_callType (_extendedIncomingCallIndication (modem w)) ringLine)
    as [callType|e] eqn:Htype.
  2:{ unfold _handleIncomingCall. rewrite bind_get_modem, Htype.
      intros [= <- <-]. left. by eauto. }
  destruct (_activeCalls (modem w)) as [reg|] eqn:Hreg.
  2:{ unfold _handleIncomingCall. rewrite bind_get_modem, Htype, bind_lift_Return, Hreg.
      destruct (caller_id _ more) as [[callerNumber ton] callerName].
      intros [= <- <-]. left. by eauto. }
  destruct (caller_id (_callingLineIdentification (modem w)) more)
    as [[callerNumber ton] callerName] eqn:Hid.
  rewrite (handleIncomingCall_cases _ _ _ _ _ _ _ _ Hreg Htype Hid).
  destruct (reg !! callerNumber) as [call|] eqn:Hcall.
  - destruct (heap w !! call) as [c|] eqn:Hc.
    + intros [= <- <-]. right. left. split; [done |]. by exists reg, callerNumber, call, c.
    + intros [= <- <-]. left. by eauto.
  - destruct ton as [ton|]; [| intros [= <- <-]; left; by eauto].
    destruct callerNumber as [n|].
    + by pose proof (caller_id_number_ton _ _ _ _ _ Hid).
    + destruct (caller_id_absent_number _ _ _ _ Hid) as [[= <-] ->].
      intros [= <- <-]. right. right. split; [done |]. by exists reg, callType.
Qed.

End RingHandler.



(** X16: whatever the lines, the ring handler sends nothing to the modem
    and changes neither the two capability flags nor the public
    activeCalls; when it raises, the world is as it was; when it returns,
    it has invoked the callback exactly once, on a call that exists.  A
    call that existed before keeps its number, name, type and state: only
    its ring count can have changed, by one. *)
Theorem handleIncomingCall_frame :
  forall (lines : list string) (w : World) (o : outcome unit) (w' : World),
    _handleIncomingCall lines w = (o, w') ->
    script w' = script w /\
    _callingLineIdentification (modem w') = _callingLineIdentification (modem w) /\
    _extendedIncomingCallIndication (modem w')
    = _extendedIncomingCallIndication (modem w) /\
    activeCalls (modem w') = activeCalls (modem w) /\
    (forall e, o = Raise e -> w' = w) /\
    (o = Return tt ->
       exists call, new_events w w' = [IncomingCallCallback call] /\
                    is_Some (heap w' !! call)) /\
    (forall i c, heap w !! i = Some c ->
       exists n, heap w' !! i = Some (set_ringCount n c) /\
                 (n = ringCount c \/ n = ringCount c + 1)).
Proof.
  intros lines w o w' Hrun.
  assert (Hsame : forall i c, heap w !! i = Some c ->
            exists n, heap w !! i = Some (set_ringCount n c) /\
                      (n = ringCount c \/ n = ringCount c + 1)).
  { intros i c Hc. exists (ringCount c). split; [by destruct c | by left]. }
  destruct (handleIncomingCall_run _ _ _ _ Hrun)
    as [(e & -> & ->) | [(-> & reg & key & call & c & Hreg & Hkey & Hc & ->)
                        | (-> & reg & callType & Hreg & Hnone & ->)]].
  - repeat split; try done. 
  - unfold new_events. norm_world. rewrite drop_app_length.
    repeat split; try done.
    + exists call. split; [done |]. rewrite list_lookup_insert_eq; [by eauto |].
      by eapply lookup_lt_Some.
    + intros i c0 Hc0. destruct (decide (i = call)) as [-> | Hne].
      * assert (c0 = c) as -> by congruence.
        exists (ringCount c + 1). split; [| by right].
        apply list_lookup_insert_eq. by eapply lookup_lt_Some.
      * rewrite list_lookup_insert_ne by done. by apply Hsame.
  - unfold new_events, with__activeCalls. norm_world. rewrite drop_app_length.
    repeat split; try done.
    + exists (length (heap w)). split; [done |].
      rewrite lookup_app_r, Nat.sub_diag by done. by eauto.
    + intros i c Hc. destruct (Hsame i c Hc) as (n & Hn & Hcnt).
      exists n. split; [| done]. by apply lookup_app_l_Some.
Qed.

Lemma handleIncomingCall_frame_witness :
  exists call,
    new_events
      (mkWorld (mkGsmModem false false ∅ (Some {[None := 0%nat]}))
         [mkIncomingCall None None None None false true 1] [] [Lines ["OK"]])
      (mkWorld (mkGsmModem false false ∅ (Some {[None := 0%nat]}))
         [mkIncomingCall None None None None false true 2]
         [IncomingCallCallback 0] [Lines ["OK"]])
    = [IncomingCallCallback call] /\
    is_Some ([mkIncomingCall None None None None false true 2] !! call).
Proof.
  assert (Hrun :
    _handleIncomingCall ["RING"]
      (mkWorld (mkGsmModem false false ∅ (Some {[None := 0%nat]}))
         [mkIncomingCall None None None None false true 1] [] [Lines ["OK"]])
    = (Return tt,
       mkWorld (mkGsmModem false false ∅ (Some {[None := 0%nat]}))
         [mkIncomingCall None None None None false true 2]
         [IncomingCallCallback 0] [Lines ["OK"]])).
  { erewrite handleIncomingCall_cases; [| reflexivity ..].
    by rewrite lookup_singleton_eq. }
  exact (proj1 (proj2 (proj2 (proj2 (proj2 (proj2
           (handleIncomingCall_frame _ _ _ _ Hrun)))))) eq_refl).
Defined.

(** X17: the only key the ring handler ever adds to the registry is the
    absent number None: after a ring that it completes the registry is as
    before, or it has the one new entry None for a call that was created
    with no number, no type of number and no name.  A caller with a number
    is never registered. *)
Theorem ring_registers_only_None :
  forall (lines : list string) (w : World) (reg : registry) (w' : World),
    _activeCalls (modem w) = Some reg ->
    _handleIncomingCall lines w = (Return tt, w') ->
    (_activeCalls (modem w') = Some reg /\ length (heap w') = length (heap w))
    \/
    (reg !! None = None /\
     _activeCalls (modem w') = Some (<[None := length (heap w)]> reg) /\
     exists callType,
       heap w' = heap w ++ [IncomingCall_init None None None callType]).
Proof.
  intros lines w reg w' Hreg Hrun.
  destruct (handleIncomingCall_run _ _ _ _ Hrun)
    as [(e & [=] & _) | [(_ & reg0 & key & call & c & Hreg0 & Hkey & Hc & ->)
                        | (_ & reg0 & callType & Hreg0 & Hnone & ->)]].
  - left. norm_world. split; [done |]. by rewrite length_insert.
  - right. unfold with__activeCalls. norm_world.
    assert (reg0 = reg) as -> by congruence.
    split; [done |]. split; [done |]. by exists callType.
Qed.

Lemma ring_registers_only_None_witness :
  (Some (<[None := 0%nat]> (∅ : registry)) = Some (∅ : registry) /\ 1%nat = 0%nat)
  \/
  ((∅ : registry) !! None = None /\
   Some (<[None := 0%nat]> (∅ : registry)) = Some (<[None := 0%nat]> (∅ : registry)) /\
   exists callType,
     [IncomingCall_init None None None (Some "VOICE")]
     = [] ++ [IncomingCall_init None None None callType]).
Proof.
  assert (Hrun :
    _handleIncomingCall ["+CRING: VOICE"]
      (mkWorld (mkGsmModem false true ∅ (Some ∅)) [] [] [])
    = (Return tt,
       mkWorld (mkGsmModem false true ∅ (Some (<[None := 0%nat]> ∅)))
         [IncomingCall_init None None None (Some "VOICE")]
         [IncomingCallCallback 0] [])).
  { erewrite handleIncomingCall_cases; [| reflexivity ..].
    by rewrite lookup_empty. }
  exact (ring_registers_only_None _
           (mkWorld (mkGsmModem false true ∅ (Some ∅)) [] [] []) ∅ _ eq_refl Hrun).
Defined.

(** ** The dispatcher and the registries *)

Section Dispatcher.

Lemma new_events_refl w : new_events w w = [].
Proof. unfold new_events. apply drop_all. Qed.

Lemma write_sent data timeout parseError term w :
  exists o rest,
    write data true timeout parseError term w = (o, sent (data +:+ term) rest w).
Proof.
  rewrite write_cases.
  destruct (script w) as [|[ls|] rest]; [by eauto | | by eauto].
  cbv zeta. destruct (last ls) as [st|]; [|by eauto].
  destruct (parseError && str_in "ERROR" st); by eauto.
Qed.

(** One command of [connect], whatever its answer. *)
Ltac any_answer :=
  match goal with
  | |- context [bind (write ?d true ?t ?p ?term) ?k ?w] =>
      let o := fresh "o" in let rest := fresh "rest" in let E := fresh "E" in
      destruct (write_sent d t p term w) as (o & rest & E);
      destruct o as [?|?];
      [ rewrite (bind_Return _ _ _ _ _ E) | by rewrite (bind_Raise _ _ _ _ _ E) ];
      clear E; norm_world
  | |- context [try_except_CommandError (write ?d true ?t ?p ?term) ?h ?e ?w] =>
      let o := fresh "o" in let rest := fresh "rest" in let E := fresh "E" in
      let x := fresh "x" in
      destruct (write_sent d t p term w) as (o & rest & E);
      destruct o as [?|x];
      [ rewrite (try_Return _ h e _ _ _ E)
      | destruct x as [ty co| | | | | | |];
        [ rewrite (try_Raise _ h e _ _ _ _ E)
        | by rewrite (try_Raise_other _ h e _ _ _ E) by done .. ] ];
      clear E; norm_world
  end.

(** [connect] changes the two capability flags and nothing else of the
    modem, and no call. *)
Lemma connect_frame w :
  activeCalls (modem (connect w).2) = activeCalls (modem w) /\
  _activeCalls (modem (connect w).2) = _activeCalls (modem w) /\
  heap (connect w).2 = heap w.
Proof.
  destruct w as [m h t s]. unfold connect, write_. step_modem.
  do 9 any_answer. step_modem.
  any_answer; step_modem.
  - any_answer; step_modem; by any_answer.
  - by any_answer.
Qed.

Lemma coverage_loop_frame fuel :
  forall block w,
    modem (coverage_loop fuel block w).2 = modem w /\
    heap (coverage_loop fuel block w).2 = heap w.
Proof.
  induction fuel as [|fuel IH]; intros block w.
  - by destruct block as [[|n]|].
  - destruct (decide (block = Some 0%nat)) as [-> | Hb]; [done |].
    rewrite coverage_loop_step by done. unfold bind.
    destruct (signalStrength_frame w) as (_ & Hm & Hh).
    destruct (signalStrength w) as [[ss|e] w1]; cbn [snd] in Hm, Hh; [|done].
    case_bool_decide; [done |].
    destruct (IH (Nat.pred <$> block) w1) as [Hm' Hh']. split; congruence.
Qed.

Lemma sendSms_frame destination text w :
  modem (sendSms destination text w).2 = modem w /\
  heap (sendSms destination text w).2 = heap w.
Proof.
  unfold sendSms, bind.
  destruct (write_sent ("AT+CMGS=" +:+ quoted destination +:+ CR +:+ text)
              15 true CTRL_Z w) as ([r|e] & rest & ->); done.
Qed.

(** [answer] and [sendDtmfTone] leave the modem's attributes alone. *)
Lemma answer_modem self w : modem (answer self w).2 = modem w.
Proof.
  unfold answer.
  destruct (heap w !! self) as [c|] eqn:Hc; [| unfold bind, load; by rewrite Hc].
  rewrite (bind_load _ _ _ _ Hc).
  destruct (ringing c); [|done]. unfold write_. rewrite !bind_assoc.
  destruct (write_sent "ATA" 5 true CR w) as ([r|e] & rest & E).
  - rewrite (bind_Return _ _ _ _ _ E). unfold bind, update. norm_world. rewrite Hc.
    norm_world.
    rewrite list_lookup_insert_eq by (by eapply lookup_lt_Some). done.
  - by rewrite (bind_Raise _ _ _ _ _ E).
Qed.

Lemma sendDtmfTone_frame self tones w :
  modem (sendDtmfTone self tones w).2 = modem w /\
  heap (sendDtmfTone self tones w).2 = heap w.
Proof.
  unfold sendDtmfTone.
  destruct (heap w !! self) as [c|] eqn:Hc.
  - rewrite (bind_load _ _ _ _ Hc).
    destruct (answered c); [|done]. unfold write_, bind.
    match goal with
    | |- context [write ?d true 5 true CR w] =>
        destruct (write_sent d 5 true CR w) as ([r|e] & rest & ->)
    end; done.
  - unfold bind, load. by rewrite Hc.
Qed.

(** The dispatcher: the modem's attributes but for [_activeCalls]. *)
Lemma notification_modem lines w :
  _callingLineIdentification (modem (__threadedHandleModemNotification lines w).2)
  = _callingLineIdentification (modem w) /\
  _extendedIncomingCallIndication (modem (__threadedHandleModemNotification lines w).2)
  = _extendedIncomingCallIndication (modem w) /\
  activeCalls (modem (__threadedHandleModemNotification lines w).2)
  = activeCalls (modem w) /\
  (_activeCalls (modem w) = None ->
   _activeCalls (modem (__threadedHandleModemNotification lines w).2) = None).
Proof.
  unfold __threadedHandleModemNotification.
  destruct lines as [|firstLine more]; [done |].
  destruct (str_in "RING" firstLine).
  - destruct (_handleIncomingCall (firstLine :: more) w) as [o w'] eqn:Hrun.
    destruct (handleIncomingCall_run _ _ _ _ Hrun)
      as [(e & -> & ->) | [(-> & reg & key & call & c & Hreg & Hkey & Hc & ->)
                          | (-> & reg & callType & Hreg & Hnone & ->)]]; [done | done |].
    unfold with__activeCalls. norm_world. cbn [snd]. norm_world.
    repeat split. congruence.
  - destruct (startswith firstLine "+CMTI"); [|done].
    unfold _handleSmsReceived.
    destruct (re_match CMTI_REGEX firstLine) as [m|] eqn:Hm; [|done].
    destruct (CMTI_sound _ _ Hm) as (index & _ & ->). cbv zeta.
    match goal with
    | |- context [bind ?c ?k w] => destruct (bind c k w) as [o w'] eqn:Hrun
    end.
    apply sms_pipeline_events in Hrun as (Hm' & _). cbn [snd]. by rewrite Hm'.
Qed.

End Dispatcher.

(** X18: when the handling of a notification raises, whatever the lines
    and the modem's answers, no callback has been invoked and nothing was
    logged: all that happened is that commands went out; the modem's
    attributes and the calls are as before. *)
Theorem notification_exception_safety :
  forall (lines : list string) (w : World) (e : exn) (w' : World),
    __threadedHandleModemNotification lines w = (Raise e, w') ->
    modem w' = modem w /\ heap w' = heap w /\
    Forall (fun ev => exists data, ev = Written data) (new_events w w').
Proof.
  intros lines w e w'. unfold __threadedHandleModemNotification.
  destruct lines as [|firstLine more].
  { intros [= <- <-]. by rewrite new_events_refl. }
  destruct (str_in "RING" firstLine).
  - intros Hrun.
    destruct (handleIncomingCall_run _ _ _ _ Hrun)
      as [(e' & _ & ->) | [([=] & _) | ([=] & _)]].
    by rewrite new_events_refl.
  - destruct (startswith firstLine "+CMTI"); [|done].
    unfold _handleSmsReceived.
    destruct (re_match CMTI_REGEX firstLine) as [m|] eqn:Hm; [|done].
    destruct (CMTI_sound _ _ Hm) as (index & _ & ->). cbv zeta.
    intros (Hm' & Hh & [(e' & _ & ->) | [(e' & _ & ->) | (sms & [=] & _)]])%sms_pipeline_events;
      repeat split; try done; repeat constructor; by eexists.
Qed.

Lemma notification_exception_safety_witness :
  Forall (fun ev => exists data, ev = Written data)
    (new_events
       (mkWorld (mkGsmModem true true ∅ None) [] []
          [Lines [CMGR_HEADER; "Hello"; "OK"]; Lines ["ERROR"]])
       (mkWorld (mkGsmModem true true ∅ None) []
          [wrote "AT+CMGR=4"; wrote "AT+CMGD=4"] [])).
Proof.
  exact (proj2 (proj2 (notification_exception_safety [CMTI_SM_4]
                  (mkWorld (mkGsmModem true true ∅ None) [] []
                     [Lines [CMGR_HEADER; "Hello"; "OK"]; Lines ["ERROR"]])
                  (CommandError None None)
                  (mkWorld (mkGsmModem true true ∅ None) []
                     [wrote "AT+CMGR=4"; wrote "AT+CMGD=4"] [])
                  ltac:(vm_compute; reflexivity)))).
Defined.

(** X19: no operation of the two classes changes the public activeCalls,
    and none creates the attribute _activeCalls that the ring handler
    reads: where it is absent before connect, signalStrength,
    waitForNetworkCoverage, sendSms, the handling of a notification,
    answer, sendDtmfTone or hangup, it is absent after. *)
Theorem registries_never_set :
  keeps_registries connect /\
  keeps_registries signalStrength /\
  (forall timeout expiry fuel,
      keeps_registries (waitForNetworkCoverage timeout expiry fuel)) /\
  (forall destination text, keeps_registries (sendSms destination text)) /\
  (forall lines, keeps_registries (__threadedHandleModemNotification lines)) /\
  (forall self, keeps_registries (answer self)) /\
  (forall self tones, keeps_registries (sendDtmfTone self tones)) /\
  (forall self, keeps_registries (hangup self)).
Proof.
  repeat split.
  - by destruct (connect_frame w) as (-> & _).
  - destruct (connect_frame w) as (_ & -> & _). done.
  - by destruct (signalStrength_frame w) as (_ & -> & _).
  - by destruct (signalStrength_frame w) as (_ & -> & _).
  - unfold waitForNetworkCoverage. by destruct (coverage_loop_frame fuel
                   (match timeout with Some _ => Some expiry | None => None end) w)
      as [-> _].
  - unfold waitForNetworkCoverage. by destruct (coverage_loop_frame fuel
                   (match timeout with Some _ => Some expiry | None => None end) w)
      as [-> _].
  - by destruct (sendSms_frame destination text w) as [-> _].
  - by destruct (sendSms_frame destination text w) as [-> _].
  - by destruct (notification_modem lines w) as (_ & _ & -> & _).
  - by destruct (notification_modem lines w) as (_ & _ & _ & H).
  - by rewrite answer_modem.
  - by rewrite answer_modem.
  - by destruct (sendDtmfTone_frame self tones w) as [-> _].
  - by destruct (sendDtmfTone_frame self tones w) as [-> _].
  - done.
Qed.

Lemma registries_never_set_witness :
  _activeCalls
    (modem (connect (mkWorld (mkGsmModem false false ∅ None) [] []
                       (replicate 12 (Lines ["OK"])))).2) = None.
Proof.
  exact (proj2 (proj1 registries_never_set
                  (mkWorld (mkGsmModem false false ∅ None) [] []
                     (replicate 12 (Lines ["OK"])))) eq_refl).
Defined.

(** X20: on a modem object as __init__ leaves it, and after connect,
    however connect went, a RING notification is never handled: the
    handler raises IndexError, when the extended indication is on and the
    line has no call type, or else AttributeError for _activeCalls; no call
    record is created and the callback is not invoked. *)
Theorem no_incoming_call_after_connect :
  forall (cb1 cb2 : bool) (m : GsmModem) (h : list IncomingCall) (t : list event)
         (s : list response) (o : outcome unit) (w1 : World)
         (firstLine : string) (more : list string),
    GsmModem_init cb1 cb2 = inr m ->
    connect (mkWorld m h t s) = (o, w1) ->
    str_in "RING" firstLine = true ->
    exists e,
      __threadedHandleModemNotification (firstLine :: more) w1 = (Raise e, w1) /\
      (e = IndexError \/ e = AttributeError "_activeCalls").
Proof.
  intros cb1 cb2 m h t s o w1 firstLine more Hinit Hconnect Hring.
  assert (Hreg : _activeCalls (modem w1) = None).
  { destruct (connect_frame (mkWorld m h t s)) as (_ & Hr & _).
    rewrite Hconnect in Hr. cbn [snd modem] in Hr. rewrite Hr.
    unfold GsmModem_init in Hinit. by destruct (cb1 && cb2); [injection Hinit as <- |]. }
  unfold __threadedHandleModemNotification. rewrite Hring.
  unfold _handleIncomingCall. rewrite bind_get_modem.
  destruct (ring_callType (_extendedIncomingCallIndication (modem w1)) firstLine)
    as [callType|e] eqn:Htype.
  - rewrite bind_lift_Return, Hreg.
    destruct (caller_id _ more) as [[callerNumber ton] callerName].
    exists (AttributeError "_activeCalls"). by auto.
  - exists e. split; [done |]. left.
    unfold ring_callType in Htype.
    destruct (_extendedIncomingCallIndication (modem w1)); [|done].
    destruct (split_space1 (chars firstLine)).2; [done | by injection Htype as <-].
Qed.

Lemma no_incoming_call_after_connect_witness :
  exists e,
    __threadedHandleModemNotification ["RING"]
      (mkWorld (mkGsmModem true true ∅ None) []
         (bringup_prefix ++ [wrote "AT+CLIP=1"; wrote "AT+CRC=1"; wrote "AT+CVHU=0"]) [])
    = (Raise e,
       mkWorld (mkGsmModem true true ∅ None) []
         (bringup_prefix ++ [wrote "AT+CLIP=1"; wrote "AT+CRC=1"; wrote "AT+CVHU=0"]) [])
    /\ (e = IndexError \/ e = AttributeError "_activeCalls").
Proof.
  exact (no_incoming_call_after_connect true true (mkGsmModem false false ∅ None)
           [] [] (replicate 12 (Lines ["OK"])) (Return tt)
           (mkWorld (mkGsmModem true true ∅ None) []
              (bringup_prefix ++ [wrote "AT+CLIP=1"; wrote "AT+CRC=1"; wrote "AT+CVHU=0"])
              [])
           "RING" [] eq_refl ltac:(vm_compute; reflexivity) eq_refl).
Defined.

(** ** Calls in every state *)

Section CallMethods.

(** For at most one tone the two branches of [sendDtmfTone] build the same
    command. *)
Lemma join_short sep (tones : string) :
  ~ (1 < String.length tones)%nat -> join sep (each_char tones) = tones.
Proof.
  destruct tones as [|c [|d tones]]; cbn [String.length]; [done | done | lia].
Qed.

Lemma update_Some self f c w :
  heap w !! self = Some c ->
  update self f w = (Return tt, with_heap (<[self := f c]> (heap w)) w).
Proof. intros H. unfold update. by rewrite H. Qed.

Lemma bind_update {B} self f c (k : unit -> M B) w :
  heap w !! self = Some c ->
  bind (update self f) k w = k tt (with_heap (<[self := f c]> (heap w)) w).
Proof. intros H. unfold bind. by rewrite (update_Some _ _ _ _ H). Qed.

Lemma split_space1_none (a : list ascii) :
  Forall (fun c => not_char " " c = true) a -> split_space1 a = (a, None).
Proof.
  induction a as [|c a IH]; [done |]. intros H. inversion H as [|? ? Hc Ha]; subst.
  cbn [split_space1]. unfold not_char in Hc. rewrite Ascii.eqb_sym in Hc.
  apply negb_true_iff in Hc. rewrite Hc. by rewrite (IH Ha).
Qed.

Lemma split_space1_first (a b : list ascii) :
  Forall (fun c => not_char " " c = true) a ->
  split_space1 (a ++ " "%char :: b) = (a, Some b).
Proof.
  induction a as [|c a IH]; [done |]. intros H. inversion H as [|? ? Hc Ha]; subst.
  cbn [split_space1 app]. unfold not_char in Hc. rewrite Ascii.eqb_sym in Hc.
  apply negb_true_iff in Hc. rewrite Hc. by rewrite (IH Ha).
Qed.

End CallMethods.

(** X21: answer on a call that is not ringing, be it answered already or
    ended, sends nothing and returns the call as it is.  On a ringing call
    it sends ATA: when the modem accepts, the call stops ringing and is
    ANSWERED, and the call is returned; when the modem answers with an
    error, CommandError is raised and the call is still ringing. *)
Theorem answer_outcomes :
  forall (w : World) (self : nat) (c : IncomingCall),
    heap w !! self = Some c ->
    (ringing c = false -> answer self w = (Return self, w))
    /\
    (ringing c = true ->
     forall r rest, script w = r :: rest ->
       (succeeds r ->
          answer self w
          = (Return self,
             mkWorld (modem w)
               (<[self := set_answered true (set_ringing false c)]> (heap w))
               (trace w ++ [wrote "ATA"]) rest)
          /\ state_of (set_answered true (set_ringing false c)) = ANSWERED)
       /\
       (fails r ->
          exists errorType errorCode,
            answer self w
            = (Raise (CommandError errorType errorCode),
               mkWorld (modem w) (heap w) (trace w ++ [wrote "ATA"]) rest))).
Proof.
  intros w self c Hc. unfold answer. rewrite (bind_load _ _ _ _ Hc).
  split; intros Hring; rewrite Hring; [done |].
  intros r rest Hs. rewrite !bind_assoc. split.
  - intros Hr. destruct (write__succeeds "ATA" w r rest Hs Hr) as [ls E].
    rewrite (bind_Return _ _ _ _ _ E). split; [|done].
    unfold bind. rewrite (update_Some _ _ c) by done. norm_world.
    cbn [with_heap]. norm_world.
    rewrite (update_Some _ _ (set_ringing false c))
      by (apply list_lookup_insert_eq; by eapply lookup_lt_Some).
    cbn [with_heap]. norm_world. by rewrite list_insert_insert_eq.
  - intros Hr. destruct (write__fails "ATA" w r rest Hs Hr) as (ty & co & E).
    exists ty, co. by rewrite (bind_Raise _ _ _ _ _ E).
Qed.

Lemma answer_outcomes_witness :
  answer 0
    (mkWorld (mkGsmModem false false ∅ None)
       [mkIncomingCall None None None None false false 3] [] [Lines ["OK"]])
  = (Return 0%nat,
     mkWorld (mkGsmModem false false ∅ None)
       [mkIncomingCall None None None None false false 3] [] [Lines ["OK"]]).
Proof.
  exact (proj1 (answer_outcomes
                  (mkWorld (mkGsmModem false false ∅ None)
                     [mkIncomingCall None None None None false false 3] []
                     [Lines ["OK"]])
                  0%nat _ eq_refl) eq_refl).
Defined.

(** X22: on an ANSWERED call sendDtmfTone sends, for every tone string,
    the empty one and a single tone included, AT+VTS= followed by the tones
    joined by ;+VTS=, the two branches of the method building the same
    text for a single tone; it returns when the modem accepts and raises
    CommandError when the modem answers with an error, and the call is as
    before either way. *)
Theorem sendDtmfTone_answered :
  forall (w : World) (self : nat) (c : IncomingCall) (tones : string)
         (r : response) (rest : list response),
    heap w !! self = Some c -> answered c = true -> script w = r :: rest ->
    let w' := mkWorld (modem w) (heap w)
                (trace w ++ [wrote ("AT+VTS=" +:+ join ";+VTS=" (each_char tones))])
                rest in
    (succeeds r -> sendDtmfTone self tones w = (Return tt, w'))
    /\
    (fails r ->
       exists errorType errorCode,
         sendDtmfTone self tones w = (Raise (CommandError errorType errorCode), w')).
Proof.
  intros w self c tones r rest Hc Ha Hs w'. subst w'.
  unfold sendDtmfTone. rewrite (bind_load _ _ _ _ Hc), Ha.
  assert (Hcmd : (if bool_decide (1 < String.length tones)%nat
                  then "AT+VTS=" +:+ join ";+VTS=" (each_char tones)
                  else "AT+VTS=" +:+ tones)
                 = "AT+VTS=" +:+ join ";+VTS=" (each_char tones)).
  { case_bool_decide; [done |]. by rewrite join_short. }
  rewrite Hcmd. split; intros Hr.
  - destruct (write__succeeds ("AT+VTS=" +:+ join ";+VTS=" (each_char tones))
                w r rest Hs Hr) as [ls E].
    by rewrite (bind_Return _ _ _ _ _ E).
  - destruct (write__fails ("AT+VTS=" +:+ join ";+VTS=" (each_char tones))
                w r rest Hs Hr) as (ty & co & E).
    exists ty, co. by rewrite (bind_Raise _ _ _ _ _ E).
Qed.

Lemma sendDtmfTone_answered_witness :
  sendDtmfTone 0 EmptyString
    (mkWorld (mkGsmModem false false ∅ None)
       [mkIncomingCall None None None None false true 1] [] [Lines ["OK"]])
  = (Return tt,
     mkWorld (mkGsmModem false false ∅ None)
       [mkIncomingCall None None None None false true 1] [wrote "AT+VTS="] []).
Proof.
  exact (proj1 (sendDtmfTone_answered
                  (mkWorld (mkGsmModem false false ∅ None)
                     [mkIncomingCall None None None None false true 1] []
                     [Lines ["OK"]])
                  0%nat _ EmptyString (Lines ["OK"]) [] eq_refl eq_refl eq_refl)
           OK_succeeds).
Defined.

(** X23: a ringing call that is answered can be sent tones at once: when
    the modem accepts both commands, answer followed by sendDtmfTone on the
    call that answer returned sends ATA and then the tone command, raises
    nothing, and leaves the call ANSWERED. *)
Theorem answer_then_sendDtmfTone :
  forall (w : World) (self : nat) (c : IncomingCall) (tones : string)
         (r1 r2 : response) (rest : list response),
    heap w !! self = Some c -> ringing c = true ->
    script w = r1 :: r2 :: rest -> succeeds r1 -> succeeds r2 ->
    exists w',
      (call <- answer self ;; sendDtmfTone call tones) w = (Return tt, w') /\
      new_events w w'
      = [wrote "ATA"; wrote ("AT+VTS=" +:+ join ";+VTS=" (each_char tones))] /\
      (state_of <$> heap w' !! self) = Some ANSWERED /\
      script w' = rest.
Proof.
  intros w self c tones r1 r2 rest Hc Hring Hs H1 H2.
  unfold answer. rewrite !bind_assoc, (bind_load _ _ _ _ Hc), Hring, !bind_assoc.
  destruct (write__succeeds "ATA" w r1 (r2 :: rest) Hs H1) as [ls E].
  rewrite (bind_Return _ _ _ _ _ E). clear E. rewrite !bind_assoc.
  rewrite (bind_update _ _ c) by exact Hc. cbn [with_heap]. norm_world.
  rewrite (bind_update _ _ (set_ringing false c))
    by (apply list_lookup_insert_eq; by eapply lookup_lt_Some).
  cbn [with_heap]. norm_world. rewrite list_insert_insert_eq, bind_ret.
  assert (Hc' : <[self := set_answered true (set_ringing false c)]> (heap w) !! self
                = Some (set_answered true (set_ringing false c))).
  { apply list_lookup_insert_eq. by eapply lookup_lt_Some. }
  unfold sendDtmfTone.
  rewrite (bind_load self (set_answered true (set_ringing false c))) by exact Hc'.
  cbn [answered set_answered].
  assert (Hcmd : (if bool_decide (1 < String.length tones)%nat
                  then "AT+VTS=" +:+ join ";+VTS=" (each_char tones)
                  else "AT+VTS=" +:+ tones)
                 = "AT+VTS=" +:+ join ";+VTS=" (each_char tones)).
  { case_bool_decide; [done |]. by rewrite join_short. }
  rewrite Hcmd.
  match goal with
  | |- context [bind (write_ ?d) ?k ?w0] =>
      destruct (write__succeeds d w0 r2 rest eq_refl H2) as [ls2 E2];
      rewrite (bind_Return _ _ _ _ _ E2)
  end.
  eexists. split; [reflexivity |]. unfold new_events. norm_world.
  rewrite <- !app_assoc, drop_app_length, Hc'. done.
Qed.

Lemma answer_then_sendDtmfTone_witness :
  exists w',
    (call <- answer 0 ;; sendDtmfTone call "12")
      (mkWorld (mkGsmModem false false ∅ None)
         [IncomingCall_init None None None None] [] [Lines ["OK"]; Lines ["OK"]])
    = (Return tt, w') /\
    trace w' = [wrote "ATA"; wrote "AT+VTS=1;+VTS=2"].
Proof.
  destruct (answer_then_sendDtmfTone
              (mkWorld (mkGsmModem false false ∅ None)
                 [IncomingCall_init None None None None] [] [Lines ["OK"]; Lines ["OK"]])
              0%nat _ "12" (Lines ["OK"]) (Lines ["OK"]) [] eq_refl eq_refl eq_refl
              OK_succeeds OK_succeeds) as (w' & Hrun & Hev & _).
  exists w'. split; [exact Hrun | exact Hev].
Defined.

(** X24: sendSms sends one frame, the command with the quoted
    destination, a carriage return, the text and Ctrl-Z, and reports the
    modem's answer as write does: it returns when the last line does not
    say ERROR, and for a last line +CMS ERROR: digits (or +CME) it raises
    CommandError with that kind and the number the digits spell. *)
Theorem sendSms_outcomes :
  forall (destination text : string) (w : World) (ls : list string) (st : string)
         (rest : list response),
    script w = Lines ls :: rest -> last ls = Some st ->
    let w' := mkWorld (modem w) (heap w)
                (trace w ++ [Written ("AT+CMGS=" +:+ quoted destination +:+ CR
                                       +:+ text +:+ CTRL_Z)]) rest in
    (str_in "ERROR" st = false -> sendSms destination text w = (Return tt, w'))
    /\
    (forall kind digits,
        cm_error_line kind digits st ->
        sendSms destination text w
        = (Raise (CommandError (Some kind) (Some (int digits))), w')).
Proof.
  intros destination text w ls st rest Hs Hl w'. subst w'. unfold sendSms.
  assert (Hdata : ("AT+CMGS=" +:+ quoted destination +:+ CR +:+ text) +:+ CTRL_Z
                  = "AT+CMGS=" +:+ quoted destination +:+ CR +:+ text +:+ CTRL_Z).
  { apply chars_inj. rewrite !chars_app. by rewrite <- !app_assoc. }
  split.
  - intros He.
    rewrite (bind_Return _ _ _ _ _
               (write_Return _ 15 true CTRL_Z _ _ _ _ Hs Hl ltac:(by rewrite He))).
    unfold ret, sent. by rewrite Hdata.
  - intros kind digits Hline.
    rewrite (bind_Raise _ _ _ _ _
               (write_Raise _ 15 CTRL_Z _ _ _ _ Hs Hl (cm_error_line_says_ERROR _ _ _ Hline))).
    rewrite (status_error_structured _ _ _ Hline). unfold sent. by rewrite Hdata.
Qed.

Lemma sendSms_outcomes_witness :
  sendSms "+2782" "Hi"
    (mkWorld (mkGsmModem false false ∅ None) [] [] [Lines ["+CMS ERROR: 500"]])
  = (Raise (CommandError (Some "CMS") (Some 500)),
     mkWorld (mkGsmModem false false ∅ None) []
       [Written ("AT+CMGS=" +:+ quoted "+2782" +:+ CR +:+ "Hi" +:+ CTRL_Z)] []).
Proof.
  refine (proj2 (sendSms_outcomes "+2782" "Hi"
                   (mkWorld (mkGsmModem false false ∅ None) [] []
                      [Lines ["+CMS ERROR: 500"]])
                   ["+CMS ERROR: 500"] "+CMS ERROR: 500" [] eq_refl eq_refl)
            "CMS" "500" _).
  unfold cm_error_line, is_digits, all_in.
  split; [by right |]. split; [split; [done | by vm_compute; repeat constructor] |].
  exists EmptyString. split; [by left | done].
Defined.

(** X25: with the extended indication on, the call type of a ring is the
    text after the first space of the line; a line without a space, the
    plain RING among them, has none, and the handler raises IndexError on
    it and leaves the world as it was. *)
Theorem ring_callType_split :
  forall (a : string),
    all_in (not_char " ") a ->
    (forall b, ring_callType true (a +:+ " " +:+ b) = Return (Some b))
    /\ ring_callType true a = Raise IndexError
    /\ (forall w more,
          _extendedIncomingCallIndication (modem w) = true ->
          _handleIncomingCall (a :: more) w = (Raise IndexError, w)).
Proof.
  intros a Ha. unfold all_in in Ha.
  assert (Hnone : ring_callType true a = Raise IndexError).
  { unfold ring_callType. by rewrite split_space1_none. }
  split; [|split; [done |]].
  - intros b. unfold ring_callType. rewrite chars_app.
    change (chars (" " +:+ b)) with (" "%char :: chars b).
    rewrite split_space1_first by done. cbn [snd]. by rewrite str_chars.
  - intros w more Hext. unfold _handleIncomingCall.
    by rewrite bind_get_modem, Hext, Hnone.
Qed.

Lemma ring_callType_split_witness :
  ring_callType true ("+CRING:" +:+ " " +:+ "VOICE") = Return (Some "VOICE")
  /\ ring_callType true "RING" = Raise IndexError.
Proof.
  assert (H : all_in (not_char " ") "+CRING:" /\ all_in (not_char " ") "RING")
    by (unfold all_in; split; vm_compute; repeat constructor).
  split.
  - exact (proj1 (ring_callType_split "+CRING:" (proj1 H)) "VOICE").
  - exact (proj1 (proj2 (ring_callType_split "RING" (proj2 H)))).
Defined.
